(** * Turso3D software occlusion buffer: sizing, clipping, bucketing,
    depth hierarchy and visibility query

    A shallow embedding of [Turso3D/Renderer/OcclusionBuffer.cpp].

    Conventions.
    - A C++ [int] is a [Z]; [/] on [int] is [Z.quot] (truncation), [&] is
      [Z.land], [>>] is [Z.shiftr] (arithmetic shift).  Signed overflow is
      undefined behaviour in C++; the model computes in [Z], and where
      [SetSize] computes the size of an allocation it answers [None] when
      the size is not an [int].
    - A heap array ([new T[n]], a [std::vector]) is a [list]; a read or a
      write outside the allocation is undefined behaviour and is modelled by
      [None] in the [option] monad, and so is a [new] that throws.
    - A loop whose trip count the source does not bound takes a [fuel]
      argument and answers [None] when the fuel is used up.
    - [float] arithmetic, the vector and matrix library and the constants
      and inline helpers of [OcclusionBuffer.h] are not part of the
      translated file; they are the fields of the classes [FloatOps] and
      [Header] below, and every result holds for all their instances. *)

From Stdlib Require Import ZArith QArith Lia Bool Sorted.
From stdpp Require Import base tactics option list numbers.

Local Open Scope Z_scope.

(** ** What the translation unit takes from its headers *)

(** Single-precision arithmetic as the source uses it: the constants it
    writes, the operations, the two comparisons and the two conversions
    [float -> int] and [int -> float]. *)
Class FloatOps : Type := {
  float : Type;
  f_zero : float;            (* 0.0f *)
  f_one : float;             (* 1.0f *)
  f_neg_one : float;         (* -1.0f *)
  f_half : float;            (* 0.5f *)
  f_neg_half : float;        (* -0.5f *)
  f_one_half : float;        (* 1.5f *)
  f_add : float -> float -> float;
  f_sub : float -> float -> float;
  f_mul : float -> float -> float;
  f_neg : float -> float;
  f_lt : float -> float -> bool;
  f_le : float -> float -> bool;
  f_of_int : Z -> float;
  f_to_int : float -> Z
}.

Module Vector3.
Record t `{FloatOps} : Type := make { x : float; y : float; z : float }.
Arguments make {_} _ _ _.
End Vector3.

Module Vector4.
Record t `{FloatOps} : Type := make { x : float; y : float; z : float; w : float }.
Arguments make {_} _ _ _ _.
End Vector4.

Abbreviation Vector3 := Vector3.t.
Abbreviation Vector4 := Vector4.t.

(** [a > b] on floats is [b < a]. *)
Definition f_gt `{FloatOps} (a b : float) : bool := f_lt b a.

(** The declarations of [OcclusionBuffer.h] and of the math library that the
    translated functions call, and the allocator behind [new T[n]]. *)
Class Header `{FloatOps} : Type := {
  OCCLUSION_MIN_SIZE : Z;
  OCCLUSION_BUFFER_SLICES : Z;
  IsPowerOfTwo : Z -> bool;
  (* whether [operator new[]] has the memory for an array of this many
     elements; it throws [std::bad_alloc] when it has not *)
  allocates : Z -> bool;
  Matrix4 : Type;
  Gradients : Type;
  ModelTransform : Matrix4 -> Vector3 -> Vector4;
  (* a member function: it reads scaleX, scaleY, offsetX and offsetY *)
  ViewportTransform : float -> float -> float -> float -> Vector4 -> Vector3;
  CheckFacing : Vector3 -> Vector3 -> Vector3 -> bool;
  ClipEdge : Vector4 -> Vector4 -> float -> float -> Vector4;
  DotProduct : Vector4 -> Vector4 -> float;
  Calculate : Vector3 -> Vector3 -> Vector3 -> Gradients
}.

(** [Min] and [Max] of Math.h on [int]. *)
Definition Min (a b : Z) : Z := if a <? b then a else b.
Definition Max (a b : Z) : Z := if a >? b then a else b.

(** ** Data *)

(** A cell of the depth hierarchy.  The fields are [min] and [max] in the
    source. *)
Record DepthValue : Type := mkDepthValue { dmin : Z; dmax : Z }.

(** The per-slice rasterization task: its scanline range. *)
Record RasterizeTrianglesTask : Type :=
  mkRasterTask { startY : Z; endY : Z }.

(** [IntRect] of Math/IntRect.h. *)
Module IntRect.
Record t : Type := make { left : Z; top : Z; right : Z; bottom : Z }.
End IntRect.

Abbreviation IntRect := IntRect.t.

(** How a loop body leaves: by [return b], or to the next iteration with the
    loop's variable. *)
Inductive Flow (A : Type) : Type :=
  | Return (b : bool)
  | Next (a : A).
Arguments Return {A} b.
Arguments Next {A} a.

Section OcclusionBuffer.
Context `{H : Header}.

Record BoundingBox : Type := mkBox { bmin : Vector3; bmax : Vector3 }.

Record GradientTriangle : Type :=
  mkTriangle { vertices : Vector3 * Vector3 * Vector3; gradients : Gradients }.

(** The part of a [GenerateTrianglesTask] that [AddTriangle] writes. *)
Record GenerateTrianglesTask : Type := mkGenTask {
  triangles : list GradientTriangle;
  triangleIndices : list (list Z)
}.

(** The object state.  [fullBuffer] is the allocation, [buffer] the offset
    of the pointer [buffer] inside it ([None] is [nullptr]). *)
Record OcclusionBuffer : Type := mkOcclusionBuffer {
  fullBuffer : list Z;
  buffer : option Z;
  width : Z;
  height : Z;
  sliceHeight : Z;
  activeSlices : Z;
  rasterizeTrianglesTasks : list RasterizeTrianglesTask;
  mipBuffers : list (list DepthValue);
  numTriangleBatches : Z;
  numReadyMipBuffers : Z;
  viewProj : Matrix4;
  scaleX : float;
  scaleY : float;
  offsetX : float;
  offsetY : float
}.

(** ** [OcclusionBuffer::CalculateViewport] *)
Definition CalculateViewport (this : OcclusionBuffer) : OcclusionBuffer :=
  let w := f_of_int (width this) in
  let h := f_of_int (height this) in
  mkOcclusionBuffer (fullBuffer this) (buffer this) (width this) (height this)
    (sliceHeight this) (activeSlices this) (rasterizeTrianglesTasks this)
    (mipBuffers this) (numTriangleBatches this) (numReadyMipBuffers this)
    (viewProj this)
    (f_mul f_half w) (f_mul f_neg_half h)
    (f_add (f_mul f_half w) f_half) (f_add (f_mul f_half h) f_half).

(** ** [OcclusionBuffer::SetSize] *)

(** The slice loop, lines 68-78: [n] iterations are left, [i] is the loop
    counter.  [rasterizeTrianglesTasks] is a member array of
    [OCCLUSION_BUFFER_SLICES] tasks, so [i] is inside it. *)
Fixpoint sliceLoop (n : nat) (i sliceHeight height : Z)
    (tasks : list RasterizeTrianglesTask) (activeSlices : Z)
    : list RasterizeTrianglesTask * Z :=
  match n with
  | O => (tasks, activeSlices)
  | S n' =>
      if i * sliceHeight <? height then
        let task := mkRasterTask (i * sliceHeight)
                      (Min ((i + 1) * sliceHeight) height) in
        sliceLoop n' (i + 1) sliceHeight height
          (<[Z.to_nat i := task]> tasks) (activeSlices + 1)
      else (tasks, activeSlices)
  end.

(** The array that [new T[n]] gives: the contents are indeterminate; the
    model fills with [d]. *)
Definition newArray {A : Type} (n : Z) (d : A) : list A := replicate (Z.to_nat n) d.

(** The largest [int] (32 bits). *)
Definition INT_MAX : Z := 2147483647.

(** [new T[n]] for a size [n] that the source computes in [int], lines 81
    and 91.  The call has no result when the size leaves the range of
    [int] (signed overflow; a negative size makes [new] throw
    [std::bad_array_new_length]) and when the allocator has no memory for
    it ([std::bad_alloc]). *)
Definition allocate {A : Type} (n : Z) (d : A) : option (list A) :=
  if (0 <=? n) && (n <=? INT_MAX) && allocates n then Some (newArray n d)
  else None.

(** The mip allocation loop, lines 86-95.  It ends only by its [break]. *)
Fixpoint mipLoop (fuel : nat) (newWidth newHeight : Z)
    (mips : list (list DepthValue)) : option (list (list DepthValue)) :=
  match fuel with
  | O => None
  | S fuel' =>
      let newWidth := (newWidth + 1) ÷ 2 in
      let newHeight := (newHeight + 1) ÷ 2 in
      mip ← allocate (newWidth * newHeight) (mkDepthValue 0 0);
      let mips := mips ++ [mip] in
      if (newWidth <=? OCCLUSION_MIN_SIZE) && (newHeight <=? OCCLUSION_MIN_SIZE)
      then Some mips
      else mipLoop fuel' newWidth newHeight mips
  end.

(** Lines 46-47: the statement acts on the member [height]. *)
Definition forceEvenHeight (this : OcclusionBuffer) : OcclusionBuffer :=
  if Z.land (height this) 1 =? 0 then this
  else mkOcclusionBuffer (fullBuffer this) (buffer this) (width this)
         (height this + 1)
         (sliceHeight this) (activeSlices this) (rasterizeTrianglesTasks this)
         (mipBuffers this) (numTriangleBatches this) (numReadyMipBuffers this)
         (viewProj this) (scaleX this) (scaleY this) (offsetX this) (offsetY this).

(** Lines 63-99: the path of [SetSize] that resizes. *)
Definition resize (fuel : nat) (this : OcclusionBuffer) (newWidth newHeight : Z)
    : option OcclusionBuffer :=
  let width' := newWidth in
  let height' := newHeight in
  let sliceHeight' := (newHeight ÷ OCCLUSION_BUFFER_SLICES) + 1 in
  let '(tasks', activeSlices') :=
    sliceLoop (Z.to_nat OCCLUSION_BUFFER_SLICES) 0 sliceHeight' height'
      (rasterizeTrianglesTasks this) 0 in
  fullBuffer' ← allocate (width' * (height' + 2) + 2) 0;
  let buffer' := Some (width' + 1) in
  mips' ← mipLoop fuel newWidth newHeight [];
  Some (CalculateViewport
          (mkOcclusionBuffer fullBuffer' buffer' width' height' sliceHeight'
             activeSlices' tasks' mips'
             (numTriangleBatches this) (numReadyMipBuffers this)
             (viewProj this) (scaleX this) (scaleY this)
             (offsetX this) (offsetY this))).

(** Line 49: nothing to do when the size is the stored one. *)
Definition sameSize (this : OcclusionBuffer) (newWidth newHeight : Z) : bool :=
  (newWidth =? width this) && (newHeight =? height this).

Definition SetSize (fuel : nat) (this : OcclusionBuffer) (newWidth newHeight : Z)
    : option (bool * OcclusionBuffer) :=
  let this := forceEvenHeight this in
  if sameSize this newWidth newHeight then Some (true, this)
  else if (newWidth <=? 0) || (newHeight <=? 0) then Some (false, this)
  else if negb (IsPowerOfTwo (width this)) then Some (false, this)
  else this' ← resize fuel this newWidth newHeight; Some (true, this').

(** ** Arrays *)

(** [a[i]] read and written through a pointer: [None] outside the
    allocation. *)
Definition load {A : Type} (a : list A) (i : Z) : option A :=
  if i <? 0 then None else a !! Z.to_nat i.

Definition store {A : Type} (a : list A) (i : Z) (v : A) : option (list A) :=
  if (0 <=? i) && (i <? Z.of_nat (length a)) then Some (<[Z.to_nat i := v]> a)
  else None.

(** [buffer[i]]: [buffer] points [width + 1] cells into [fullBuffer]. *)
Definition readBuffer (this : OcclusionBuffer) (i : Z) : option Z :=
  off ← buffer this; load (fullBuffer this) (off + i).

(** ** [OcclusionBuffer::BuildDepthHierarchyWork] *)

Section Reduce.
(** The two reductions of the source (lines 696-730 from the raw buffer,
    lines 742-776 from the previous level) are the same loops up to what
    [src[k]] yields: [srcMin k] stands for [src[k]] resp. [src[k].min] and
    [srcMax k] for [src[k]] resp. [src[k].max], at offset [k] of the source
    array. *)
Variables srcMin srcMax : Z -> option Z.

(** Lines 705-717 / 751-763: [n] cells of the row are left. *)
Fixpoint reduceRow4 (n : nat) (src src2 dest : Z) (mip : list DepthValue)
    : option (list DepthValue) :=
  match n with
  | O => Some mip
  | S n' =>
      a0 ← srcMin src; a1 ← srcMin (src + 1);
      let minUpper := Min a0 a1 in
      b0 ← srcMin src2; b1 ← srcMin (src2 + 1);
      let minLower := Min b0 b1 in
      c0 ← srcMax src; c1 ← srcMax (src + 1);
      let maxUpper := Max c0 c1 in
      d0 ← srcMax src2; d1 ← srcMax (src2 + 1);
      let maxLower := Max d0 d1 in
      mip' ← store mip dest
               (mkDepthValue (Min minUpper minLower) (Max maxUpper maxLower));
      reduceRow4 n' (src + 2) (src2 + 2) (dest + 1) mip'
  end.

(** Lines 721-728 / 767-774. *)
Fixpoint reduceRow2 (n : nat) (src dest : Z) (mip : list DepthValue)
    : option (list DepthValue) :=
  match n with
  | O => Some mip
  | S n' =>
      a0 ← srcMin src; a1 ← srcMin (src + 1);
      c0 ← srcMax src; c1 ← srcMax (src + 1);
      mip' ← store mip dest (mkDepthValue (Min a0 a1) (Max c0 c1));
      reduceRow2 n' (src + 2) (dest + 1) mip'
  end.

(** The loop over [y], lines 696-730 / 742-776: [n] rows are left. *)
Fixpoint reduceRows (n : nat) (y srcWidth srcHeight mipWidth : Z)
    (mip : list DepthValue) : option (list DepthValue) :=
  match n with
  | O => Some mip
  | S n' =>
      let src := (y * 2) * srcWidth in
      let dest := y * mipWidth in
      mip' ← (if y * 2 + 1 <? srcHeight
              then reduceRow4 (Z.to_nat mipWidth) src (src + srcWidth) dest mip
              else reduceRow2 (Z.to_nat mipWidth) src dest mip);
      reduceRows n' (y + 1) srcWidth srcHeight mipWidth mip'
  end.

Definition reduceLevel (srcWidth srcHeight mipWidth mipHeight : Z)
    (mip : list DepthValue) : option (list DepthValue) :=
  reduceRows (Z.to_nat mipHeight) 0 srcWidth srcHeight mipWidth mip.
End Reduce.

(** [src[k].min] and [src[k].max] of a mip level. *)
Definition cellMin (mip : list DepthValue) (k : Z) : option Z := dmin <$> load mip k.
Definition cellMax (mip : list DepthValue) (k : Z) : option Z := dmax <$> load mip k.

(** Lines 735-779: level [i] from level [i - 1]; [n] levels are left. *)
Fixpoint buildRest (n : nat) (i mipWidth mipHeight : Z)
    (mips : list (list DepthValue)) (ready : Z)
    : option (list (list DepthValue) * Z) :=
  match n with
  | O => Some (mips, ready)
  | S n' =>
      let prevWidth := mipWidth in
      let prevHeight := mipHeight in
      let mipWidth := (mipWidth + 1) ÷ 2 in
      let mipHeight := (mipHeight + 1) ÷ 2 in
      prev ← load mips (i - 1);
      cur ← load mips i;
      cur' ← reduceLevel (cellMin prev) (cellMax prev)
                prevWidth prevHeight mipWidth mipHeight cur;
      mips' ← store mips i cur';
      buildRest n' (i + 1) mipWidth mipHeight mips' (ready + 1)
  end.

Definition setHierarchy (this : OcclusionBuffer)
    (mips : list (list DepthValue)) (ready : Z) : OcclusionBuffer :=
  mkOcclusionBuffer (fullBuffer this) (buffer this) (width this) (height this)
    (sliceHeight this) (activeSlices this) (rasterizeTrianglesTasks this)
    mips (numTriangleBatches this) ready
    (viewProj this) (scaleX this) (scaleY this) (offsetX this) (offsetY this).

Definition BuildDepthHierarchyWork (this : OcclusionBuffer) : option OcclusionBuffer :=
  let mipWidth := (width this + 1) ÷ 2 in
  let mipHeight := (height this + 1) ÷ 2 in
  mip0 ← load (mipBuffers this) 0;
  mip0' ← reduceLevel (readBuffer this) (readBuffer this)
             (width this) (height this) mipWidth mipHeight mip0;
  mips ← store (mipBuffers this) 0 mip0';
  '(mips', ready') ← buildRest (length (mipBuffers this) - 1) 1 mipWidth mipHeight
                       mips (numReadyMipBuffers this + 1);
  Some (setHierarchy this mips' ready').

(** ** [OcclusionBuffer::IsVisible] *)

(** Lines 200-207: the corners in projection space, in the source's order. *)
Definition boxCorners (b : BoundingBox) : list Vector3 :=
  let lo := bmin b in
  let hi := bmax b in
  [ lo;
    Vector3.make (Vector3.x hi) (Vector3.y lo) (Vector3.z lo);
    Vector3.make (Vector3.x lo) (Vector3.y hi) (Vector3.z lo);
    Vector3.make (Vector3.x hi) (Vector3.y hi) (Vector3.z lo);
    Vector3.make (Vector3.x lo) (Vector3.y lo) (Vector3.z hi);
    Vector3.make (Vector3.x hi) (Vector3.y lo) (Vector3.z hi);
    Vector3.make (Vector3.x lo) (Vector3.y hi) (Vector3.z hi);
    hi ].

Definition clipCorners (this : OcclusionBuffer) (b : BoundingBox) : list Vector4 :=
  map (ModelTransform (viewProj this)) (boxCorners b).

(** [minX, maxX, minY, maxY, minZ] of line 210. *)
Record Extents : Type := mkExtents {
  minX : float; maxX : float; minY : float; maxY : float; minZ : float
}.

Definition viewportTransform (this : OcclusionBuffer) (v : Vector4) : Vector3 :=
  ViewportTransform (scaleX this) (scaleY this) (offsetX this) (offsetY this) v.

(** Lines 228-232. *)
Definition extend (e : Extents) (projected : Vector3) : Extents :=
  mkExtents
    (if f_lt (Vector3.x projected) (minX e) then Vector3.x projected else minX e)
    (if f_gt (Vector3.x projected) (maxX e) then Vector3.x projected else maxX e)
    (if f_lt (Vector3.y projected) (minY e) then Vector3.y projected else minY e)
    (if f_gt (Vector3.y projected) (maxY e) then Vector3.y projected else maxY e)
    (if f_lt (Vector3.z projected) (minZ e) then Vector3.z projected else minZ e).

(** Lines 221-233 over the corners that are left; [Return true] is the
    [return true] of line 224. *)
Fixpoint projectRest (this : OcclusionBuffer) (vs : list Vector4) (e : Extents)
    : Flow Extents :=
  match vs with
  | [] => Next e
  | v :: vs' =>
      if f_le (Vector4.z v) f_zero then Return true
      else projectRest this vs' (extend e (viewportTransform this v))
  end.

(** Lines 212-233. *)
Definition projectCorners (this : OcclusionBuffer) (vs : list Vector4) : Flow Extents :=
  match vs with
  | [] => Return true
  | v0 :: vs' =>
      if f_le (Vector4.z v0) f_zero then Return true
      else
        let projected := viewportTransform this v0 in
        projectRest this vs'
          (mkExtents (Vector3.x projected) (Vector3.x projected)
             (Vector3.y projected) (Vector3.y projected) (Vector3.z projected))
  end.

(** Lines 236-249: the expanded rectangle, clipped. *)
Definition queryRect (this : OcclusionBuffer) (e : Extents) : IntRect :=
  let l := f_to_int (f_sub (minX e) f_one_half) in
  let t := f_to_int (f_sub (minY e) f_one_half) in
  let r := f_to_int (f_add (maxX e) f_half) in
  let b := f_to_int (f_add (maxY e) f_half) in
  IntRect.make (if l <? 0 then 0 else l) (if t <? 0 then 0 else t)
    (if r >=? width this then width this - 1 else r)
    (if b >=? height this then height this - 1 else b).

(** Line 252. *)
Definition queryDepth (this : OcclusionBuffer) (e : Extents) : Z :=
  f_to_int (minZ e) - width this.

(** Lines 271-278: [n] cells of the row are left, [src] is the cell's
    offset in the level. *)
Fixpoint scanCells (mip : list DepthValue) (z : Z) (n : nat) (src : Z)
    (allOccluded : bool) : option (Flow bool) :=
  match n with
  | O => Some (Next allOccluded)
  | S n' =>
      cell ← load mip src;
      if z <=? dmin cell then Some (Return true)
      else scanCells mip z n' (src + 1)
             (if z <=? dmax cell then false else allOccluded)
  end.

(** Lines 267-280: [while (row <= endRow)]. *)
Fixpoint scanRows (fuel : nat) (mip : list DepthValue) (z : Z)
    (row endRow left right mipWidth : Z) (allOccluded : bool)
    : option (Flow bool) :=
  match fuel with
  | O => None
  | S fuel' =>
      if row <=? endRow then
        r ← scanCells mip z (Z.to_nat (right - left + 1)) (row + left) allOccluded;
        match r with
        | Return b => Some (Return b)
        | Next allOccluded' =>
            scanRows fuel' mip z (row + mipWidth) endRow left right mipWidth
              allOccluded'
        end
      else Some (Next allOccluded)
  end.

(** The body of the loop of line 255 for level [i]. *)
Definition scanLevel (fuel : nat) (this : OcclusionBuffer) (rect : IntRect)
    (z : Z) (i : Z) : option (Flow unit) :=
  let shift := i + 1 in
  let mipWidth := Z.shiftr (width this) shift in
  let left := Z.shiftr (IntRect.left rect) shift in
  let right := Z.shiftr (IntRect.right rect) shift in
  mipBuffer ← load (mipBuffers this) i;
  let row := Z.shiftr (IntRect.top rect) shift * mipWidth in
  let endRow := Z.shiftr (IntRect.bottom rect) shift * mipWidth in
  r ← scanRows fuel mipBuffer z row endRow left right mipWidth true;
  match r with
  | Return b => Some (Return b)
  | Next allOccluded =>
      if allOccluded : bool then Some (Return false) else Some (Next tt)
  end.

(** Lines 255-284: levels [n - 1] down to [0]. *)
Fixpoint scanLevels (fuel : nat) (this : OcclusionBuffer) (rect : IntRect)
    (z : Z) (n : nat) : option (Flow unit) :=
  match n with
  | O => Some (Next tt)
  | S i =>
      r ← scanLevel fuel this rect z (Z.of_nat i);
      match r with
      | Return b => Some (Return b)
      | Next _ => scanLevels fuel this rect z i
      end
  end.

(** Lines 293-298. *)
Fixpoint scanPixels (this : OcclusionBuffer) (z : Z) (n : nat) (src : Z)
    : option (Flow unit) :=
  match n with
  | O => Some (Next tt)
  | S n' =>
      d ← readBuffer this src;
      if z <=? d then Some (Return true) else scanPixels this z n' (src + 1)
  end.

(** Lines 287-300. *)
Fixpoint scanPixelRows (fuel : nat) (this : OcclusionBuffer) (rect : IntRect)
    (z : Z) (row endRow : Z) : option (Flow unit) :=
  match fuel with
  | O => None
  | S fuel' =>
      if row <=? endRow then
        r ← scanPixels this z
              (Z.to_nat (IntRect.right rect - IntRect.left rect + 1))
              (row + IntRect.left rect);
        match r with
        | Return b => Some (Return b)
        | Next _ => scanPixelRows fuel' this rect z (row + width this) endRow
        end
      else Some (Next tt)
  end.

(** Lines 252-302: the search of the hierarchy and of the pixels for the
    clipped rectangle [rect] and the depth [z]. *)
Definition searchDepth (fuel : nat) (this : OcclusionBuffer) (rect : IntRect)
    (z : Z) : option bool :=
  r ← scanLevels fuel this rect z (Z.to_nat (numReadyMipBuffers this));
  match r with
  | Return b => Some b
  | Next _ =>
      r' ← scanPixelRows fuel this rect z (IntRect.top rect * width this)
             (IntRect.bottom rect * width this);
      match r' with
      | Return b => Some b
      | Next _ => Some false
      end
  end.

Definition IsVisible (fuel : nat) (this : OcclusionBuffer)
    (worldSpaceBox : BoundingBox) : option bool :=
  if bool_decide (buffer this = None) || (numTriangleBatches this =? 0)
  then Some true
  else
    match projectCorners this (clipCorners this worldSpaceBox) with
    | Return b => Some b
    | Next e => searchDepth fuel this (queryRect this e) (queryDepth this e)
    end.

(** The object with other contents in the depth buffer and in the
    hierarchy, and the object after [n] batches were submitted and drawn
    into [pixels] (the rasterizer is not part of this development). *)
Definition withDepthData (this : OcclusionBuffer) (pixels : list Z)
    (mips : list (list DepthValue)) : OcclusionBuffer :=
  mkOcclusionBuffer pixels (buffer this) (width this) (height this)
    (sliceHeight this) (activeSlices this) (rasterizeTrianglesTasks this)
    mips (numTriangleBatches this) (numReadyMipBuffers this)
    (viewProj this) (scaleX this) (scaleY this) (offsetX this) (offsetY this).

Definition withFrame (this : OcclusionBuffer) (n : Z) (pixels : list Z)
    : OcclusionBuffer :=
  mkOcclusionBuffer pixels (buffer this) (width this) (height this)
    (sliceHeight this) (activeSlices this) (rasterizeTrianglesTasks this)
    (mipBuffers this) n 0
    (viewProj this) (scaleX this) (scaleY this) (offsetX this) (offsetY this).

(** "any corner's clip-space z <= 0". *)
Definition crossesNearPlane (this : OcclusionBuffer) (b : BoundingBox) : bool :=
  existsb (fun v => f_le (Vector4.z v) f_zero) (clipCorners this b).

(** ** [OcclusionBuffer::ClipVertices] *)

(** The arrays [vertices] and [clipTriangles] of [AddTriangle] and the
    counter [numClipTriangles], which [ClipVertices] takes by pointer and by
    reference. *)
Record ClipState : Type := mkClipState {
  clipVerts : list Vector4;
  clipTriangles : list bool;
  numClipTriangles : Z
}.

(** [vertices[dst] = ClipEdge(vertices[a], vertices[b], da, db)]. *)
Definition clipInto (vs : list Vector4) (dst a b : Z) (da db : float)
    : option (list Vector4) :=
  va ← load vs a; vb ← load vs b; store vs dst (ClipEdge va vb da db).

(** [vertices[dst] = vertices[src]]. *)
Definition copyInto (vs : list Vector4) (dst src : Z) : option (list Vector4) :=
  v ← load vs src; store vs dst v.

(** [d < 0.0f]. *)
Definition behind (d : float) : bool := f_lt d f_zero.

(** Lines 469-471, shared by the three one-vertex cases. *)
Definition appendTriangle (st : ClipState) : option (Z * list bool * Z) :=
  let newIdx := numClipTriangles st * 3 in
  ct ← store (clipTriangles st) (numClipTriangles st) true;
  Some (newIdx, ct, numClipTriangles st + 1).

(** The body of the loop of line 435 for triangle [i], lines 437-497. *)
Definition clipTriangle (plane : Vector4) (i : Z) (st : ClipState)
    : option ClipState :=
  active ← load (clipTriangles st) i;
  if active : bool then
    let vs := clipVerts st in
    let index := i * 3 in
    v0 ← load vs index; v1 ← load vs (index + 1); v2 ← load vs (index + 2);
    let d0 := DotProduct plane v0 in
    let d1 := DotProduct plane v1 in
    let d2 := DotProduct plane v2 in
    if behind d0 && behind d1 && behind d2 then
      ct ← store (clipTriangles st) i false;
      Some (mkClipState vs ct (numClipTriangles st))
    else if behind d0 && behind d1 then
      vs ← clipInto vs index index (index + 2) d0 d2;
      vs ← clipInto vs (index + 1) (index + 1) (index + 2) d1 d2;
      Some (mkClipState vs (clipTriangles st) (numClipTriangles st))
    else if behind d0 && behind d2 then
      vs ← clipInto vs index index (index + 1) d0 d1;
      vs ← clipInto vs (index + 2) (index + 2) (index + 1) d2 d1;
      Some (mkClipState vs (clipTriangles st) (numClipTriangles st))
    else if behind d1 && behind d2 then
      vs ← clipInto vs (index + 1) (index + 1) index d1 d0;
      vs ← clipInto vs (index + 2) (index + 2) index d2 d0;
      Some (mkClipState vs (clipTriangles st) (numClipTriangles st))
    else if behind d0 then
      '(newIdx, ct, num) ← appendTriangle st;
      vs ← clipInto vs newIdx index (index + 2) d0 d2;
      vs ← clipInto vs index index (index + 1) d0 d1;
      vs ← copyInto vs (newIdx + 1) index;
      vs ← copyInto vs (newIdx + 2) (index + 2);
      Some (mkClipState vs ct num)
    else if behind d1 then
      '(newIdx, ct, num) ← appendTriangle st;
      vs ← clipInto vs (newIdx + 1) (index + 1) index d1 d0;
      vs ← clipInto vs (index + 1) (index + 1) (index + 2) d1 d2;
      vs ← copyInto vs (newIdx + 2) (index + 1);
      vs ← copyInto vs newIdx index;
      Some (mkClipState vs ct num)
    else if behind d2 then
      '(newIdx, ct, num) ← appendTriangle st;
      vs ← clipInto vs (newIdx + 2) (index + 2) (index + 1) d2 d1;
      vs ← clipInto vs (index + 2) (index + 2) index d2 d0;
      vs ← copyInto vs newIdx (index + 2);
      vs ← copyInto vs (newIdx + 1) (index + 1);
      Some (mkClipState vs ct num)
    else Some st
  else Some st.

(** The loop of line 435: [n] of the [trianglesNow] triangles are left. *)
Fixpoint clipLoop (plane : Vector4) (n : nat) (i : Z) (st : ClipState)
    : option ClipState :=
  match n with
  | O => Some st
  | S n' => st' ← clipTriangle plane i st; clipLoop plane n' (i + 1) st'
  end.

Definition ClipVertices (plane : Vector4) (st : ClipState) : option ClipState :=
  let trianglesNow := numClipTriangles st in
  clipLoop plane (Z.to_nat trianglesNow) 0 st.

(** ** [OcclusionBuffer::AddTriangle] *)

Definition CLIPMASK_X_POS : Z := 0x1.
Definition CLIPMASK_X_NEG : Z := 0x2.
Definition CLIPMASK_Y_POS : Z := 0x4.
Definition CLIPMASK_Y_NEG : Z := 0x8.
Definition CLIPMASK_Z_POS : Z := 0x10.
Definition CLIPMASK_Z_NEG : Z := 0x20.

(** Lines 322-335. *)
Definition vertexClipMask (v : Vector4) : Z :=
  let m := 0 in
  let m := if f_gt (Vector4.x v) (Vector4.w v) then Z.lor m CLIPMASK_X_POS else m in
  let m := if f_lt (Vector4.x v) (f_neg (Vector4.w v)) then Z.lor m CLIPMASK_X_NEG else m in
  let m := if f_gt (Vector4.y v) (Vector4.w v) then Z.lor m CLIPMASK_Y_POS else m in
  let m := if f_lt (Vector4.y v) (f_neg (Vector4.w v)) then Z.lor m CLIPMASK_Y_NEG else m in
  let m := if f_gt (Vector4.z v) (Vector4.w v) then Z.lor m CLIPMASK_Z_POS else m in
  let m := if f_lt (Vector4.z v) f_zero then Z.lor m CLIPMASK_Z_NEG else m in
  m.

(** Lines 361-362 and 411-412. *)
Definition extentY (p0 p1 p2 : Vector3) : Z * Z :=
  (Min (Min (f_to_int (Vector3.y p0)) (f_to_int (Vector3.y p1))) (f_to_int (Vector3.y p2)),
   Max (Max (f_to_int (Vector3.y p0)) (f_to_int (Vector3.y p1))) (f_to_int (Vector3.y p2))).


(** [task->triangleIndices[i].push_back(idx)]. *)
Definition pushIndex (buckets : list (list Z)) (i idx : Z) : option (list (list Z)) :=
  b ← load buckets i; store buckets i (b ++ [idx]).

(** Lines 368-374, the fully inside path: [n] slices are left. *)
Fixpoint bucketInside (this : OcclusionBuffer) (idx minY maxY : Z) (n : nat)
    (i : Z) (buckets : list (list Z)) : option (list (list Z)) :=
  match n with
  | O => Some buckets
  | S n' =>
      let sliceStartY := i * sliceHeight this in
      let sliceEndY := Min (height this) (sliceStartY + sliceHeight this) in
      buckets' ← (if (minY <? sliceEndY) && (maxY >? sliceStartY)
                  then pushIndex buckets i idx else Some buckets);
      bucketInside this idx minY maxY n' (i + 1) buckets'
  end.

(** Lines 418-424, the clipped path. *)
Fixpoint bucketClipped (this : OcclusionBuffer) (idx minY maxY : Z) (n : nat)
    (j : Z) (buckets : list (list Z)) : option (list (list Z)) :=
  match n with
  | O => Some buckets
  | S n' =>
      let startY := j * sliceHeight this in
      let endY := startY + sliceHeight this in
      buckets' ← (if (minY <? endY) && (maxY >=? startY)
                  then pushIndex buckets j idx else Some buckets);
      bucketClipped this idx minY maxY n' (j + 1) buckets'
  end.

(** Lines 354-375 and 404-425: project, cull, append and bucket one
    triangle; [clipped] tells which of the two copies of the code runs. *)
Definition addProjected (clipped : bool) (this : OcclusionBuffer)
    (task : GenerateTrianglesTask) (v0 v1 v2 : Vector4)
    : option GenerateTrianglesTask :=
  let p0 := viewportTransform this v0 in
  let p1 := viewportTransform this v1 in
  let p2 := viewportTransform this v2 in
  if CheckFacing p0 p1 p2 then
    let idx := Z.of_nat (length (triangles task)) in
    let '(minY, maxY) := extentY p0 p1 p2 in
    let projected := mkTriangle (p0, p1, p2) (Calculate p0 p1 p2) in
    let triangles' := triangles task ++ [projected] in
    buckets ← (if clipped
               then bucketClipped this idx minY maxY
                      (Z.to_nat (activeSlices this)) 0 (triangleIndices task)
               else bucketInside this idx minY maxY
                      (Z.to_nat (activeSlices this)) 0 (triangleIndices task));
    Some (mkGenTask triangles' buckets)
  else Some task.

(** Lines 399-427: [n] of the [numClipTriangles] triangles are left. *)
Fixpoint addClipped (this : OcclusionBuffer) (st : ClipState) (n : nat) (i : Z)
    (task : GenerateTrianglesTask) : option GenerateTrianglesTask :=
  match n with
  | O => Some task
  | S n' =>
      active ← load (clipTriangles st) i;
      task' ← (if active : bool then
                 let index := i * 3 in
                 v0 ← load (clipVerts st) index;
                 v1 ← load (clipVerts st) (index + 1);
                 v2 ← load (clipVerts st) (index + 2);
                 addProjected true this task v0 v1 v2
               else Some task);
      addClipped this st n' (i + 1) task'
  end.

(** [if (clipMask & bit) ClipVertices(plane, ...)], lines 385-396. *)
Definition clipAgainst (clipMask bit : Z) (plane : Vector4) (st : ClipState)
    : option ClipState :=
  if Z.land clipMask bit =? 0 then Some st else ClipVertices plane st.

(** [vertices] is the caller's array of [64 * 3] vertices, of which the
    first three are the triangle; the function clips inside it, and the
    caller reads nothing back from it. *)
Definition AddTriangle (this : OcclusionBuffer) (task : GenerateTrianglesTask)
    (vertices : list Vector4) : option GenerateTrianglesTask :=
  v0 ← load vertices 0; v1 ← load vertices 1; v2 ← load vertices 2;
  let m0 := vertexClipMask v0 in
  let m1 := vertexClipMask v1 in
  let m2 := vertexClipMask v2 in
  let clipMask := Z.lor (Z.lor (Z.lor 0 m0) m1) m2 in
  let andClipMask := Z.land (Z.land m0 m1) m2 in
  if negb (andClipMask =? 0) then Some task
  else if clipMask =? 0 then addProjected false this task v0 v1 v2
  else
    ct ← store (replicate 64 false) 0 true;
    let st := mkClipState vertices ct 1 in
    st ← clipAgainst clipMask CLIPMASK_X_POS
           (Vector4.make f_neg_one f_zero f_zero f_one) st;
    st ← clipAgainst clipMask CLIPMASK_X_NEG
           (Vector4.make f_one f_zero f_zero f_one) st;
    st ← clipAgainst clipMask CLIPMASK_Y_POS
           (Vector4.make f_zero f_neg_one f_zero f_one) st;
    st ← clipAgainst clipMask CLIPMASK_Y_NEG
           (Vector4.make f_zero f_one f_zero f_one) st;
    st ← clipAgainst clipMask CLIPMASK_Z_POS
           (Vector4.make f_zero f_zero f_neg_one f_one) st;
    st ← clipAgainst clipMask CLIPMASK_Z_NEG
           (Vector4.make f_zero f_zero f_one f_zero) st;
    addClipped this st (Z.to_nat (numClipTriangles st)) 0 task.

End OcclusionBuffer.

(** ** What the frame pipeline takes from its headers *)

(** The declarations of [OcclusionBuffer.h] and of the math library that
    [AddTriangles], [GenerateTrianglesWork] and [RasterizeTrianglesWork]
    use.  [RasterizeSpans] is a member function that draws into the depth
    buffer and advances the two edges it is given by reference. *)
Class FrameHeader `{H : Header} : Type := {
  OCCLUSION_Z_SCALE : float;
  Matrix3x4 : Type;
  (* [Matrix4 operator * (const Matrix3x4&)] *)
  mulTransform : Matrix4 -> Matrix3x4 -> Matrix4;
  Edge : Type;
  (* [Edge(gradients, top, bottom, topY)] *)
  newEdge : Gradients -> Vector3 -> Vector3 -> Z -> Edge;
  dInvZdXInt : Gradients -> Z;
  RasterizeSpans : OcclusionBuffer -> Edge -> Edge -> Z -> Z -> Z -> Z -> Z ->
                   option (OcclusionBuffer * Edge * Edge)
}.

Section Frame.
Context `{F : FrameHeader}.

(** [TriangleDrawBatch].  [vertexData] is the caller's vertex memory from
    the batch's pointer on, one [Vector3] position per [vertexSize] bytes;
    [indexData] is the caller's index memory from the batch's pointer on
    ([None] is [nullptr]), one index per [indexSize] bytes. *)
Record TriangleDrawBatch : Type := mkBatch {
  worldTransform : Matrix3x4;
  vertexData : list Vector3;
  vertexSize : Z;
  indexData : option (list Z);
  indexSize : Z;
  drawCount : Z
}.

(** A [GenerateTrianglesTask] with its batch. *)
Record BatchTask : Type := mkBatchTask {
  batch : TriangleDrawBatch;
  work : GenerateTrianglesTask
}.

(** What the object hands to the work queue: [QueueTasks] of the first [n]
    tasks of [generateTrianglesTasks] or of [rasterizeTrianglesTasks], and
    [QueueTask(depthHierarchyTask)]. *)
Inductive Queued : Type :=
  | QueueGenerate (n : Z)
  | QueueRasterize (n : Z)
  | QueueDepthHierarchy.

(** The object with the members of the frame pipeline: the batches, the
    two atomic counters, and the calls made to the work queue so far. *)
Record Frame : Type := mkFrame {
  occl : OcclusionBuffer;
  generateTrianglesTasks : list BatchTask;
  numPendingGenerateTasks : Z;
  numPendingRasterizeTasks : Z;
  queued : list Queued
}.

Definition setOccl (p : Frame) (this : OcclusionBuffer) : Frame :=
  mkFrame this (generateTrianglesTasks p) (numPendingGenerateTasks p)
    (numPendingRasterizeTasks p) (queued p).

Definition setBatches (this : OcclusionBuffer) (n : Z) : OcclusionBuffer :=
  mkOcclusionBuffer (fullBuffer this) (buffer this) (width this) (height this)
    (sliceHeight this) (activeSlices this) (rasterizeTrianglesTasks this)
    (mipBuffers this) n (numReadyMipBuffers this)
    (viewProj this) (scaleX this) (scaleY this) (offsetX this) (offsetY this).

(** ** [OcclusionBuffer::Complete], [IsCompleted] and [Reset] *)

Definition IsCompleted (p : Frame) : bool := numPendingRasterizeTasks p =? 0.

Section Complete.
(** [workQueue->TryComplete()]: the calling thread runs queued tasks, of
    this object or of others. *)
Variable TryComplete : Frame -> Frame.

Fixpoint Complete (fuel : nat) (p : Frame) : option Frame :=
  match fuel with
  | O => None
  | S fuel' =>
      if numPendingRasterizeTasks p >? 0 then Complete fuel' (TryComplete p)
      else Some p
  end.

Definition Reset (fuel : nat) (p : Frame) : option Frame :=
  p ← Complete fuel p;
  let this := occl p in
  Some (mkFrame
          (mkOcclusionBuffer (fullBuffer this) (buffer this) (width this)
             (height this) (sliceHeight this) (activeSlices this)
             (rasterizeTrianglesTasks this) (mipBuffers this) 0 0
             (viewProj this) (scaleX this) (scaleY this) (offsetX this)
             (offsetY this))
          (generateTrianglesTasks p) 0 0 (queued p)).
End Complete.

(** ** [OcclusionBuffer::AddTriangles] *)

(** [new GenerateTrianglesTask(...)]: no triangles, one empty bucket per
    slice; the batch is not initialised, the model gives it [blank]. *)
Definition newBatchTask (blank : TriangleDrawBatch) : BatchTask :=
  mkBatchTask blank
    (mkGenTask [] (replicate (Z.to_nat OCCLUSION_BUFFER_SLICES) [])).

(** Lines 139-141 and 161-163: [n] slices are left. *)
Fixpoint clearBuckets (n : nat) (i : Z) (buckets : list (list Z))
    : option (list (list Z)) :=
  match n with
  | O => Some buckets
  | S n' => buckets' ← store buckets i []; clearBuckets n' (i + 1) buckets'
  end.

(** The part that the two overloads share: the task to fill (a new one
    when every task is in use), its batch, its lists cleared, the counter
    advanced. *)
Definition addBatch (blank : TriangleDrawBatch) (p : Frame)
    (fill : TriangleDrawBatch -> TriangleDrawBatch) : option Frame :=
  let this := occl p in
  let tasks :=
    if Z.of_nat (length (generateTrianglesTasks p)) <=? numTriangleBatches this
    then generateTrianglesTasks p ++ [newBatchTask blank]
    else generateTrianglesTasks p in
  task ← load tasks (numTriangleBatches this);
  buckets ← clearBuckets (Z.to_nat (activeSlices this)) 0
               (triangleIndices (work task));
  tasks' ← store tasks (numTriangleBatches this)
              (mkBatchTask (fill (batch task)) (mkGenTask [] buckets));
  Some (mkFrame (setBatches this (numTriangleBatches this + 1)) tasks'
          (numPendingGenerateTasks p) (numPendingRasterizeTasks p) (queued p)).

(** Lines 125-144: the overload without indices. *)
Definition AddTriangles (blank : TriangleDrawBatch) (p : Frame)
    (worldTransform' : Matrix3x4) (vertexData' : list Vector3)
    (vertexSize' vertexStart vertexCount : Z) : option Frame :=
  addBatch blank p (fun b =>
    mkBatch worldTransform' (drop (Z.to_nat vertexStart) vertexData') vertexSize'
      None (indexSize b) vertexCount).

(** Lines 146-166: the overload with indices. *)
Definition AddTrianglesIndexed (blank : TriangleDrawBatch) (p : Frame)
    (worldTransform' : Matrix3x4) (vertexData' : list Vector3) (vertexSize' : Z)
    (indexData' : list Z) (indexSize' indexStart indexCount : Z) : option Frame :=
  addBatch blank p (fun _ =>
    mkBatch worldTransform' vertexData' vertexSize'
      (Some (drop (Z.to_nat indexStart) indexData')) indexSize' indexCount).

(** ** [OcclusionBuffer::DrawTriangles] *)
Definition DrawTriangles (p : Frame) : option Frame :=
  let this := occl p in
  if bool_decide (buffer this = None) || negb (IsCompleted p) then Some p
  else if numTriangleBatches this =? 0 then Some p
  else
    (* [&generateTrianglesTasks[0]] *)
    _ ← load (generateTrianglesTasks p) 0;
    Some (mkFrame this (generateTrianglesTasks p) (numTriangleBatches this) 1
            (queued p ++ [QueueGenerate (numTriangleBatches this)])).

(** ** [OcclusionBuffer::GenerateTrianglesWork] *)

(** [AddTriangle]'s effect on the caller's array: the array as the clipping
    passes of lines 385-396 leave it. *)
Definition AddTriangleArray (vertices : list Vector4) : option (list Vector4) :=
  v0 ← load vertices 0; v1 ← load vertices 1; v2 ← load vertices 2;
  let m0 := vertexClipMask v0 in
  let m1 := vertexClipMask v1 in
  let m2 := vertexClipMask v2 in
  let clipMask := Z.lor (Z.lor (Z.lor 0 m0) m1) m2 in
  let andClipMask := Z.land (Z.land m0 m1) m2 in
  if negb (andClipMask =? 0) then Some vertices
  else if clipMask =? 0 then Some vertices
  else
    ct ← store (replicate 64 false) 0 true;
    let st := mkClipState vertices ct 1 in
    st ← clipAgainst clipMask CLIPMASK_X_POS
           (Vector4.make f_neg_one f_zero f_zero f_one) st;
    st ← clipAgainst clipMask CLIPMASK_X_NEG
           (Vector4.make f_one f_zero f_zero f_one) st;
    st ← clipAgainst clipMask CLIPMASK_Y_POS
           (Vector4.make f_zero f_neg_one f_zero f_one) st;
    st ← clipAgainst clipMask CLIPMASK_Y_NEG
           (Vector4.make f_zero f_one f_zero f_one) st;
    st ← clipAgainst clipMask CLIPMASK_Z_POS
           (Vector4.make f_zero f_zero f_neg_one f_one) st;
    st ← clipAgainst clipMask CLIPMASK_Z_NEG
           (Vector4.make f_zero f_zero f_one f_zero) st;
    Some (clipVerts st).

(** [vertices[0 .. 2] = ModelTransform(modelViewProj, v0 .. v2);
    AddTriangle(trianglesTask, vertices);] *)
Definition transformAndAdd (this : OcclusionBuffer) (modelViewProj : Matrix4)
    (v0 v1 v2 : Vector3) (st : GenerateTrianglesTask * list Vector4)
    : option (GenerateTrianglesTask * list Vector4) :=
  let '(task, vertices) := st in
  vertices ← store vertices 0 (ModelTransform modelViewProj v0);
  vertices ← store vertices 1 (ModelTransform modelViewProj v1);
  vertices ← store vertices 2 (ModelTransform modelViewProj v2);
  task' ← AddTriangle this task vertices;
  vertices' ← AddTriangleArray vertices;
  Some (task', vertices').

(** Lines 518-530: the loop without indices. *)
Fixpoint generatePlain (fuel : nat) (this : OcclusionBuffer)
    (modelViewProj : Matrix4) (b : TriangleDrawBatch) (index : Z)
    (st : GenerateTrianglesTask * list Vector4)
    : option (GenerateTrianglesTask * list Vector4) :=
  match fuel with
  | O => None
  | S fuel' =>
      if index + 2 <? drawCount b then
        v0 ← load (vertexData b) index;
        v1 ← load (vertexData b) (index + 1);
        v2 ← load (vertexData b) (index + 2);
        st' ← transformAndAdd this modelViewProj v0 v1 v2 st;
        generatePlain fuel' this modelViewProj b (index + 3) st'
      else Some st
  end.

(** Lines 541-554 and 562-575, which differ in the width of an index: the
    loop with indices; [indices] is the offset of the pointer [indices]
    from [batch.indexData]. *)
Fixpoint generateIndexed (fuel : nat) (this : OcclusionBuffer)
    (modelViewProj : Matrix4) (b : TriangleDrawBatch) (idata : list Z)
    (indices : Z) (st : GenerateTrianglesTask * list Vector4)
    : option (GenerateTrianglesTask * list Vector4) :=
  match fuel with
  | O => None
  | S fuel' =>
      let indicesEnd := drawCount b in
      if indices <? indicesEnd then
        i0 ← load idata indices;
        i1 ← load idata (indices + 1);
        i2 ← load idata (indices + 2);
        v0 ← load (vertexData b) i0;
        v1 ← load (vertexData b) i1;
        v2 ← load (vertexData b) i2;
        st' ← transformAndAdd this modelViewProj v0 v1 v2 st;
        generateIndexed fuel' this modelViewProj b idata (indices + 3) st'
      else Some st
  end.

(** Lines 505-575: the triangles of the batch of [bt]; [vertices] is the
    local array of [64 * 3] vertices, whose contents are indeterminate on
    entry. *)
Definition generateTriangles (fuel : nat) (this : OcclusionBuffer)
    (bt : BatchTask) (vertices : list Vector4) : option GenerateTrianglesTask :=
  let b := batch bt in
  let modelViewProj := mulTransform (viewProj this) (worldTransform b) in
  fst <$>
    match indexData b with
    | None => generatePlain fuel this modelViewProj b 0 (work bt, vertices)
    | Some idata =>
        if indexSize b =? 2
        then generateIndexed fuel this modelViewProj b idata 0 (work bt, vertices)
        else generateIndexed fuel this modelViewProj b idata 0 (work bt, vertices)
    end.

(** Lines 578-582: [numPendingGenerateTasks.fetch_add(-1) == 1]. *)
Definition generateDone (p : Frame) : Frame :=
  let old := numPendingGenerateTasks p in
  if old =? 1
  then mkFrame (occl p) (generateTrianglesTasks p) (old - 1)
         (activeSlices (occl p))
         (queued p ++ [QueueRasterize (activeSlices (occl p))])
  else mkFrame (occl p) (generateTrianglesTasks p) (old - 1)
         (numPendingRasterizeTasks p) (queued p).

(** The work of task [i] of [generateTrianglesTasks]. *)
Definition GenerateTrianglesWork (fuel : nat) (p : Frame) (i : Z)
    (vertices : list Vector4) : option Frame :=
  bt ← load (generateTrianglesTasks p) i;
  task' ← generateTriangles fuel (occl p) bt vertices;
  tasks' ← store (generateTrianglesTasks p) i (mkBatchTask (batch bt) task');
  Some (generateDone
          (mkFrame (occl p) tasks' (numPendingGenerateTasks p)
             (numPendingRasterizeTasks p) (queued p))).

(** ** [OcclusionBuffer::RasterizeTrianglesWork] *)

(** [buffer[i] = v]. *)
Definition writeBuffer (this : OcclusionBuffer) (i : Z) (v : Z)
    : option OcclusionBuffer :=
  off ← buffer this;
  pixels ← store (fullBuffer this) (off + i) v;
  Some (mkOcclusionBuffer pixels (buffer this) (width this) (height this)
          (sliceHeight this) (activeSlices this) (rasterizeTrianglesTasks this)
          (mipBuffers this) (numTriangleBatches this) (numReadyMipBuffers this)
          (viewProj this) (scaleX this) (scaleY this) (offsetX this)
          (offsetY this)).

(** Lines 598-599: [n] pixels of the row are left, [start] is the offset of
    the pointer [start] from [buffer]. *)
Fixpoint clearRow (n : nat) (start : Z) (this : OcclusionBuffer)
    : option OcclusionBuffer :=
  match n with
  | O => Some this
  | S n' =>
      this' ← writeBuffer this start (f_to_int OCCLUSION_Z_SCALE);
      clearRow n' (start + 1) this'
  end.

(** Lines 593-600: [n] rows of the slice are left. *)
Fixpoint clearRows (n : nat) (y : Z) (this : OcclusionBuffer)
    : option OcclusionBuffer :=
  match n with
  | O => Some this
  | S n' =>
      this' ← clearRow (Z.to_nat (width this * y + width this - width this * y))
                 (width this * y) this;
      clearRows n' (y + 1) this'
  end.

(** Lines 611-646: the vertices from top to bottom. *)
Record VertexOrder : Type := mkOrder {
  top : Z; middle : Z; bottom : Z; middleIsRight : bool
}.

Definition sortVertices (y0 y1 y2 : float) : VertexOrder :=
  if f_lt y0 y1 then
    if f_lt y2 y0 then mkOrder 2 0 1 true
    else if f_lt y1 y2 then mkOrder 0 1 2 true
    else mkOrder 0 2 1 false
  else
    if f_lt y2 y1 then mkOrder 2 1 0 false
    else if f_lt y0 y2 then mkOrder 1 0 2 false
    else mkOrder 1 2 0 true.

(** [vertices[k]] of a triangle. *)
Definition vertexOf (t : GradientTriangle) (k : Z) : Vector3 :=
  let '(v0, v1, v2) := vertices t in
  if k =? 0 then v0 else if k =? 1 then v1 else v2.

(** Lines 606-680: the body of the loop over the indices of a bucket. *)
Definition rasterizeTriangle (sliceStartY sliceEndY : Z)
    (this : OcclusionBuffer) (t : GradientTriangle) : option OcclusionBuffer :=
  let '(v0, v1, v2) := vertices t in
  let o := sortVertices (Vector3.y v0) (Vector3.y v1) (Vector3.y v2) in
  let topY := f_to_int (Vector3.y (vertexOf t (top o))) in
  let middleY := f_to_int (Vector3.y (vertexOf t (middle o))) in
  let bottomY := f_to_int (Vector3.y (vertexOf t (bottom o))) in
  if topY =? bottomY then Some this
  else
    let g := gradients t in
    let topToMiddle := newEdge g (vertexOf t (top o)) (vertexOf t (middle o)) topY in
    let topToBottom := newEdge g (vertexOf t (top o)) (vertexOf t (bottom o)) topY in
    let middleToBottom :=
      newEdge g (vertexOf t (middle o)) (vertexOf t (bottom o)) middleY in
    if middleIsRight o then
      '(this, topToBottom, _) ← RasterizeSpans this topToBottom topToMiddle
                                   topY middleY (dInvZdXInt g) sliceStartY sliceEndY;
      '(this, _, _) ← RasterizeSpans this topToBottom middleToBottom
                         middleY bottomY (dInvZdXInt g) sliceStartY sliceEndY;
      Some this
    else
      '(this, _, topToBottom) ← RasterizeSpans this topToMiddle topToBottom
                                   topY middleY (dInvZdXInt g) sliceStartY sliceEndY;
      '(this, _, _) ← RasterizeSpans this middleToBottom topToBottom
                         middleY bottomY (dInvZdXInt g) sliceStartY sliceEndY;
      Some this.

(** Lines 608-681: the indices of one bucket. *)
Fixpoint rasterizeBucket (sliceStartY sliceEndY : Z)
    (triangles : list GradientTriangle) (indices : list Z)
    (this : OcclusionBuffer) : option OcclusionBuffer :=
  match indices with
  | [] => Some this
  | idx :: rest =>
      t ← load triangles idx;
      this' ← rasterizeTriangle sliceStartY sliceEndY this t;
      rasterizeBucket sliceStartY sliceEndY triangles rest this'
  end.

(** Lines 602-682: [n] batches are left. *)
Fixpoint rasterizeBatches (n : nat) (i : Z) (sliceIdx sliceStartY sliceEndY : Z)
    (tasks : list BatchTask) (this : OcclusionBuffer) : option OcclusionBuffer :=
  match n with
  | O => Some this
  | S n' =>
      bt ← load tasks i;
      indices ← load (triangleIndices (work bt)) sliceIdx;
      this' ← rasterizeBucket sliceStartY sliceEndY (triangles (work bt))
                 indices this;
      rasterizeBatches n' (i + 1) sliceIdx sliceStartY sliceEndY tasks this'
  end.

(** Lines 684-685: [numPendingRasterizeTasks.fetch_add(-1) == 1]. *)
Definition rasterizeDone (p : Frame) : Frame :=
  let old := numPendingRasterizeTasks p in
  mkFrame (occl p) (generateTrianglesTasks p) (numPendingGenerateTasks p)
    (old - 1)
    (if old =? 1 then queued p ++ [QueueDepthHierarchy] else queued p).

(** The work of task [sliceIdx] of [rasterizeTrianglesTasks]. *)
Definition RasterizeTrianglesWork (p : Frame) (sliceIdx : Z) : option Frame :=
  rasterizeTask ← load (rasterizeTrianglesTasks (occl p)) sliceIdx;
  let sliceStartY := startY rasterizeTask in
  let sliceEndY := endY rasterizeTask in
  this ← clearRows (Z.to_nat (sliceEndY - sliceStartY)) sliceStartY (occl p);
  this ← rasterizeBatches (Z.to_nat (numTriangleBatches this)) 0 sliceIdx
           sliceStartY sliceEndY (generateTrianglesTasks p) this;
  Some (rasterizeDone (setOccl p this)).

End Frame.

(** ** The vocabulary of the specification *)

(** [ceil(n / d)], with the floor division of [Z]. *)
Definition ceilDiv (n d : Z) : Z := - ((- n) / d).

(** The rows that two slices [[startY, endY)] have in common. *)
Definition rowsShared (a b : RasterizeTrianglesTask) : Z :=
  Z.max 0 (Z.min (endY a) (endY b) - Z.max (startY a) (startY b)).

Section ReduceSpecification.
Variables srcMin srcMax : Z -> option Z.

(** [cell] bounds what the source holds at offset [o]. *)
Definition covers (cell : DepthValue) (o : Z) : Prop :=
  exists a c, srcMin o = Some a /\ srcMax o = Some c /\ dmin cell <= a /\ c <= dmax cell.

(** A level after its reduction: the cell of row [y], column [x] bounds the
    source cells of the rows [2y], [2y + 1] and the columns [2x], [2x + 1]
    that exist. *)
Definition reduced (srcWidth srcHeight mipWidth : Z) (y0 y1 : Z)
    (mip : list DepthValue) : Prop :=
  forall y x, y0 <= y < y1 -> 0 <= x < mipWidth ->
    exists cell, load mip (y * mipWidth + x) = Some cell /\
      covers cell (2 * y * srcWidth + 2 * x) /\
      covers cell (2 * y * srcWidth + 2 * x + 1) /\
      (2 * y + 1 < srcHeight ->
       covers cell ((2 * y + 1) * srcWidth + 2 * x) /\
       covers cell ((2 * y + 1) * srcWidth + 2 * x + 1)).

(** The source can be read at offset [o]. *)
Definition readable (o : Z) : Prop := is_Some (srcMin o) /\ is_Some (srcMax o).

(** Every source cell that the reduction of the rows [y0 .. y1 - 1] reads
    can be read. *)
Definition sourceReadable (srcWidth srcHeight mipWidth y0 y1 : Z) : Prop :=
  forall y x, y0 <= y < y1 -> 0 <= x < mipWidth ->
    readable (2 * y * srcWidth + 2 * x) /\
    readable (2 * y * srcWidth + 2 * x + 1) /\
    (2 * y + 1 < srcHeight ->
     readable ((2 * y + 1) * srcWidth + 2 * x) /\
     readable ((2 * y + 1) * srcWidth + 2 * x + 1)).

End ReduceSpecification.

(** The values, in row-major order, that [read] yields for the rows
    [t .. b] and the columns [l .. r] of an array with rows of [stride]
    cells; [None] when one of them is outside the array. *)
Definition coveredCells {A : Type} (read : Z -> option A)
    (stride t b l r : Z) : option (list A) :=
  @concat A <$> mapM (fun row => mapM (fun col => read (row * stride + col))
                                (seqZ l (r - l + 1)))
               (seqZ t (b - t + 1)).

(** "threshold <= cell.min" and "threshold > cell.max". *)
Definition nearerThan (z : Z) (cell : DepthValue) : bool := z <=? dmin cell.
Definition behindAll (z : Z) (cell : DepthValue) : bool := dmax cell <? z.

(** The search that the specification describes: the levels from the coarsest to the finest, each with
    its covered cells, then the covered pixels. *)
Fixpoint searchLevels (z : Z) (levels : list (list DepthValue)) (pixels : list Z)
    : bool :=
  match levels with
  | [] => existsb (fun d => z <=? d) pixels
  | cells :: finer =>
      if existsb (nearerThan z) cells then true
      else if forallb (behindAll z) cells then false
      else searchLevels z finer pixels
  end.

Section Specification.
Context `{H : Header}.

(** "each level's dimensions equal ceil(prevW/2) x ceil(prevH/2)". *)
Definition halveDims (d : Z * Z) : Z * Z := (ceilDiv d.1 2, ceilDiv d.2 2).

(** The dimensions after [k] halvings of [w] x [h]; mip level [i] is
    [levelDims w h (S i)]. *)
Definition levelDims (w h : Z) (k : nat) : Z * Z := Nat.iter k halveDims (w, h).

(** "both dimensions are <= the minimum tile size". *)
Definition fitsMinSize (d : Z * Z) : bool :=
  (d.1 <=? OCCLUSION_MIN_SIZE) && (d.2 <=? OCCLUSION_MIN_SIZE).

(** "number of halvings until both dimensions <= the minimum tile size". *)
Definition halvingsNeeded (w h : Z) (k : nat) : Prop :=
  fitsMinSize (levelDims w h k) = true /\
  forall j : nat, (j < k)%nat -> fitsMinSize (levelDims w h j) = false.

(** What [new DepthValue[w * h]] yields for a level of dimensions [d]. *)
Definition levelCells (d : Z * Z) : list DepthValue :=
  newArray (d.1 * d.2) (mkDepthValue 0 0).

(** "mip chain length = number of halvings ...; each level's dimensions
    equal ceil(prevW/2) x ceil(prevH/2)", for the chain of [this] after
    [SetSize(w, h)]. *)
Definition mipChainAsClaimed (this : OcclusionBuffer) (w h : Z) : Prop :=
  halvingsNeeded w h (length (mipBuffers this)) /\
  forall (i : nat) (mip : list DepthValue),
    mipBuffers this !! i = Some mip ->
    length mip = Z.to_nat ((levelDims w h (S i)).1 * (levelDims w h (S i)).2).

(** "slice height = ceil(height/SLICE_COUNT)+1", for the active slices. *)
Definition sliceHeightsAsClaimed (this : OcclusionBuffer) (h : Z) : Prop :=
  forall (i : Z) (t : RasterizeTrianglesTask),
    0 <= i < activeSlices this ->
    load (rasterizeTrianglesTasks this) i = Some t ->
    endY t - startY t = ceilDiv h OCCLUSION_BUFFER_SLICES + 1.

(** "adjacent slices overlap by one row". *)
Definition slicesOverlapByOne (this : OcclusionBuffer) : Prop :=
  forall (i : Z) (t u : RasterizeTrianglesTask),
    0 <= i -> i + 1 < activeSlices this ->
    load (rasterizeTrianglesTasks this) i = Some t ->
    load (rasterizeTrianglesTasks this) (i + 1) = Some u ->
    rowsShared t u = 1.

(** The slices as [SetSize] lays them out: contiguous, disjoint ranges of
    at most [sliceHeight] rows that tile the rows [0 .. h - 1]. *)
Definition slicesTile (this : OcclusionBuffer) (h : Z) : Prop :=
  sliceHeight this = h / OCCLUSION_BUFFER_SLICES + 1 /\
  1 <= activeSlices this <= OCCLUSION_BUFFER_SLICES /\
  (forall i, 0 <= i < activeSlices this ->
     exists t, load (rasterizeTrianglesTasks this) i = Some t /\
       startY t = i * sliceHeight this /\
       endY t = (if i + 1 <? activeSlices this
                 then (i + 1) * sliceHeight this else h) /\
       startY t < endY t <= startY t + sliceHeight this) /\
  (forall i t u, 0 <= i -> i + 1 < activeSlices this ->
     load (rasterizeTrianglesTasks this) i = Some t ->
     load (rasterizeTrianglesTasks this) (i + 1) = Some u ->
     endY t = startY u /\ rowsShared t u = 0).

(** The mip chain as [SetSize] allocates it: the levels of the halving
    sequence up to the first one, from the first halving on, that fits. *)
Definition mipChainHalved (this : OcclusionBuffer) (w h : Z) : Prop :=
  (1 <= length (mipBuffers this))%nat /\
  fitsMinSize (levelDims w h (length (mipBuffers this))) = true /\
  (forall j : nat, (1 <= j < length (mipBuffers this))%nat ->
     fitsMinSize (levelDims w h j) = false) /\
  (forall (i : nat) (mip : list DepthValue),
     mipBuffers this !! i = Some mip ->
     length mip = Z.to_nat ((levelDims w h (S i)).1 * (levelDims w h (S i)).2)).

(** A candidate triangle of the clipper: three homogeneous vertices. *)
Definition Triangle : Type := Vector4 * Vector4 * Vector4.

(** The triangle in slot [i] of the vertex array. *)
Definition triangleAt (vs : list Vector4) (i : Z) : option Triangle :=
  v0 ← load vs (i * 3); v1 ← load vs (i * 3 + 1); v2 ← load vs (i * 3 + 2);
  Some (v0, v1, v2).

(** "counting vertices with negative signed distance to the plane". *)
Definition behindCount (plane : Vector4) (t : Triangle) : nat :=
  let '(v0, v1, v2) := t in
  (Nat.b2n (behind (DotProduct plane v0)) + Nat.b2n (behind (DotProduct plane v1))
   + Nat.b2n (behind (DotProduct plane v2)))%nat.

(** "3 negative -> discarded; 2 negative -> clipped in place; 1 negative ->
    one in place, one appended"; none negative: the triangle stays. *)
Definition outputCount (negative : nat) : nat :=
  match negative with
  | 0 => 1
  | 1 => 2
  | 2 => 1
  | _ => 0
  end%nat.

(** The polygon that clipping the triangle against the plane leaves, by
    walking its edges in order (Sutherland-Hodgman): a vertex in front is
    kept, and an edge that crosses the plane contributes its intersection,
    computed from the vertex behind. *)
Definition clipEdgeOut (plane p q : Vector4) : list Vector4 :=
  let dp := DotProduct plane p in
  let dq := DotProduct plane q in
  match behind dp, behind dq with
  | false, false => [p]
  | false, true => [p; ClipEdge q p dq dp]
  | true, false => [ClipEdge p q dp dq]
  | true, true => []
  end.

Definition clipPolygon (plane : Vector4) (t : Triangle) : list Vector4 :=
  let '(v0, v1, v2) := t in
  clipEdgeOut plane v0 v1 ++ clipEdgeOut plane v1 v2 ++ clipEdgeOut plane v2 v0.

(** [t] lists three vertices of [poly] in the order in which [poly] lists
    them, up to rotation of [t]: same orientation. *)
Definition keepsWinding (t : Triangle) (poly : list Vector4) : Prop :=
  let '(a, b, c) := t in
  sublist [a; b; c] poly \/ sublist [b; c; a] poly \/ sublist [c; a; b] poly.

(** The triangles that a plane pass makes of the candidate [t]: the first
    is written over the candidate, the second is appended. *)
Definition clipOutputs (plane : Vector4) (t : Triangle) : list Triangle :=
  let '(v0, v1, v2) := t in
  let d0 := DotProduct plane v0 in
  let d1 := DotProduct plane v1 in
  let d2 := DotProduct plane v2 in
  match behind d0, behind d1, behind d2 with
  | true, true, true => []
  | true, true, false => [(ClipEdge v0 v2 d0 d2, ClipEdge v1 v2 d1 d2, v2)]
  | true, false, true => [(ClipEdge v0 v1 d0 d1, v1, ClipEdge v2 v1 d2 d1)]
  | false, true, true => [(v0, ClipEdge v1 v0 d1 d0, ClipEdge v2 v0 d2 d0)]
  | true, false, false =>
      [(ClipEdge v0 v1 d0 d1, v1, v2);
       (ClipEdge v0 v2 d0 d2, ClipEdge v0 v1 d0 d1, v2)]
  | false, true, false =>
      [(v0, ClipEdge v1 v2 d1 d2, v2);
       (v0, ClipEdge v1 v0 d1 d0, ClipEdge v1 v2 d1 d2)]
  | false, false, true =>
      [(v0, v1, ClipEdge v2 v0 d2 d0);
       (ClipEdge v2 v0 d2 d0, v1, ClipEdge v2 v1 d2 d1)]
  | false, false, false => [(v0, v1, v2)]
  end.

(** Slot [j] is active and holds [t]. *)
Definition slotHolds (st : ClipState) (j : Z) (t : Triangle) : Prop :=
  load (clipTriangles st) j = Some true /\ triangleAt (clipVerts st) j = Some t.

(** What one step of the pass did for candidate [i]: its outputs are in
    slot [i] and in the first free slot, and no other slot has changed. *)
Definition clipProduces (st st' : ClipState) (i : Z) (outs : list Triangle) : Prop :=
  match outs with
  | [] => load (clipTriangles st') i = Some false /\
          numClipTriangles st' = numClipTriangles st
  | [t] => slotHolds st' i t /\ numClipTriangles st' = numClipTriangles st
  | [t; u] => slotHolds st' i t /\ slotHolds st' (numClipTriangles st) u /\
              numClipTriangles st' = numClipTriangles st + 1
  | _ => False
  end /\
  forall j, j <> i -> (j = numClipTriangles st -> length outs <> 2%nat) ->
    load (clipTriangles st') j = load (clipTriangles st) j /\
    triangleAt (clipVerts st') j = triangleAt (clipVerts st) j.

(** Candidate [j] of a pass over [st] is active and has exactly one vertex
    behind the plane: the candidates that append a triangle. *)
Definition appends (plane : Vector4) (st : ClipState) (j : Z) : bool :=
  match load (clipTriangles st) j, triangleAt (clipVerts st) j with
  | Some true, Some t => Nat.eqb (behindCount plane t) 1
  | _, _ => false
  end.

(** The number of triangles that the candidates below [i] append. *)
Fixpoint appendedBelow (plane : Vector4) (st : ClipState) (i : nat) : Z :=
  match i with
  | O => 0
  | S k => appendedBelow plane st k
           + (if appends plane st (Z.of_nat k) then 1 else 0)
  end.

(** What a pass over [st] has made in [s] of candidate [i], which held [t]
    on entry: no triangle, one triangle in its slot, or one in its slot and
    one in the slot after those that the pass had appended before it. *)
Definition candidateOutputs (plane : Vector4) (st s : ClipState) (i : Z)
    (t : Triangle) : Prop :=
  match clipOutputs plane t with
  | [] => load (clipTriangles s) i = Some false
  | [u] => slotHolds s i u
  | [u; v] =>
      slotHolds s i u /\
      slotHolds s (numClipTriangles st + appendedBelow plane st (Z.to_nat i)) v /\
      numClipTriangles st + appendedBelow plane st (Z.to_nat i) < numClipTriangles s
  | _ => False
  end.

(** The state [s] after the first [k] candidates of a pass over [st]. *)
Definition passDone (plane : Vector4) (st : ClipState) (k : nat) (s : ClipState)
    : Prop :=
  numClipTriangles s = numClipTriangles st + appendedBelow plane st k /\
  (forall i t, 0 <= i < Z.of_nat k -> slotHolds st i t ->
     candidateOutputs plane st s i t) /\
  (forall i, 0 <= i < Z.of_nat k -> load (clipTriangles st) i = Some false ->
     load (clipTriangles s) i = Some false) /\
  (forall j, Z.of_nat k <= j < numClipTriangles st \/ numClipTriangles s <= j ->
     load (clipTriangles s) j = load (clipTriangles st) j /\
     triangleAt (clipVerts s) j = triangleAt (clipVerts st) j).

(** The test of line 372 (fully inside path) and the test of line 422
    (clipped path) for slice [i]. *)
Definition insideSlice (this : OcclusionBuffer) (minY maxY i : Z) : bool :=
  (minY <? Min (height this) (i * sliceHeight this + sliceHeight this))
  && (maxY >? i * sliceHeight this).

Definition clippedSlice (this : OcclusionBuffer) (minY maxY i : Z) : bool :=
  (minY <? i * sliceHeight this + sliceHeight this)
  && (maxY >=? i * sliceHeight this).


(** The buckets after [idx] was pushed to the active slices that [test]
    selects. *)
Definition pushedWhere (this : OcclusionBuffer) (test : Z -> bool) (idx : Z)
    (before after : list (list Z)) : Prop :=
  length after = length before /\
  forall (j : Z) (b : list Z),
    load before j = Some b ->
    load after j
    = Some (if (j <? activeSlices this) && test j then b ++ [idx] else b).

(** The test that the copy of the code for the clipped path
    ([clipped = true]) or for the fully inside path applies. *)
Definition sliceTest (clipped : bool) (this : OcclusionBuffer)
    (minY maxY : Z) : Z -> bool :=
  if clipped then clippedSlice this minY maxY else insideSlice this minY maxY.


(** Level [N] bounds the pixels: the cell in row [y], column [x] exists,
    and its [min] and [max] enclose every pixel of the buffer whose
    coordinates shifted right by [N + 1] are [(x, y)]. *)
Definition cellBounds (this : OcclusionBuffer) (N : nat) (mip : list DepthValue) : Prop :=
  let W := (levelDims (width this) (height this) (S N)).1 in
  let Hh := (levelDims (width this) (height this) (S N)).2 in
  forall x y, 0 <= x < W -> 0 <= y < Hh ->
    exists cell, load mip (y * W + x) = Some cell /\
      forall px py d, 0 <= px < width this -> 0 <= py < height this ->
        Z.shiftr px (Z.of_nat (S N)) = x -> Z.shiftr py (Z.of_nat (S N)) = y ->
        readBuffer this (py * width this + px) = Some d ->
        dmin cell <= d <= dmax cell.

(** "the pyramid is conservative at every resolution": every level of
    [this'] bounds the pixels of [this]. *)
Definition conservative (this this' : OcclusionBuffer) : Prop :=
  forall (N : nat) (mip : list DepthValue),
    mipBuffers this' !! N = Some mip -> cellBounds this N mip.

(** Every level has the cells of its dimensions. *)
Definition levelSized (this : OcclusionBuffer) (mips : list (list DepthValue)) : Prop :=
  forall (i : nat) (mip : list DepthValue),
    mips !! i = Some mip ->
    length mip = Z.to_nat ((levelDims (width this) (height this) (S i)).1
                           * (levelDims (width this) (height this) (S i)).2).

(** The allocations are those that [SetSize] makes for the stored size. *)
Definition sized (this : OcclusionBuffer) : Prop :=
  0 < width this /\ 0 < height this /\
  buffer this = Some (width this + 1) /\
  length (fullBuffer this) = Z.to_nat (width this * (height this + 2) + 2) /\
  (1 <= length (mipBuffers this))%nat /\
  levelSized this (mipBuffers this).

(** Every level but the last has an even width (a level is reduced from
    pairs of columns of the level before it). *)
Definition evenLevels (this : OcclusionBuffer) : Prop :=
  forall i : nat, (S i < length (mipBuffers this))%nat ->
    Z.even (levelDims (width this) (height this) (S i)).1 = true.

(** The cells of mip level [i] that the rectangle covers: the rows
    [top >> (i + 1) .. bottom >> (i + 1)] and the columns
    [left >> (i + 1) .. right >> (i + 1)] of the level, whose rows have the
    width that [SetSize] gave it. *)
Definition levelCellsIn (this : OcclusionBuffer) (rect : IntRect) (i : nat)
    : option (list DepthValue) :=
  let s := Z.of_nat (S i) in
  mip ← mipBuffers this !! i;
  coveredCells (load mip) (levelDims (width this) (height this) (S i)).1
    (Z.shiftr (IntRect.top rect) s) (Z.shiftr (IntRect.bottom rect) s)
    (Z.shiftr (IntRect.left rect) s) (Z.shiftr (IntRect.right rect) s).

(** The covered cells of the levels [n - 1] down to [0]. *)
Fixpoint coveredLevels (this : OcclusionBuffer) (rect : IntRect) (n : nat)
    : option (list (list DepthValue)) :=
  match n with
  | O => Some []
  | S i =>
      cells ← levelCellsIn this rect i;
      finer ← coveredLevels this rect i;
      Some (cells :: finer)
  end.

(** The pixels of the depth buffer that the rectangle covers. *)
Definition coveredPixels (this : OcclusionBuffer) (rect : IntRect)
    : option (list Z) :=
  coveredCells (readBuffer this) (width this)
    (IntRect.top rect) (IntRect.bottom rect)
    (IntRect.left rect) (IntRect.right rect).

(** What makes the loops of [searchDepth] advance and end for the first [n]
    levels: each level's rows have the stride that line 258 computes, and
    the fuel covers the rows of the rectangle. *)
Definition strideOk (fuel : nat) (this : OcclusionBuffer) (rect : IntRect)
    (n : nat) : Prop :=
  0 < width this /\
  Z.max 0 (IntRect.bottom rect - IntRect.top rect + 1) < Z.of_nat fuel /\
  forall i : nat, (i < n)%nat ->
    0 < Z.shiftr (width this) (Z.of_nat (S i)) /\
    Z.shiftr (width this) (Z.of_nat (S i))
    = (levelDims (width this) (height this) (S i)).1 /\
    Z.max 0 (Z.shiftr (IntRect.bottom rect) (Z.of_nat (S i))
             - Z.shiftr (IntRect.top rect) (Z.of_nat (S i)) + 1)
    < Z.of_nat fuel.

(** The rectangle after the clipping of lines 242-249. *)
Definition clamped (this : OcclusionBuffer) (rect : IntRect) : Prop :=
  0 <= IntRect.left rect /\ 0 <= IntRect.top rect /\
  IntRect.right rect < width this /\ IntRect.bottom rect < height this.

(** The tests of lines 322-333 by plane: [x > w], [x < -w], [y > w],
    [y < -w], [z > w], [z < 0]. *)
Definition outside (k : nat) (v : Vector4) : bool :=
  match k with
  | 0%nat => f_gt (Vector4.x v) (Vector4.w v)
  | 1%nat => f_lt (Vector4.x v) (f_neg (Vector4.w v))
  | 2%nat => f_gt (Vector4.y v) (Vector4.w v)
  | 3%nat => f_lt (Vector4.y v) (f_neg (Vector4.w v))
  | 4%nat => f_gt (Vector4.z v) (Vector4.w v)
  | 5%nat => f_lt (Vector4.z v) f_zero
  | _ => false
  end.

(** Every index of every bucket is the index of a triangle of the batch,
    and every bucket is strictly increasing. *)
Definition bucketOk (n : nat) (b : list Z) : Prop :=
  Forall (fun idx => 0 <= idx < Z.of_nat n) b /\ StronglySorted Z.lt b.

Definition indicesValid (task : GenerateTrianglesTask) : Prop :=
  Forall (bucketOk (length (triangles task))) (triangleIndices task).

(** [task'] is [task] with the triangles [new] appended; every bucket
    gained indices of new triangles only, in increasing order. *)
Definition extends (task task' : GenerateTrianglesTask)
    (new : list GradientTriangle) : Prop :=
  triangles task' = triangles task ++ new /\
  length (triangleIndices task') = length (triangleIndices task) /\
  forall j b, load (triangleIndices task) j = Some b ->
    exists extra,
      load (triangleIndices task') j = Some (b ++ extra) /\
      StronglySorted Z.lt extra /\
      Forall (fun idx => Z.of_nat (length (triangles task)) <= idx
                         < Z.of_nat (length (triangles task) + length new)) extra.

(** The rectangle holds a pixel. *)
Definition proper (rect : IntRect) : Prop :=
  IntRect.left rect <= IntRect.right rect /\
  IntRect.top rect <= IntRect.bottom rect.

(** The levels that are counted as ready bound the pixels that the buffer
    holds now. *)
Definition hierarchyOk (this : OcclusionBuffer) : Prop :=
  forall (N : nat) (mip : list DepthValue),
    Z.of_nat N < numReadyMipBuffers this ->
    mipBuffers this !! N = Some mip -> cellBounds this N mip.

(** The exhaustive test: some pixel of the rectangle is at least as far as
    [z]. *)
Definition anyPixelBehind (z : Z) (pixels : list Z) : bool :=
  existsb (fun d => z <=? d) pixels.

(** Two vertex arrays of one length that hold the same vertices at the
    offsets in [P]. *)
Definition agreeOn (P : Z -> Prop) (vs vs' : list Vector4) : Prop :=
  length vs = length vs' /\ forall j, P j -> load vs j = load vs' j.

(** Two states of the clipper that differ only in vertices of slots that no
    candidate uses. *)
Definition sameCandidates (st st' : ClipState) : Prop :=
  numClipTriangles st = numClipTriangles st' /\
  clipTriangles st = clipTriangles st' /\
  agreeOn (fun j => 0 <= j < 3 * numClipTriangles st) (clipVerts st) (clipVerts st').

End Specification.

Section FrameSpecification.
Context `{F : FrameHeader}.

(** The triangles of a batch as [GenerateTrianglesWork] reads them: without
    indices the [drawCount / 3] whole runs of three vertices, with indices
    the [ceil(drawCount / 3)] runs of three indices from the first on. *)
Definition plainTriangle (b : TriangleDrawBatch) (k : Z)
    : option (Vector3 * Vector3 * Vector3) :=
  v0 ← load (vertexData b) (3 * k);
  v1 ← load (vertexData b) (3 * k + 1);
  v2 ← load (vertexData b) (3 * k + 2);
  Some (v0, v1, v2).

Definition indexedTriangle (b : TriangleDrawBatch) (idata : list Z) (k : Z)
    : option (Vector3 * Vector3 * Vector3) :=
  i0 ← load idata (3 * k);
  i1 ← load idata (3 * k + 1);
  i2 ← load idata (3 * k + 2);
  v0 ← load (vertexData b) i0;
  v1 ← load (vertexData b) i1;
  v2 ← load (vertexData b) i2;
  Some (v0, v1, v2).

Definition batchTriangles (b : TriangleDrawBatch)
    : option (list (Vector3 * Vector3 * Vector3)) :=
  match indexData b with
  | None => mapM (plainTriangle b) (seqZ 0 (drawCount b / 3))
  | Some idata => mapM (indexedTriangle b idata) (seqZ 0 (ceilDiv (drawCount b) 3))
  end.

(** [AddTriangle] on each triangle in turn, each in an array whose other
    slots are zero. *)
Definition triangleArray (modelViewProj : Matrix4)
    (t : Vector3 * Vector3 * Vector3) : list Vector4 :=
  let '(v0, v1, v2) := t in
  [ModelTransform modelViewProj v0; ModelTransform modelViewProj v1;
   ModelTransform modelViewProj v2]
  ++ replicate 189 (Vector4.make f_zero f_zero f_zero f_zero).

Fixpoint addAll (this : OcclusionBuffer) (modelViewProj : Matrix4)
    (ts : list (Vector3 * Vector3 * Vector3)) (task : GenerateTrianglesTask)
    : option GenerateTrianglesTask :=
  match ts with
  | [] => Some task
  | t :: ts' =>
      task' ← AddTriangle this task (triangleArray modelViewProj t);
      addAll this modelViewProj ts' task'
  end.

(** The buckets of the slices [0 .. n - 1] hold indices of triangles of the
    batch, in increasing order. *)
Definition activeValid (n : Z) (task : GenerateTrianglesTask) : Prop :=
  forall j, 0 <= j < n ->
    exists b, load (triangleIndices task) j = Some b /\
      bucketOk (length (triangles task)) b.

(** [vertices[k].y] for the three heights. *)
Definition heightAt (y0 y1 y2 : float) (k : Z) : float :=
  if k =? 0 then y0 else if k =? 1 then y1 else y2.

(** The object with other contents in the allocation of the depth
    buffer. *)
Definition setPixels (this : OcclusionBuffer) (pixels : list Z) : OcclusionBuffer :=
  mkOcclusionBuffer pixels (buffer this) (width this) (height this)
    (sliceHeight this) (activeSlices this) (rasterizeTrianglesTasks this)
    (mipBuffers this) (numTriangleBatches this) (numReadyMipBuffers this)
    (viewProj this) (scaleX this) (scaleY this) (offsetX this) (offsetY this).

(** [this'] is [this] with the pixels at the offsets [lo .. hi - 1] from
    [buffer] set to the clear value, and nothing else changed. *)
Definition clearedBetween (lo hi : Z) (this this' : OcclusionBuffer) : Prop :=
  this' = setPixels this (fullBuffer this') /\
  length (fullBuffer this') = length (fullBuffer this) /\
  forall i, readBuffer this' i
            = if bool_decide (lo <= i < hi) then Some (f_to_int OCCLUSION_Z_SCALE)
              else readBuffer this i.

(** The batches in use are tasks of the object, and every task has a
    bucket for every active slice. *)
Definition batchesOk (p : Frame) : Prop :=
  0 <= numTriangleBatches (occl p)
  <= Z.of_nat (length (generateTrianglesTasks p)) /\
  0 <= activeSlices (occl p) <= OCCLUSION_BUFFER_SLICES /\
  Forall (fun bt => activeSlices (occl p)
                    <= Z.of_nat (length (triangleIndices (work bt))))
    (generateTrianglesTasks p).

(** [p'] is [p] after [AddTriangles] filled the task [bt]: the task is the
    one at the old count, its lists are empty for the active slices, one
    batch more is in use, and a task was appended only when every task was
    in use. *)
Definition batchAdded (p p' : Frame) (bt : BatchTask) : Prop :=
  occl p' = setBatches (occl p) (numTriangleBatches (occl p) + 1) /\
  numPendingGenerateTasks p' = numPendingGenerateTasks p /\
  numPendingRasterizeTasks p' = numPendingRasterizeTasks p /\
  queued p' = queued p /\
  Z.of_nat (length (generateTrianglesTasks p'))
  = Z.max (Z.of_nat (length (generateTrianglesTasks p)))
      (numTriangleBatches (occl p) + 1) /\
  load (generateTrianglesTasks p') (numTriangleBatches (occl p)) = Some bt /\
  triangles (work bt) = [] /\
  (forall j, 0 <= j < activeSlices (occl p) ->
     load (triangleIndices (work bt)) j = Some []) /\
  (forall j, j <> numTriangleBatches (occl p) ->
     load (generateTrianglesTasks p') j = load (generateTrianglesTasks p) j).

(** The tasks of a phase run one after the other, in any order. *)
Fixpoint runGenerate (fuel : nat) (vertices : list Vector4) (tasks : list Z)
    (p : Frame) : option Frame :=
  match tasks with
  | [] => Some p
  | i :: rest =>
      p' ← GenerateTrianglesWork fuel p i vertices;
      runGenerate fuel vertices rest p'
  end.

Fixpoint runRasterize (slices : list Z) (p : Frame) : option Frame :=
  match slices with
  | [] => Some p
  | j :: rest => p' ← RasterizeTrianglesWork p j; runRasterize rest p'
  end.

End FrameSpecification.

(** The loop that both bucket loops of [AddTriangle] instantiate. *)
Fixpoint bucketWhere (test : Z -> bool) (idx : Z) (n : nat) (i : Z)
    (buckets : list (list Z)) : option (list (list Z)) :=
  match n with
  | O => Some buckets
  | S n' =>
      buckets' ← (if test i then pushIndex buckets i idx else Some buckets);
      bucketWhere test idx n' (i + 1) buckets'
  end.

(** ** An instance to run the definitions on *)

(** Modelled from the spec: the arithmetic and the helpers of the headers,
    which are not among the translated sources, with exact rationals in
    place of single-precision floats.  The theorems below hold for every
    instance; this one only serves to evaluate the definitions at concrete
    inputs. *)
Definition Qtrunc (q : Q) : Z := Qnum q ÷ Z.pos (Qden q).

Definition Qltb (a b : Q) : bool := negb (Qle_bool b a).

Definition ExactFloat : FloatOps := {|
  float := Q;
  f_zero := 0%Q;
  f_one := 1%Q;
  f_neg_one := (-1)%Q;
  f_half := (1 # 2)%Q;
  f_neg_half := (-1 # 2)%Q;
  f_one_half := (3 # 2)%Q;
  f_add := fun a b => Qred (a + b)%Q;
  f_sub := fun a b => Qred (a - b)%Q;
  f_mul := fun a b => Qred (a * b)%Q;
  f_neg := fun a => Qred (- a)%Q;
  f_lt := Qltb;
  f_le := Qle_bool;
  f_of_int := inject_Z;
  f_to_int := Qtrunc
|}.

Definition qv3 (x y z : Q) : @Vector3 ExactFloat := @Vector3.make ExactFloat x y z.
Definition qv4 (x y z w : Q) : @Vector4 ExactFloat := @Vector4.make ExactFloat x y z w.

(** Modelled from the spec: "maps projected clip-space x/y in [-1,1] to
    pixel coordinates with a half-pixel offset"; depth is scaled by
    [OCCLUSION_Z_SCALE], taken as 2^24. *)
Definition exactViewport (sx sy ox oy : Q) (v : @Vector4 ExactFloat)
    : @Vector3 ExactFloat :=
  let invW := (1 / Vector4.w v)%Q in
  qv3 (Qred (invW * Vector4.x v * sx + ox)%Q)
      (Qred (invW * Vector4.y v * sy + oy)%Q)
      (Qred (invW * Vector4.z v * inject_Z 16777216)%Q).

(** Modelled from the spec: "the clipped point is the linear interpolation
    of position (homogeneous) at t", with [t = d0 / (d0 - d1)]. *)
Definition exactClipEdge (v0 v1 : @Vector4 ExactFloat) (d0 d1 : Q)
    : @Vector4 ExactFloat :=
  let t := (d0 / (d0 - d1))%Q in
  let lerp (a b : Q) := Qred (a + t * (b - a))%Q in
  qv4 (lerp (Vector4.x v0) (Vector4.x v1)) (lerp (Vector4.y v0) (Vector4.y v1))
      (lerp (Vector4.z v0) (Vector4.z v1)) (lerp (Vector4.w v0) (Vector4.w v1)).

(** Modelled from the spec: "backface-culled using the signed area of its
    projected 2D vertices". *)
Definition exactCheckFacing (v0 v1 v2 : @Vector3 ExactFloat) : bool :=
  let aX := (Vector3.x v0 - Vector3.x v1)%Q in
  let aY := (Vector3.y v0 - Vector3.y v1)%Q in
  let bX := (Vector3.x v2 - Vector3.x v1)%Q in
  let bY := (Vector3.y v2 - Vector3.y v1)%Q in
  Qltb (aX * bY - aY * bX)%Q 0%Q.

Definition exactDot (a b : @Vector4 ExactFloat) : Q :=
  Qred (Vector4.x a * Vector4.x b + Vector4.y a * Vector4.y b
        + Vector4.z a * Vector4.z b + Vector4.w a * Vector4.w b)%Q.

(** Modelled from the spec: "width is not a power of two" is refused; a
    power of two is a positive number with a single bit set. *)
Definition exactIsPowerOfTwo (value : Z) : bool :=
  (0 <? value) && (Z.land value (value - 1) =? 0).

(** The camera of the instance looks down the z axis with no perspective:
    a point [(x, y, z)] has clip coordinates [(x, y, z, 1)].  Its allocator
    gives arrays of up to [2 ^ 24] elements. *)
Definition ExactHeader : @Header ExactFloat := {|
  OCCLUSION_MIN_SIZE := 8;
  OCCLUSION_BUFFER_SLICES := 8;
  IsPowerOfTwo := exactIsPowerOfTwo;
  allocates := fun n => n <=? 16777216;
  Matrix4 := unit;
  Gradients := unit;
  ModelTransform := fun _ (v : @Vector3 ExactFloat) =>
                      qv4 (Vector3.x v) (Vector3.y v) (Vector3.z v) 1%Q;
  ViewportTransform := exactViewport;
  CheckFacing := exactCheckFacing;
  ClipEdge := exactClipEdge;
  DotProduct := exactDot;
  Calculate := fun _ _ _ => tt
|}.

(** An object as the constructor leaves it ([width], [height] and the
    counters are zero, [buffer] is null), with the slice tasks the
    constructor creates; the members the constructor does not initialise are
    given zeros. *)
Definition newOcclusionBuffer `{Header} (vp : Matrix4) : OcclusionBuffer :=
  mkOcclusionBuffer [] None 0 0 0 0
    (replicate (Z.to_nat OCCLUSION_BUFFER_SLICES) (mkRasterTask 0 0))
    [] 0 0 vp f_zero f_zero f_zero f_zero.

(** The object of the instance after its constructor. *)
Definition freshBuffer : @OcclusionBuffer _ ExactHeader :=
  @newOcclusionBuffer _ ExactHeader tt.

(** An object sized 4 x 4 by the resizing path of [SetSize]. *)
Definition sized4x4 : option (@OcclusionBuffer _ ExactHeader) :=
  resize 8 freshBuffer 4 4.

(** The same object, as a value. *)
Definition buffer4x4 : @OcclusionBuffer _ ExactHeader :=
    match sized4x4 with
    | Some this => this
    | None => freshBuffer
    end.

(** The objects that [SetSize(8, 13)], [SetSize(8, 12)] and
    [SetSize(2, 2)] leave. *)
Definition buffer8x13 : @OcclusionBuffer _ ExactHeader :=
    match SetSize 8 buffer4x4 8 13 with
    | Some (_, this) => this
    | None => buffer4x4
    end.

Definition buffer8x12 : @OcclusionBuffer _ ExactHeader :=
    match SetSize 8 buffer4x4 8 12 with
    | Some (_, this) => this
    | None => buffer4x4
    end.

Definition buffer2x2 : @OcclusionBuffer _ ExactHeader :=
    match SetSize 8 buffer4x4 2 2 with
    | Some (_, this) => this
    | None => buffer4x4
    end.

(** The 4 x 4 object after one batch was drawn, every pixel at depth 100. *)
Definition frame4x4 : @OcclusionBuffer _ ExactHeader :=
  withFrame buffer4x4 1 (replicate 26 100).

(** The 4 x 4 object after a frame that left pixel [k] of the allocation
    at depth [k], and the object after the hierarchy was built on it. *)
Definition ramp4x4 : @OcclusionBuffer _ ExactHeader :=
  withFrame buffer4x4 1 (seqZ 0 26).

Definition built4x4 : @OcclusionBuffer _ ExactHeader :=
  match BuildDepthHierarchyWork ramp4x4 with
  | Some this => this
  | None => ramp4x4
  end.

(** A box that reaches behind the camera of the instance, and one in front
    of it. *)
Definition boxBehind : @BoundingBox ExactFloat :=
  mkBox (qv3 0 0 (-1)) (qv3 1 1 1).

(** A batch with no triangle yet, and the caller's vertex array holding
    one triangle. *)
Definition emptyTask : @GenerateTrianglesTask _ ExactHeader :=
  mkGenTask [] (replicate 8 []).

Definition vertexArray (a b c : @Vector4 ExactFloat) : list (@Vector4 ExactFloat) :=
  [a; b; c] ++ replicate 189 (qv4 0 0 0 0).


Definition crossingTriangle : list (@Vector4 ExactFloat) :=
  vertexArray (qv4 0 (11 # 13) (1 # 2) 1) (qv4 (3 # 2) (9 # 13) (1 # 2) 1)
    (qv4 (-1 # 2) (9 # 13) (1 # 2) 1).

(** The crossing triangle in an array whose other slots hold what an
    earlier triangle left. *)
Definition crossingLeftovers : list (@Vector4 ExactFloat) :=
  [qv4 0 (11 # 13) (1 # 2) 1; qv4 (3 # 2) (9 # 13) (1 # 2) 1;
   qv4 (-1 # 2) (9 # 13) (1 # 2) 1] ++ replicate 189 (qv4 7 (-3) 2 1).

(** A triangle to the right of the plane [x = w]. *)
Definition outsideTriangle : list (@Vector4 ExactFloat) :=
  vertexArray (qv4 2 0 (1 # 2) 1) (qv4 3 0 (1 # 2) 1) (qv4 2 1 (1 # 2) 1).

(** The batch after [AddTriangle] on the crossing triangle. *)
Definition clippedTask : @GenerateTrianglesTask _ ExactHeader :=
  match AddTriangle buffer8x13 emptyTask crossingTriangle with
  | Some task => task
  | None => emptyTask
  end.

(** The clipper's state on entry for the crossing triangle, and the plane
    [x = w] as [AddTriangle] passes it. *)
Definition clipStart : @ClipState ExactFloat :=
  mkClipState crossingTriangle (<[0%nat := true]> (replicate 64 false)) 1.

Definition planeXPos : @Vector4 ExactFloat := qv4 (-1) 0 0 1.

Definition crossing : @Triangle ExactFloat :=
  (qv4 0 (11 # 13) (1 # 2) 1, qv4 (3 # 2) (9 # 13) (1 # 2) 1,
   qv4 (-1 # 2) (9 # 13) (1 # 2) 1).

(** The object that [SetSize(1, 16)] leaves, the object after a frame that
    left every pixel at depth 100, and that object after the hierarchy was
    built. *)
Definition narrow1x16 : @OcclusionBuffer _ ExactHeader :=
    match SetSize 8 buffer4x4 1 16 with
    | Some (_, this) => this
    | None => buffer4x4
    end.

Definition narrowFrame : @OcclusionBuffer _ ExactHeader :=
  withFrame narrow1x16 1 (replicate 20 100).

Definition narrowBuilt : @OcclusionBuffer _ ExactHeader :=
  match BuildDepthHierarchyWork narrowFrame with
  | Some this => this
  | None => narrowFrame
  end.

(** A box in front of the camera of the instance, and one close to it:
    their projected depths are 16777216 and 16. *)
Definition boxFront : @BoundingBox ExactFloat :=
  mkBox (qv3 (-1) (-1) 1) (qv3 1 1 2).

Definition boxNear : @BoundingBox ExactFloat :=
  mkBox (qv3 (-1) (-1) (1 # 1048576)) (qv3 1 1 2).

(** The 8 x 13 object after a frame that left pixel [k] of the allocation
    at depth [k], the object after the hierarchy was built on it, and the
    extents of the box in front of the camera on it. *)
Definition ramp8x13 : @OcclusionBuffer _ ExactHeader :=
  withFrame buffer8x13 1 (seqZ 0 122).

Definition built8x13 : @OcclusionBuffer _ ExactHeader :=
  match BuildDepthHierarchyWork ramp8x13 with
  | Some this => this
  | None => ramp8x13
  end.

Definition extentsNear : @Extents ExactFloat :=
  match projectCorners built4x4 (clipCorners built4x4 boxNear) with
  | Next e => e
  | Return _ => @mkExtents ExactFloat 0%Q 0%Q 0%Q 0%Q 0%Q
  end.

Definition extentsFront : @Extents ExactFloat :=
  match projectCorners built8x13 (clipCorners built8x13 boxFront) with
  | Next e => e
  | Return _ => @mkExtents ExactFloat 0%Q 0%Q 0%Q 0%Q 0%Q
  end.

(** An instance of the rest of the headers, to evaluate the frame pipeline
    on: matrices are trivial, and its [RasterizeSpans] draws nothing.  The
    theorems hold for every instance. *)
Definition ExactFrame : @FrameHeader ExactFloat ExactHeader := {|
  OCCLUSION_Z_SCALE := (inject_Z 16777216 : @float ExactFloat);
  Matrix3x4 := unit;
  mulTransform := fun m _ => m;
  Edge := unit;
  newEdge := fun _ _ _ _ => tt;
  dInvZdXInt := fun _ => 0;
  RasterizeSpans := fun this _ _ _ _ _ _ _ => Some (this, tt, tt)
|}.

(** A batch that is not initialised, the 8 x 13 object with no task yet,
    the crossing triangle as three model vertices, and the object after
    [AddTriangles] of these vertices. *)
Definition blankBatch : @TriangleDrawBatch _ _ ExactFrame :=
  @mkBatch _ _ ExactFrame tt [] 0 None 0 0.

Definition frame0 : @Frame _ _ ExactFrame :=
  @mkFrame _ _ ExactFrame buffer8x13 [] 0 0 [].

Definition modelTriangle : list (@Vector3 ExactFloat) :=
  [qv3 0 (11 # 13) (1 # 2); qv3 (3 # 2) (9 # 13) (1 # 2);
   qv3 (-1 # 2) (9 # 13) (1 # 2)].

Definition frame1 : @Frame _ _ ExactFrame :=
  match @AddTriangles _ _ ExactFrame blankBatch frame0 tt modelTriangle 12 0 3 with
  | Some p => p
  | None => frame0
  end.

(** The task that [AddTriangles] filled, and a local array of zeros. *)
Definition batch1 : @BatchTask _ _ ExactFrame :=
  match load (generateTrianglesTasks frame1) 0 with
  | Some bt => bt
  | None => @newBatchTask _ _ ExactFrame blankBatch
  end.

Definition scratch192 : list (@Vector4 ExactFloat) :=
  replicate 192 (qv4 0 0 0 0).

(** The object after [DrawTriangles], after the work of its one generate
    task, and after [Reset] on the idle object. *)
Definition frameDrawn : @Frame _ _ ExactFrame :=
  match @DrawTriangles _ _ ExactFrame frame1 with
  | Some p => p
  | None => frame1
  end.

Definition frame2 : @Frame _ _ ExactFrame :=
  match @GenerateTrianglesWork _ _ ExactFrame 2 frameDrawn 0 scratch192 with
  | Some p => p
  | None => frameDrawn
  end.

Definition frameReset : @Frame _ _ ExactFrame :=
  match @Reset _ _ ExactFrame (fun p => p) 1 frame1 with
  | Some p => p
  | None => frame1
  end.

(** A batch of four indices over the three vertices. *)
Definition raggedBatch : @BatchTask _ _ ExactFrame :=
  @mkBatchTask _ _ ExactFrame
    (@mkBatch _ _ ExactFrame tt modelTriangle 12 (Some [0; 1; 2; 0]) 2 4)
    emptyTask.

(** The 4 x 4 object after the hierarchy was built on it a second time,
    with no [Reset] in between. *)
Definition rebuilt4x4 : @OcclusionBuffer _ ExactHeader :=
  match @BuildDepthHierarchyWork _ ExactHeader built4x4 with
  | Some this => this
  | None => built4x4
  end.

(** The object that [SetSize(72, 8)] leaves: levels of 36 x 4, 18 x 2,
    9 x 1 and 5 x 1 cells. *)
Definition buffer72x8 : @OcclusionBuffer _ ExactHeader :=
    match @SetSize _ ExactHeader 8 buffer4x4 72 8 with
    | Some (_, this) => this
    | None => buffer4x4
    end.

(** An object with two mip levels, of 16 x 1 and 8 x 1 cells: the object
    that [SetSize(32, 2)] leaves, the object after a frame that left pixel
    [k] of the allocation at depth [k], and that object after the hierarchy
    was built. *)
Definition buffer32x2 : @OcclusionBuffer _ ExactHeader :=
    match @SetSize _ ExactHeader 8 buffer4x4 32 2 with
    | Some (_, this) => this
    | None => buffer4x4
    end.

Definition ramp32x2 : @OcclusionBuffer _ ExactHeader :=
  withFrame buffer32x2 1 (seqZ 0 130).

Definition built32x2 : @OcclusionBuffer _ ExactHeader :=
  match @BuildDepthHierarchyWork _ ExactHeader ramp32x2 with
  | Some this => this
  | None => ramp32x2
  end.

(** * Theorems *)

(** ** Arrays *)

Section ArrayFacts.
Context {A : Type}.
Implicit Types (a : list A) (i j : Z) (v : A).

Lemma load_lookup a i : 0 <= i -> load a i = a !! Z.to_nat i.
Proof. intros Hi. unfold load. destruct (i <? 0) eqn:E; [lia|done]. Qed.

Lemma load_Some a i v :
  load a i = Some v -> 0 <= i < Z.of_nat (length a).
Proof.
  unfold load. destruct (i <? 0) eqn:E; [discriminate|].
  intros Hl. apply lookup_lt_Some in Hl. lia.
Qed.

Lemma load_is_Some a i : 0 <= i < Z.of_nat (length a) -> is_Some (load a i).
Proof.
  intros Hi. rewrite load_lookup by lia. apply lookup_lt_is_Some. lia.
Qed.

Lemma load_insert_eq a i v :
  0 <= i < Z.of_nat (length a) -> load (<[Z.to_nat i := v]> a) i = Some v.
Proof.
  intros Hi. rewrite load_lookup by lia. apply list_lookup_insert_eq. lia.
Qed.

Lemma load_insert_ne a i j v :
  0 <= i -> i <> j -> load (<[Z.to_nat i := v]> a) j = load a j.
Proof.
  intros Hi Hne. unfold load. destruct (j <? 0) eqn:E; [done|].
  apply list_lookup_insert_ne. lia.
Qed.

Lemma store_Some a i v a' :
  store a i v = Some a' ->
  0 <= i < Z.of_nat (length a) /\ a' = <[Z.to_nat i := v]> a.
Proof.
  unfold store. destruct ((0 <=? i) && (i <? Z.of_nat (length a))) eqn:E;
    [|discriminate].
  intros Hs. inversion Hs. split; [lia|done].
Qed.

Lemma store_in_range a i v :
  0 <= i < Z.of_nat (length a) -> store a i v = Some (<[Z.to_nat i := v]> a).
Proof.
  intros Hi. unfold store.
  destruct ((0 <=? i) && (i <? Z.of_nat (length a))) eqn:E; [done|lia].
Qed.

Lemma store_length a i v a' : store a i v = Some a' -> length a' = length a.
Proof. intros Hs. apply store_Some in Hs as [_ ->]. apply length_insert. Qed.

Lemma load_store_eq a i v a' : store a i v = Some a' -> load a' i = Some v.
Proof. intros Hs. apply store_Some in Hs as [Hi ->]. by apply load_insert_eq. Qed.

Lemma load_store_ne a i j v a' :
  store a i v = Some a' -> i <> j -> load a' j = load a j.
Proof.
  intros Hs Hne. apply store_Some in Hs as [Hi ->].
  apply load_insert_ne; lia.
Qed.

End ArrayFacts.

Lemma Min_spec a b : Min a b = Z.min a b.
Proof. unfold Min. destruct (a <? b) eqn:E; lia. Qed.

Lemma Max_spec a b : Max a b = Z.max a b.
Proof. unfold Max. destruct (a >? b) eqn:E; lia. Qed.

(** ** Sizing *)

Section SetSizeFacts.
Context `{H : Header}.

Lemma ceilDiv_2 n : 0 <= n -> (n + 1) ÷ 2 = ceilDiv n 2.
Proof.
  intros Hn. unfold ceilDiv. rewrite Z.quot_div_nonneg by lia.
  pose proof (Z.div_mod (n + 1) 2 ltac:(lia)).
  pose proof (Z.mod_pos_bound (n + 1) 2 ltac:(lia)).
  pose proof (Z.div_mod (- n) 2 ltac:(lia)).
  pose proof (Z.mod_pos_bound (- n) 2 ltac:(lia)).
  lia.
Qed.

Lemma ceilDiv_2_bounds n : n <= 2 * ceilDiv n 2 < n + 2.
Proof.
  unfold ceilDiv.
  pose proof (Z.div_mod (- n) 2 ltac:(lia)).
  pose proof (Z.mod_pos_bound (- n) 2 ltac:(lia)). lia.
Qed.

Lemma levelDims_S w h k : levelDims w h (S k) = halveDims (levelDims w h k).
Proof. reflexivity. Qed.

Lemma levelDims_shift w h j :
  levelDims (ceilDiv w 2) (ceilDiv h 2) j = levelDims w h (S j).
Proof. unfold levelDims. rewrite Nat.iter_succ_r. reflexivity. Qed.

Lemma levelDims_pos w h k :
  0 < w -> 0 < h -> 0 < (levelDims w h k).1 /\ 0 < (levelDims w h k).2.
Proof.
  intros Hw Hh. induction k as [|k IH]; [simpl; lia|].
  rewrite levelDims_S. destruct (levelDims w h k) as [a b]. simpl in *.
  pose proof (ceilDiv_2_bounds a). pose proof (ceilDiv_2_bounds b). lia.
Qed.

Lemma allocate_Some {A} (n : Z) (d : A) (a : list A) :
  allocate n d = Some a -> 0 <= n <= INT_MAX /\ allocates n = true /\ a = newArray n d.
Proof.
  unfold allocate. intros Ha.
  destruct (0 <=? n) eqn:E1; [|discriminate].
  destruct (n <=? INT_MAX) eqn:E2; [|discriminate].
  destruct (allocates n); [|discriminate].
  simpl in Ha. inversion Ha. repeat split; lia.
Qed.


(** The allocation loop yields the levels [1 .. k] of the halving sequence,
    where [k] is the first halving count from 1 on that fits. *)
Lemma mipLoop_spec fuel : forall w h acc mips,
  0 < w -> 0 < h ->
  mipLoop fuel w h acc = Some mips ->
  exists k : nat, (1 <= k)%nat /\
    mips = acc ++ map (fun j => levelCells (levelDims w h j)) (seq 1 k) /\
    fitsMinSize (levelDims w h k) = true /\
    forall j : nat, (1 <= j < k)%nat -> fitsMinSize (levelDims w h j) = false.
Proof.
  induction fuel as [|fuel IH]; intros w h acc mips Hw Hh Hl; [discriminate|].
  simpl in Hl.
  rewrite !ceilDiv_2 in Hl by lia.
  pose proof (ceilDiv_2_bounds w). pose proof (ceilDiv_2_bounds h).
  destruct (allocate (ceilDiv w 2 * ceilDiv h 2) (mkDepthValue 0 0))
    as [mip|] eqn:Ha; [|discriminate].
  apply allocate_Some in Ha as (_ & _ & ->). simpl in Hl.
  destruct ((ceilDiv w 2 <=? OCCLUSION_MIN_SIZE)
            && (ceilDiv h 2 <=? OCCLUSION_MIN_SIZE)) eqn:Hfit.
  - inversion Hl; subst. exists 1%nat. split; [lia|]. split; [reflexivity|].
    split; [exact Hfit|]. intros j Hj; lia.
  - apply IH in Hl; [|lia..].
    destruct Hl as (k & Hk & -> & Hfitk & Hnot).
    exists (S k). split; [lia|]. split; [|split].
    + rewrite <- app_assoc. f_equal. simpl. f_equal.
      rewrite <- (seq_shift k 1), map_map. apply map_ext. intros j.
      by rewrite levelDims_shift.
    + by rewrite <- levelDims_shift.
    + intros j Hj. destruct j as [|j]; [lia|]. destruct j as [|j].
      * exact Hfit.
      * rewrite <- levelDims_shift. apply Hnot. lia.
Qed.


Lemma sliceLoop_spec n : forall i sh h tasks a tasks' a',
  0 <= i -> (Z.to_nat i + n <= length tasks)%nat ->
  sliceLoop n i sh h tasks a = (tasks', a') ->
  0 <= a' - a <= Z.of_nat n /\
  length tasks' = length tasks /\
  (forall j, i <= j < i + (a' - a) ->
     j * sh < h /\
     load tasks' j = Some (mkRasterTask (j * sh) (Min ((j + 1) * sh) h))) /\
  (forall j, ~ (i <= j < i + (a' - a)) -> load tasks' j = load tasks j) /\
  (a' - a = Z.of_nat n \/ h <= (i + (a' - a)) * sh).
Proof.
  induction n as [|n IH]; intros i sh h tasks a tasks' a' Hi Hlen Hl.
  - simpl in Hl. inversion Hl; subst.
    split; [lia|]. split; [done|]. split; [intros; lia|]. split; [done|lia].
  - simpl in Hl. destruct (i * sh <? h) eqn:E.
    + apply IH in Hl; [|lia|rewrite length_insert; lia].
      destruct Hl as (Hk & Hlen' & Hin & Hout & Hend).
      rewrite length_insert in Hlen'.
      split; [lia|]. split; [done|]. split; [|split].
      * intros j Hj. destruct (decide (j = i)) as [->|Hne].
        -- split; [lia|]. rewrite Hout by lia. apply load_insert_eq. lia.
        -- apply Hin. lia.
      * intros j Hj. rewrite Hout by lia. apply load_insert_ne; lia.
      * destruct Hend as [Hend|Hend]; [left; lia|right].
        replace (i + (a' - a)) with (i + 1 + (a' - (a + 1))) by lia. exact Hend.
    + inversion Hl; subst.
      split; [lia|]. split; [done|]. split; [intros; lia|]. split; [done|lia].
Qed.


Lemma forceEvenHeight_tasks this :
  rasterizeTrianglesTasks (forceEvenHeight this) = rasterizeTrianglesTasks this.
Proof. unfold forceEvenHeight. by destruct (Z.land (height this) 1 =? 0). Qed.

Lemma SetSize_resized fuel this w h this' :
  sameSize (forceEvenHeight this) w h = false ->
  SetSize fuel this w h = Some (true, this') ->
  0 < w /\ 0 < h /\ IsPowerOfTwo (width (forceEvenHeight this)) = true /\
  resize fuel (forceEvenHeight this) w h = Some this'.
Proof.
  intros Hsame Hs. unfold SetSize in Hs. rewrite Hsame in Hs.
  destruct ((w <=? 0) || (h <=? 0)) eqn:Hpos; [discriminate|].
  destruct (IsPowerOfTwo (width (forceEvenHeight this))) eqn:Hp2; [|discriminate].
  simpl in Hs. destruct (resize fuel (forceEvenHeight this) w h) eqn:Hr; [|discriminate].
  simpl in Hs. inversion Hs; subst. repeat split; lia.
Qed.

(** What [SetSize] answers when it refuses a size, and what it does to the
    object on the way: the stored height is made even first. *)
Lemma SetSize_nonpositive fuel this w h :
  w <= 0 \/ h <= 0 ->
  sameSize (forceEvenHeight this) w h = false ->
  SetSize fuel this w h = Some (false, forceEvenHeight this).
Proof.
  intros Hneg Hsame. unfold SetSize. rewrite Hsame.
  destruct ((w <=? 0) || (h <=? 0)) eqn:E; [done|lia].
Qed.

(** The power-of-two test reads the stored width. *)
Lemma SetSize_stored_width fuel this w h :
  0 < w -> 0 < h ->
  sameSize (forceEvenHeight this) w h = false ->
  IsPowerOfTwo (width (forceEvenHeight this)) = false ->
  SetSize fuel this w h = Some (false, forceEvenHeight this).
Proof.
  intros Hw Hh Hsame Hp. unfold SetSize. rewrite Hsame, Hp.
  destruct ((w <=? 0) || (h <=? 0)) eqn:E; [lia|done].
Qed.

Lemma forceEvenHeight_even this :
  Z.land (height this) 1 = 0 -> forceEvenHeight this = this.
Proof. intros He. unfold forceEvenHeight. by rewrite He. Qed.

(** The resizing path stores the requested size as it is. *)
Lemma SetSize_stored_size fuel this w h this' :
  sameSize (forceEvenHeight this) w h = false ->
  SetSize fuel this w h = Some (true, this') ->
  width this' = w /\ height this' = h /\ buffer this' = Some (w + 1) /\
  length (fullBuffer this') = Z.to_nat (w * (h + 2) + 2).
Proof.
  intros Hsame Hs.
  destruct (SetSize_resized _ _ _ _ _ Hsame Hs) as (Hw & Hh & _ & Hr).
  unfold resize in Hr.
  destruct (sliceLoop _ _ _ _ _ _) as [tasks' n].
  destruct (allocate (w * (h + 2) + 2) 0) as [full|] eqn:Ha; [|discriminate].
  apply allocate_Some in Ha as (_ & _ & ->). simpl in Hr.
  destruct (mipLoop fuel w h []) as [mips|]; [|discriminate].
  simpl in Hr. inversion Hr; subst this'. simpl.
  unfold newArray. by rewrite length_replicate.
Qed.

(** C5, as the code has it.  After a call [SetSize(w, h)] that resizes, the
    slice height is [floor(h / OCCLUSION_BUFFER_SLICES) + 1]; between 1 and
    [OCCLUSION_BUFFER_SLICES] slices are active; active slice [i] starts at
    row [i * sliceHeight] and ends where slice [i + 1] starts, the last one
    at row [h]; no slice is empty or taller than [sliceHeight]; adjacent
    active slices have no row in common. *)
Theorem SetSize_slices fuel this newWidth newHeight this' :
  0 < OCCLUSION_BUFFER_SLICES ->
  length (rasterizeTrianglesTasks this) = Z.to_nat OCCLUSION_BUFFER_SLICES ->
  sameSize (forceEvenHeight this) newWidth newHeight = false ->
  SetSize fuel this newWidth newHeight = Some (true, this') ->
  slicesTile this' newHeight.
Proof.
  intros HS Hlen Hsame Hs. unfold slicesTile.
  destruct (SetSize_resized _ _ _ _ _ Hsame Hs) as (Hw & Hh & _ & Hr).
  unfold resize in Hr.
  destruct (sliceLoop _ _ _ _ _ _) as [tasks' n] eqn:Hloop.
  destruct (allocate (newWidth * (newHeight + 2) + 2) 0) as [full|];
    [|discriminate].
  simpl in Hr.
  destruct (mipLoop fuel newWidth newHeight []) as [mips|]; [|discriminate].
  simpl in Hr. inversion Hr; subst this'; clear Hr. simpl.
  rewrite Z.quot_div_nonneg in * by lia.
  set (sh := newHeight / OCCLUSION_BUFFER_SLICES + 1) in *.
  assert (Hsh : 0 < sh /\ newHeight < OCCLUSION_BUFFER_SLICES * sh).
  { subst sh. assert (HS0 : OCCLUSION_BUFFER_SLICES <> 0) by lia.
    pose proof (Z.div_mod newHeight OCCLUSION_BUFFER_SLICES HS0).
    pose proof (Z.mod_pos_bound newHeight OCCLUSION_BUFFER_SLICES HS).
    assert (0 <= newHeight / OCCLUSION_BUFFER_SLICES) by (apply Z.div_pos; lia).
    nia. }
  apply sliceLoop_spec in Hloop; [|lia|rewrite forceEvenHeight_tasks; lia].
  rewrite !Z.sub_0_r, !Z.add_0_l in Hloop.
  destruct Hloop as (Hn & Hlen' & Hin & Hout & Hend).
  rewrite Z2Nat.id in * by lia.
  assert (Hn1 : 1 <= n).
  { destruct (decide (1 <= n)); [done|]. destruct Hend; nia. }
  assert (Hcover : newHeight <= n * sh) by (destruct Hend; nia).
  assert (Hslice : forall i, 0 <= i < n ->
     load tasks' i = Some (mkRasterTask (i * sh)
        (if i + 1 <? n then (i + 1) * sh else newHeight)) /\
     i * sh < (if i + 1 <? n then (i + 1) * sh else newHeight) <= i * sh + sh).
  { intros i Hi. destruct (Hin i Hi) as [Hlt Hld]. rewrite Hld, Min_spec.
    destruct (i + 1 <? n) eqn:E.
    - destruct (Hin (i + 1) ltac:(lia)) as [Hlt' _].
      split; [do 2 f_equal; lia|nia].
    - assert (i + 1 = n) by lia. split; [do 2 f_equal; nia|nia]. }
  split; [done|]. split; [lia|]. split.
  - intros i Hi. destruct (Hslice i Hi) as [Hld Hb].
    eexists; split; [exact Hld|]. simpl. auto.
  - intros i t u Hi Hi1 Ht Hu.
    destruct (Hslice i ltac:(lia)) as [Hld Hb].
    destruct (Hslice (i + 1) ltac:(lia)) as [Hld' Hb'].
    rewrite Hld in Ht. rewrite Hld' in Hu. inversion Ht; inversion Hu; subst.
    unfold rowsShared. simpl in *.
    destruct (i + 1 <? n) eqn:E; [|lia].
    destruct (i + 1 + 1 <? n) eqn:E'; split; lia.
Qed.


Lemma CalculateViewport_mips this : mipBuffers (CalculateViewport this) = mipBuffers this.
Proof. reflexivity. Qed.

(** C8, as the code has it.  After a call [SetSize(w, h)] that resizes, the
    mip chain has [k >= 1] levels, where [k] is the first number of
    halvings, counted from one, after which both dimensions are at most
    [OCCLUSION_MIN_SIZE]; level [i] is allocated with the cells of
    [levelDims w h (S i)], the dimensions of the level before it (of the
    buffer for level 0) halved and rounded up. *)
Theorem SetSize_mip_chain fuel this newWidth newHeight this' :
  sameSize (forceEvenHeight this) newWidth newHeight = false ->
  SetSize fuel this newWidth newHeight = Some (true, this') ->
  mipChainHalved this' newWidth newHeight.
Proof.
  intros Hsame Hs. unfold mipChainHalved.
  destruct (SetSize_resized _ _ _ _ _ Hsame Hs) as (Hw & Hh & _ & Hr).
  unfold resize in Hr.
  destruct (sliceLoop _ _ _ _ _ _) as [tasks' n].
  destruct (allocate (newWidth * (newHeight + 2) + 2) 0) as [full|];
    [|discriminate].
  simpl in Hr.
  destruct (mipLoop fuel newWidth newHeight []) as [mips|] eqn:Hm; [|discriminate].
  simpl in Hr. inversion Hr; subst this'; clear Hr. simpl.
  apply mipLoop_spec in Hm; [|lia..].
  destruct Hm as (k & Hk & -> & Hfit & Hnot). simpl.
  rewrite length_map, length_seq.
  split; [done|]. split; [done|]. split; [done|].
  intros i mip Hi. rewrite list_lookup_fmap in Hi.
  destruct (seq 1 k !! i) as [j|] eqn:Hj; [|discriminate].
  apply lookup_seq in Hj as [-> _]. simpl in Hi. inversion Hi; subst.
  unfold levelCells, newArray. by rewrite length_replicate.
Qed.



(** A call of [SetSize] that succeeded with an even height can be
    repeated: the second call takes the early return of line 50 and leaves
    the object, its buffers included, as it is. *)
Theorem SetSize_again fuel fuel' this w h this' :
  Z.land h 1 = 0 ->
  SetSize fuel this w h = Some (true, this') ->
  SetSize fuel' this' w h = Some (true, this').
Proof.
  intros Heven Hs.
  assert (Hsize : width this' = w /\ height this' = h).
  { destruct (sameSize (forceEvenHeight this) w h) eqn:Hsame.
    - unfold SetSize in Hs. rewrite Hsame in Hs. inversion Hs; subst this'.
      unfold sameSize in Hsame. apply andb_prop in Hsame as [E1 E2].
      apply Z.eqb_eq in E1, E2. done.
    - destruct (SetSize_stored_size _ _ _ _ _ Hsame Hs) as (E1 & E2 & _). done. }
  destruct Hsize as [Ew Eh].
  unfold SetSize.
  rewrite (forceEvenHeight_even this') by (by rewrite Eh).
  unfold sameSize. by rewrite Ew, Eh, !Z.eqb_refl.
Qed.

End SetSizeFacts.

(** ** The visibility query: the early answers *)

Section IsVisibleEarly.
Context `{H : Header}.

Lemma projectRest_behind this vs : forall e,
  existsb (fun v => f_le (Vector4.z v) f_zero) vs = true ->
  projectRest this vs e = Return true.
Proof.
  induction vs as [|v vs IH]; intros e Hex; [discriminate|].
  simpl in *. destruct (f_le (Vector4.z v) f_zero); [done|].
  by apply IH.
Qed.

Lemma projectCorners_behind this vs :
  existsb (fun v => f_le (Vector4.z v) f_zero) vs = true ->
  projectCorners this vs = Return true.
Proof.
  destruct vs as [|v vs]; [done|]. simpl.
  destruct (f_le (Vector4.z v) f_zero); [done|].
  apply projectRest_behind.
Qed.

(** C6.  When some corner of the box has clip-space [z <= 0], [IsVisible]
    answers [true], whatever the depth buffer and the hierarchy hold (they
    may be replaced by any other contents), with any fuel. *)
Theorem IsVisible_near_plane fuel this box :
  crossesNearPlane this box = true ->
  IsVisible fuel this box = Some true /\
  forall pixels mips,
    IsVisible fuel (withDepthData this pixels mips) box = Some true.
Proof.
  intros Hc.
  assert (Hany : forall that, viewProj that = viewProj this ->
                   IsVisible fuel that box = Some true).
  { intros that Hvp. unfold IsVisible.
    destruct (bool_decide (buffer that = None) || (numTriangleBatches that =? 0));
      [done|].
    rewrite projectCorners_behind; [done|].
    unfold crossesNearPlane, clipCorners in *. by rewrite Hvp. }
  split; [by apply Hany|]. intros pixels mips. by apply Hany.
Qed.

(** C10.  While the depth buffer is not allocated, or no batch is
    submitted, [IsVisible] answers [true] for every box, and the answer
    does not depend on what the depth buffer and the hierarchy hold. *)
Theorem IsVisible_empty fuel this box :
  buffer this = None \/ numTriangleBatches this = 0 ->
  IsVisible fuel this box = Some true /\
  forall pixels mips,
    IsVisible fuel (withDepthData this pixels mips) box = Some true.
Proof.
  intros Hempty.
  assert (Hany : forall that, buffer that = buffer this ->
                   numTriangleBatches that = numTriangleBatches this ->
                   IsVisible fuel that box = Some true).
  { intros that Hb Hn. unfold IsVisible. rewrite Hb, Hn.
    destruct Hempty as [-> | ->]; [done|].
    by rewrite orb_true_r. }
  split; [by apply Hany|]. intros pixels mips. by apply Hany.
Qed.

End IsVisibleEarly.

(** ** Bucketing *)

Ltac zbool :=
  repeat match goal with
         | |- context [?a <=? ?b] => destruct (Z.leb_spec a b)
         | |- context [?a <? ?b] => destruct (Z.ltb_spec a b)
         | |- context [?a >=? ?b] => rewrite (Z.geb_leb a b)
         | |- context [?a >? ?b] => rewrite (Z.gtb_ltb a b)
         end; simpl; try lia; try done.

Lemma pushIndex_spec (buckets : list (list Z)) i idx :
  0 <= i < Z.of_nat (length buckets) ->
  exists b, load buckets i = Some b /\
    pushIndex buckets i idx = Some (<[Z.to_nat i := b ++ [idx]]> buckets).
Proof.
  intros Hi. destruct (load_is_Some buckets i Hi) as [b Hb].
  exists b. split; [done|]. unfold pushIndex. rewrite Hb. simpl.
  by apply store_in_range.
Qed.

Lemma bucketWhere_spec test idx n : forall i buckets,
  0 <= i -> (Z.to_nat i + n <= length buckets)%nat ->
  exists buckets',
    bucketWhere test idx n i buckets = Some buckets' /\
    length buckets' = length buckets /\
    forall j b, load buckets j = Some b ->
      load buckets' j
      = Some (if (i <=? j) && (j <? i + Z.of_nat n) && test j
              then b ++ [idx] else b).
Proof.
  induction n as [|n IH]; intros i buckets Hi Hlen.
  - exists buckets. split; [done|]. split; [done|]. intros j b Hb.
    rewrite Hb. f_equal. zbool.
  - simpl bucketWhere.
    destruct (test i) eqn:Ht.
    + destruct (pushIndex_spec buckets i idx ltac:(lia)) as (b0 & Hb0 & ->). simpl.
      destruct (IH (i + 1) (<[Z.to_nat i := b0 ++ [idx]]> buckets) ltac:(lia)
                  ltac:(rewrite length_insert; lia)) as (buckets' & -> & Hlen' & Hj).
      exists buckets'. split; [done|]. rewrite length_insert in Hlen'.
      split; [done|]. intros j b Hb.
      destruct (decide (j = i)) as [->|Hne].
      * rewrite (Hj i (b0 ++ [idx])) by (apply load_insert_eq; lia).
        rewrite Hb0 in Hb. inversion Hb; subst. rewrite Ht. f_equal. zbool.
      * rewrite (Hj j b) by (rewrite load_insert_ne by lia; done).
        f_equal. zbool.
    + simpl.
      destruct (IH (i + 1) buckets ltac:(lia) ltac:(lia)) as (buckets' & -> & Hlen' & Hj).
      exists buckets'. split; [done|]. split; [done|]. intros j b Hb.
      rewrite (Hj j b Hb). f_equal.
      destruct (decide (j = i)) as [->|Hne].
      * rewrite Ht. zbool.
      * zbool.
Qed.

Section Bucketing.
Context `{H : Header}.

(** Both bucket loops push [idx] to the slices [i .. i + n - 1] that pass
    the loop's test and leave the other buckets alone. *)
Lemma bucketInside_spec this idx minY maxY : forall n i buckets,
  0 <= i -> (Z.to_nat i + n <= length buckets)%nat ->
  exists buckets',
    bucketInside this idx minY maxY n i buckets = Some buckets' /\
    length buckets' = length buckets /\
    forall j b, load buckets j = Some b ->
      load buckets' j
      = Some (if (i <=? j) && (j <? i + Z.of_nat n) && insideSlice this minY maxY j
              then b ++ [idx] else b).
Proof.
  intros n i buckets.
  replace (bucketInside this idx minY maxY n i buckets)
    with (bucketWhere (insideSlice this minY maxY) idx n i buckets);
    [apply bucketWhere_spec|].
  revert i buckets. induction n as [|n IH]; intros i buckets; [done|].
  simpl. fold (insideSlice this minY maxY i).
  destruct (if insideSlice this minY maxY i then _ else _); simpl; [apply IH|done].
Qed.

Lemma bucketClipped_spec this idx minY maxY : forall n i buckets,
  0 <= i -> (Z.to_nat i + n <= length buckets)%nat ->
  exists buckets',
    bucketClipped this idx minY maxY n i buckets = Some buckets' /\
    length buckets' = length buckets /\
    forall j b, load buckets j = Some b ->
      load buckets' j
      = Some (if (i <=? j) && (j <? i + Z.of_nat n) && clippedSlice this minY maxY j
              then b ++ [idx] else b).
Proof.
  intros n i buckets.
  replace (bucketClipped this idx minY maxY n i buckets)
    with (bucketWhere (clippedSlice this minY maxY) idx n i buckets);
    [apply bucketWhere_spec|].
  revert i buckets. induction n as [|n IH]; intros i buckets; [done|].
  simpl. fold (clippedSlice this minY maxY i).
  destruct (if clippedSlice this minY maxY i then _ else _); simpl; [apply IH|done].
Qed.

Lemma insideSlice_clippedSlice this minY maxY i :
  insideSlice this minY maxY i = true -> clippedSlice this minY maxY i = true.
Proof.
  unfold insideSlice, clippedSlice. rewrite Min_spec.
  intros Hi. apply andb_true_iff in Hi as [H1 H2].
  apply andb_true_iff. split; lia.
Qed.

(** What the two copies of the bucketing code do.  A triangle that passes
    [CheckFacing] is
    appended to the batch, and its index (the number of triangles before
    it) is pushed to the bucket of exactly the active slices that pass the
    test of the path it came by: on the fully inside path
    [minY < Min(height, startY + sliceHeight)] and [maxY > startY], on the
    clipped path [minY < startY + sliceHeight] and [maxY >= startY], with
    [startY = i * sliceHeight].  The other buckets are unchanged.  A slice
    that passes the first test passes the second. *)
Lemma addProjected_buckets clipped this task v0 v1 v2 :
  let p0 := viewportTransform this v0 in
  let p1 := viewportTransform this v1 in
  let p2 := viewportTransform this v2 in
  let idx := Z.of_nat (length (triangles task)) in
  0 <= activeSlices this <= Z.of_nat (length (triangleIndices task)) ->
  CheckFacing p0 p1 p2 = true ->
  exists task',
    addProjected clipped this task v0 v1 v2 = Some task' /\
    triangles task' = triangles task ++ [mkTriangle (p0, p1, p2) (Calculate p0 p1 p2)] /\
    pushedWhere this
      (sliceTest clipped this (extentY p0 p1 p2).1 (extentY p0 p1 p2).2) idx
      (triangleIndices task) (triangleIndices task') /\
    forall i, insideSlice this (extentY p0 p1 p2).1 (extentY p0 p1 p2).2 i = true ->
              clippedSlice this (extentY p0 p1 p2).1 (extentY p0 p1 p2).2 i = true.
Proof.
  intros p0 p1 p2 idx Hn Hface. unfold addProjected.
  fold p0 p1 p2. rewrite Hface. fold idx.
  destruct (extentY p0 p1 p2) as [minY maxY] eqn:He. simpl.
  assert (Hloop : exists buckets',
    (if clipped
     then bucketClipped this idx minY maxY (Z.to_nat (activeSlices this)) 0
            (triangleIndices task)
     else bucketInside this idx minY maxY (Z.to_nat (activeSlices this)) 0
            (triangleIndices task)) = Some buckets' /\
    pushedWhere this (sliceTest clipped this minY maxY) idx
      (triangleIndices task) buckets').
  { destruct clipped.
    - destruct (bucketClipped_spec this idx minY maxY (Z.to_nat (activeSlices this))
                  0 (triangleIndices task) ltac:(lia) ltac:(lia))
        as (buckets' & Hb & Hlen & Hj).
      exists buckets'. split; [done|]. split; [done|]. intros j b Hld.
      rewrite (Hj j b Hld). f_equal. simpl.
      pose proof (load_Some _ _ _ Hld). zbool.
    - destruct (bucketInside_spec this idx minY maxY (Z.to_nat (activeSlices this))
                  0 (triangleIndices task) ltac:(lia) ltac:(lia))
        as (buckets' & Hb & Hlen & Hj).
      exists buckets'. split; [done|]. split; [done|]. intros j b Hld.
      rewrite (Hj j b Hld). f_equal. simpl.
      pose proof (load_Some _ _ _ Hld). zbool. }
  destruct Hloop as (buckets' & -> & Hpushed). simpl.
  eexists. split; [done|]. split; [done|]. split; [done|].
  intros i. apply insideSlice_clippedSlice.
Qed.
End Bucketing.

(** ** Clipping *)

Section Clipping.
Context `{H : Header}.

Lemma load_insert {A} (a : list A) (i k : Z) (v : A) :
  0 <= i < Z.of_nat (length a) ->
  load (<[Z.to_nat i := v]> a) k = if decide (k = i) then Some v else load a k.
Proof.
  intros Hi. destruct (decide (k = i)) as [->|Hne].
  - by apply load_insert_eq.
  - apply load_insert_ne; lia.
Qed.

Lemma clipInto_Some (vs : list Vector4) dst a b da db va vb :
  load vs a = Some va -> load vs b = Some vb ->
  0 <= dst < Z.of_nat (length vs) ->
  clipInto vs dst a b da db = Some (<[Z.to_nat dst := ClipEdge va vb da db]> vs).
Proof.
  intros Ha Hb Hd. unfold clipInto. rewrite Ha, Hb. simpl. by apply store_in_range.
Qed.

Lemma copyInto_Some (vs : list Vector4) dst src v :
  load vs src = Some v -> 0 <= dst < Z.of_nat (length vs) ->
  copyInto vs dst src = Some (<[Z.to_nat dst := v]> vs).
Proof.
  intros Ha Hd. unfold copyInto. rewrite Ha. simpl. by apply store_in_range.
Qed.


Lemma triangleAt_Some (vs : list Vector4) i v0 v1 v2 :
  triangleAt vs i = Some (v0, v1, v2) ->
  load vs (i * 3) = Some v0 /\ load vs (i * 3 + 1) = Some v1 /\
  load vs (i * 3 + 2) = Some v2.
Proof.
  unfold triangleAt.
  destruct (load vs (i * 3)) as [a|]; [|done].
  destruct (load vs (i * 3 + 1)) as [b|]; [|done].
  destruct (load vs (i * 3 + 2)) as [c|]; [|done].
  simpl. intros E. by inversion E.
Qed.

Ltac loads :=
  repeat first
    [ rewrite load_insert by (rewrite ?length_insert; lia)
    | rewrite length_insert ];
  repeat (case_decide; try lia); try eassumption; try done.

Ltac sub :=
  solve [ apply sublist_nil | apply sublist_skip; sub | apply sublist_cons; sub ].

(** One step of a plane pass of [ClipVertices] on an active candidate
    [i] with room left to append: it returns, and by the number of
    vertices behind the plane (signed distance [< 0]) the candidate yields
    no triangle when there are three (its slot is switched off), one
    triangle when there are two (written over the candidate), two when
    there is one (one written over the candidate, one appended in the first
    free slot, which becomes active, and [numClipTriangles] grows by one),
    and when there is none the state is unchanged.  The outputs are the
    triangles of [clipOutputs]; each lists vertices of the clipped polygon
    in the polygon's order; no other slot changes. *)
Lemma clipTriangle_outputs plane st i t :
  0 <= i < numClipTriangles st ->
  numClipTriangles st < Z.of_nat (length (clipTriangles st)) ->
  3 * Z.of_nat (length (clipTriangles st)) <= Z.of_nat (length (clipVerts st)) ->
  slotHolds st i t ->
  exists st',
    clipTriangle plane i st = Some st' /\
    clipProduces st st' i (clipOutputs plane t) /\
    length (clipOutputs plane t) = outputCount (behindCount plane t) /\
    Forall (fun u => keepsWinding u (clipPolygon plane t)) (clipOutputs plane t) /\
    (behindCount plane t = 0%nat -> st' = st).
Proof.
  intros Hi Hroom Hverts [Hact Htri].
  destruct t as [[v0 v1] v2].
  destruct (triangleAt_Some _ _ _ _ _ Htri) as (Hv0 & Hv1 & Hv2).
  destruct st as [vs ct num]. simpl in *.
  set (d0 := DotProduct plane v0). set (d1 := DotProduct plane v1).
  set (d2 := DotProduct plane v2).
  unfold clipTriangle. simpl. rewrite Hact. simpl.
  rewrite Hv0, Hv1, Hv2. simpl. fold d0 d1 d2.
  unfold clipPolygon, clipEdgeOut, behindCount, clipOutputs. fold d0 d1 d2.
  pose proof (load_Some _ _ _ Hv0) as Hr0.
  pose proof (load_Some _ _ _ Hv2) as Hr2.
  pose proof (load_Some _ _ _ Hact) as Hri.
  destruct (behind d0) eqn:E0, (behind d1) eqn:E1, (behind d2) eqn:E2; simpl.
  all: unfold appendTriangle; simpl.
  all: try (rewrite (store_in_range ct) by lia; simpl).
  all: repeat (first
         [ erewrite clipInto_Some by (loads; lia)
         | erewrite copyInto_Some by (loads; lia) ]; simpl).
  all: eexists; (split; [reflexivity|]).
  all: (split; [|split; [reflexivity|split; [|try done]]]).
  all: try (repeat constructor; sub).
  all: unfold clipProduces, slotHolds, triangleAt; simpl.
  all: (split; [|intros j Hj Hj']).
  all: repeat split; loads.
  all: by rewrite ?Hv0, ?Hv1, ?Hv2.
Qed.

(** A candidate that is switched off is skipped. *)
Lemma clipTriangle_inactive plane st i :
  load (clipTriangles st) i = Some false -> clipTriangle plane i st = Some st.
Proof. intros Hi. unfold clipTriangle. by rewrite Hi. Qed.

End Clipping.

(** ** The depth hierarchy *)

Section ReduceFacts.
Variables srcMin srcMax : Z -> option Z.

Lemma reduceRow4_spec n : forall src src2 dest mip mip',
  0 <= dest ->
  reduceRow4 srcMin srcMax n src src2 dest mip = Some mip' ->
  length mip' = length mip /\
  (forall k, 0 <= k < Z.of_nat n -> exists cell,
      load mip' (dest + k) = Some cell /\
      covers srcMin srcMax cell (src + 2 * k) /\ covers srcMin srcMax cell (src + 2 * k + 1) /\
      covers srcMin srcMax cell (src2 + 2 * k) /\ covers srcMin srcMax cell (src2 + 2 * k + 1)) /\
  (forall j, ~ (dest <= j < dest + Z.of_nat n) -> load mip' j = load mip j).
Proof.
  induction n as [|n IH]; intros src src2 dest mip mip' Hd Hr.
  - simpl in Hr. inversion Hr; subst. split; [done|]. split; [intros; lia|done].
  - simpl in Hr.
    destruct (srcMin src) as [a0|] eqn:Ea0; [|done].
    destruct (srcMin (src + 1)) as [a1|] eqn:Ea1; [|done].
    destruct (srcMin src2) as [b0|] eqn:Eb0; [|done].
    destruct (srcMin (src2 + 1)) as [b1|] eqn:Eb1; [|done].
    destruct (srcMax src) as [c0|] eqn:Ec0; [|done].
    destruct (srcMax (src + 1)) as [c1|] eqn:Ec1; [|done].
    destruct (srcMax src2) as [d0|] eqn:Ed0; [|done].
    destruct (srcMax (src2 + 1)) as [d1|] eqn:Ed1; [|done].
    simpl in Hr.
    destruct (store mip dest _) as [mip1|] eqn:Es; [|done]. simpl in Hr.
    apply IH in Hr; [|lia]. destruct Hr as (Hlen & Hin & Hout).
    pose proof (store_length _ _ _ _ Es) as Hlen1.
    split; [congruence|]. split.
    + intros k Hk. destruct (decide (k = 0)) as [->|Hne].
      * eexists. split.
        { rewrite Hout by lia. rewrite Z.add_0_r. apply (load_store_eq _ _ _ _ Es). }
        rewrite !Z.mul_0_r, !Z.add_0_r. unfold covers. cbn [dmin dmax].
        rewrite !Min_spec, !Max_spec.
        repeat split; eexists; eexists; (split; [eassumption|]);
          (split; [eassumption|]); lia.
      * destruct (Hin (k - 1) ltac:(lia)) as (cell & Hld & H1 & H2 & H3 & H4).
        exists cell.
        replace (dest + 1 + (k - 1)) with (dest + k) in Hld by lia.
        replace (src + 2 + 2 * (k - 1)) with (src + 2 * k) in * by lia.
        replace (src2 + 2 + 2 * (k - 1)) with (src2 + 2 * k) in * by lia.
        done.
    + intros j Hj. rewrite Hout by lia. apply (load_store_ne _ _ _ _ _ Es). lia.
Qed.

Lemma reduceRow2_spec n : forall src dest mip mip',
  0 <= dest ->
  reduceRow2 srcMin srcMax n src dest mip = Some mip' ->
  length mip' = length mip /\
  (forall k, 0 <= k < Z.of_nat n -> exists cell,
      load mip' (dest + k) = Some cell /\
      covers srcMin srcMax cell (src + 2 * k) /\ covers srcMin srcMax cell (src + 2 * k + 1)) /\
  (forall j, ~ (dest <= j < dest + Z.of_nat n) -> load mip' j = load mip j).
Proof.
  induction n as [|n IH]; intros src dest mip mip' Hd Hr.
  - simpl in Hr. inversion Hr; subst. split; [done|]. split; [intros; lia|done].
  - simpl in Hr.
    destruct (srcMin src) as [a0|] eqn:Ea0; [|done].
    destruct (srcMin (src + 1)) as [a1|] eqn:Ea1; [|done].
    destruct (srcMax src) as [c0|] eqn:Ec0; [|done].
    destruct (srcMax (src + 1)) as [c1|] eqn:Ec1; [|done].
    simpl in Hr.
    destruct (store mip dest _) as [mip1|] eqn:Es; [|done]. simpl in Hr.
    apply IH in Hr; [|lia]. destruct Hr as (Hlen & Hin & Hout).
    pose proof (store_length _ _ _ _ Es) as Hlen1.
    split; [congruence|]. split.
    + intros k Hk. destruct (decide (k = 0)) as [->|Hne].
      * eexists. split.
        { rewrite Hout by lia. rewrite Z.add_0_r. apply (load_store_eq _ _ _ _ Es). }
        rewrite !Z.mul_0_r, !Z.add_0_r. unfold covers. cbn [dmin dmax].
        rewrite !Min_spec, !Max_spec.
        repeat split; eexists; eexists; (split; [eassumption|]);
          (split; [eassumption|]); lia.
      * destruct (Hin (k - 1) ltac:(lia)) as (cell & Hld & H1 & H2).
        exists cell.
        replace (dest + 1 + (k - 1)) with (dest + k) in Hld by lia.
        replace (src + 2 + 2 * (k - 1)) with (src + 2 * k) in * by lia.
        done.
    + intros j Hj. rewrite Hout by lia. apply (load_store_ne _ _ _ _ _ Es). lia.
Qed.

Lemma reduceRows_spec n : forall y srcWidth srcHeight mipWidth mip mip',
  0 <= y -> 0 <= mipWidth ->
  reduceRows srcMin srcMax n y srcWidth srcHeight mipWidth mip = Some mip' ->
  length mip' = length mip /\
  reduced srcMin srcMax srcWidth srcHeight mipWidth y (y + Z.of_nat n) mip' /\
  (forall j, ~ (y * mipWidth <= j < (y + Z.of_nat n) * mipWidth) ->
     load mip' j = load mip j).
Proof.
  induction n as [|n IH]; intros y sw shh mw mip mip' Hy Hmw Hr.
  - simpl in Hr. inversion Hr; subst. split; [done|].
    split; [intros y' x Hy'; lia|done].
  - simpl in Hr.
    destruct (if y * 2 + 1 <? shh then _ else _) as [mip1|] eqn:Erow; [|done].
    simpl in Hr. apply IH in Hr; [|lia..].
    destruct Hr as (Hlen & Hin & Hout).
    assert (Hrow : length mip1 = length mip /\
      (forall k, 0 <= k < mw -> exists cell,
         load mip1 (y * mw + k) = Some cell /\
         covers srcMin srcMax cell (2 * y * sw + 2 * k) /\ covers srcMin srcMax cell (2 * y * sw + 2 * k + 1) /\
         (2 * y + 1 < shh ->
          covers srcMin srcMax cell ((2 * y + 1) * sw + 2 * k) /\
          covers srcMin srcMax cell ((2 * y + 1) * sw + 2 * k + 1))) /\
      (forall j, ~ (y * mw <= j < y * mw + mw) -> load mip1 j = load mip j)).
    { destruct (y * 2 + 1 <? shh) eqn:E.
      - apply reduceRow4_spec in Erow; [|nia].
        destruct Erow as (Hl & Hi & Ho). rewrite Z2Nat.id in * by lia.
        split; [done|]. split; [|done].
        intros k Hk. destruct (Hi k Hk) as (cell & Hld & H1 & H2 & H3 & H4).
        exists cell. split; [done|].
        replace (2 * y * sw) with (y * 2 * sw) by lia.
        replace ((2 * y + 1) * sw) with (y * 2 * sw + sw) by lia.
        done.
      - apply reduceRow2_spec in Erow; [|nia].
        destruct Erow as (Hl & Hi & Ho). rewrite Z2Nat.id in * by lia.
        split; [done|]. split; [|done].
        intros k Hk. destruct (Hi k Hk) as (cell & Hld & H1 & H2).
        exists cell. split; [done|].
        replace (2 * y * sw) with (y * 2 * sw) by lia.
        split; [done|]. split; [done|]. lia. }
    destruct Hrow as (Hl1 & Hi1 & Ho1).
    split; [congruence|]. split.
    + intros y' x Hy' Hx. destruct (decide (y' = y)) as [->|Hne].
      * destruct (Hi1 x Hx) as (cell & Hld & Hc). exists cell.
        split; [|done]. rewrite Hout by nia. done.
      * apply Hin; lia.
    + intros j Hj. rewrite Hout by nia. apply Ho1. nia.
Qed.


Lemma reduceRow4_total n : forall src src2 dest mip,
  (forall k, 0 <= k < Z.of_nat n ->
     readable srcMin srcMax (src + 2 * k) /\ readable srcMin srcMax (src + 2 * k + 1) /\
     readable srcMin srcMax (src2 + 2 * k) /\ readable srcMin srcMax (src2 + 2 * k + 1)) ->
  0 <= dest -> dest + Z.of_nat n <= Z.of_nat (length mip) ->
  is_Some (reduceRow4 srcMin srcMax n src src2 dest mip).
Proof.
  induction n as [|n IH]; intros src src2 dest mip Hread Hd Hlen; [by eexists|].
  simpl.
  destruct (Hread 0 ltac:(lia)) as ([[a0 Ea0] [c0 Ec0]] & [[a1 Ea1] [c1 Ec1]]
                                    & [[b0 Eb0] [d0 Ed0]] & [[b1 Eb1] [d1 Ed1]]).
  rewrite Z.mul_0_r, !Z.add_0_r in *.
  rewrite Ea0, Ea1, Eb0, Eb1, Ec0, Ec1, Ed0, Ed1. simpl.
  rewrite store_in_range by lia. simpl.
  apply IH; [|lia|rewrite length_insert; lia].
  intros k Hk. specialize (Hread (k + 1) ltac:(lia)).
  replace (src + 2 * (k + 1)) with (src + 2 + 2 * k) in Hread by lia.
  replace (src2 + 2 * (k + 1)) with (src2 + 2 + 2 * k) in Hread by lia.
  done.
Qed.

Lemma reduceRow2_total n : forall src dest mip,
  (forall k, 0 <= k < Z.of_nat n ->
     readable srcMin srcMax (src + 2 * k) /\ readable srcMin srcMax (src + 2 * k + 1)) ->
  0 <= dest -> dest + Z.of_nat n <= Z.of_nat (length mip) ->
  is_Some (reduceRow2 srcMin srcMax n src dest mip).
Proof.
  induction n as [|n IH]; intros src dest mip Hread Hd Hlen; [by eexists|].
  simpl.
  destruct (Hread 0 ltac:(lia)) as ([[a0 Ea0] [c0 Ec0]] & [[a1 Ea1] [c1 Ec1]]).
  rewrite Z.mul_0_r, !Z.add_0_r in *.
  rewrite Ea0, Ea1, Ec0, Ec1. simpl.
  rewrite store_in_range by lia. simpl.
  apply IH; [|lia|rewrite length_insert; lia].
  intros k Hk. specialize (Hread (k + 1) ltac:(lia)).
  replace (src + 2 * (k + 1)) with (src + 2 + 2 * k) in Hread by lia.
  done.
Qed.

Lemma reduceRows_total n : forall y srcWidth srcHeight mipWidth mip,
  0 <= y -> 0 <= mipWidth ->
  sourceReadable srcMin srcMax srcWidth srcHeight mipWidth y (y + Z.of_nat n) ->
  (y + Z.of_nat n) * mipWidth <= Z.of_nat (length mip) ->
  is_Some (reduceRows srcMin srcMax n y srcWidth srcHeight mipWidth mip).
Proof.
  induction n as [|n IH]; intros y sw shh mw mip Hy Hmw Hread Hlen; [by eexists|].
  simpl.
  assert (Hrow : is_Some (if y * 2 + 1 <? shh
            then reduceRow4 srcMin srcMax (Z.to_nat mw) (y * 2 * sw)
                   (y * 2 * sw + sw) (y * mw) mip
            else reduceRow2 srcMin srcMax (Z.to_nat mw) (y * 2 * sw) (y * mw) mip)).
  { destruct (y * 2 + 1 <? shh) eqn:E.
    - apply reduceRow4_total; [|nia|nia].
      intros k Hk. destruct (Hread y k ltac:(lia) ltac:(lia)) as (H1 & H2 & H3).
      destruct H3 as [H3 H4]; [lia|].
      replace (y * 2 * sw) with (2 * y * sw) by lia.
      replace (2 * y * sw + sw) with ((2 * y + 1) * sw) by lia. done.
    - apply reduceRow2_total; [|nia|nia].
      intros k Hk. destruct (Hread y k ltac:(lia) ltac:(lia)) as (H1 & H2 & _).
      replace (y * 2 * sw) with (2 * y * sw) by lia. done. }
  destruct Hrow as [mip1 Hrow]. rewrite Hrow. simpl.
  assert (length mip1 = length mip) as Hl1.
  { destruct (y * 2 + 1 <? shh).
    - apply reduceRow4_spec in Hrow; [|nia]. tauto.
    - apply reduceRow2_spec in Hrow; [|nia]. tauto. }
  apply IH; [lia|lia| |rewrite Hl1; lia].
  intros y' x Hy' Hx. apply Hread; lia.
Qed.

End ReduceFacts.

Section BuildFacts.
Context `{H : Header}.
Local Arguments levelDims : simpl never.

Lemma shiftr_S p (N : nat) : Z.shiftr p (Z.of_nat (S N)) = Z.shiftr p (Z.of_nat N) / 2.
Proof.
  rewrite Nat2Z.inj_succ, <- Z.add_1_r, <- Z.shiftr_shiftr by lia.
  by rewrite (Z.shiftr_div_pow2 _ 1) by lia.
Qed.

Lemma half_cases a : 0 <= a -> a = 2 * (a / 2) \/ a = 2 * (a / 2) + 1.
Proof.
  intros Ha. pose proof (Z.div_mod a 2 ltac:(lia)).
  pose proof (Z.mod_pos_bound a 2 ltac:(lia)). lia.
Qed.

Lemma shiftr_level_bound w h p (k : nat) :
  0 < w -> 0 < h -> 0 <= p ->
  (p < w -> 0 <= Z.shiftr p (Z.of_nat k) < (levelDims w h k).1) /\
  (p < h -> 0 <= Z.shiftr p (Z.of_nat k) < (levelDims w h k).2).
Proof.
  intros Hw Hh Hp. induction k as [|k IH].
  - simpl. rewrite Z.shiftr_0_r. lia.
  - rewrite shiftr_S, levelDims_S.
    destruct (levelDims w h k) as [a b]. simpl in *.
    pose proof (ceilDiv_2_bounds a). pose proof (ceilDiv_2_bounds b).
    split; intros Hlt.
    + destruct IH as [IH _]. specialize (IH Hlt).
      destruct (half_cases _ (proj1 IH)); split; try lia.
      all: apply Z.div_pos; lia.
    + destruct IH as [_ IH]. specialize (IH Hlt).
      destruct (half_cases _ (proj1 IH)); split; try lia.
      all: apply Z.div_pos; lia.
Qed.

Lemma level0_bounds this mip :
  0 < width this -> 0 < height this ->
  reduced (readBuffer this) (readBuffer this) (width this) (height this)
    (levelDims (width this) (height this) 1).1 0
    (levelDims (width this) (height this) 1).2 mip ->
  cellBounds this 0 mip.
Proof.
  intros Hw Hh Hred x y Hx Hy.
  destruct (Hred y x ltac:(lia) Hx) as (cell & Hld & H1 & H2 & H3).
  exists cell. split; [done|].
  intros px py d Hpx Hpy Ex Ey Hd.
  change (Z.of_nat 1) with 1 in Ex, Ey.
  rewrite (Z.shiftr_div_pow2 px 1) in Ex by lia.
  rewrite (Z.shiftr_div_pow2 py 1) in Ey by lia.
  change (2 ^ 1) with 2 in *.
  assert (Hcov : covers (readBuffer this) (readBuffer this) cell
                   (py * width this + px)).
  { destruct (half_cases px ltac:(lia)) as [Epx|Epx],
             (half_cases py ltac:(lia)) as [Epy|Epy].
    - replace (py * width this + px) with (2 * y * width this + 2 * x) by nia. done.
    - destruct H3 as [H3 _]; [lia|].
      replace (py * width this + px) with ((2 * y + 1) * width this + 2 * x) by nia.
      done.
    - replace (py * width this + px) with (2 * y * width this + 2 * x + 1) by nia.
      done.
    - destruct H3 as [_ H3]; [lia|].
      replace (py * width this + px) with ((2 * y + 1) * width this + 2 * x + 1)
        by nia.
      done. }
  destruct Hcov as (a & c & Ea & Ec & Hmin & Hmax).
  rewrite Hd in Ea, Ec. inversion Ea; inversion Ec; subst. lia.
Qed.

Lemma levelS_bounds this (N : nat) prev mip :
  0 < width this -> 0 < height this ->
  cellBounds this N prev ->
  reduced (cellMin prev) (cellMax prev)
    (levelDims (width this) (height this) (S N)).1
    (levelDims (width this) (height this) (S N)).2
    (levelDims (width this) (height this) (S (S N))).1 0
    (levelDims (width this) (height this) (S (S N))).2 mip ->
  cellBounds this (S N) mip.
Proof.
  intros Hw Hh Hprev Hred x y Hx Hy.
  destruct (Hred y x ltac:(lia) Hx) as (cell & Hld & H1 & H2 & H3).
  exists cell. split; [done|].
  intros px py d Hpx Hpy Ex Ey Hd.
  rewrite shiftr_S in Ex, Ey.
  set (W := (levelDims (width this) (height this) (S N)).1) in *.
  set (Hp := (levelDims (width this) (height this) (S N)).2) in *.
  set (x1 := Z.shiftr px (Z.of_nat (S N))) in *.
  set (y1 := Z.shiftr py (Z.of_nat (S N))) in *.
  destruct (shiftr_level_bound (width this) (height this) px (S N) Hw Hh ltac:(lia))
    as [Bx _]. specialize (Bx ltac:(lia)). fold x1 W in Bx.
  destruct (shiftr_level_bound (width this) (height this) py (S N) Hw Hh ltac:(lia))
    as [_ By]. specialize (By ltac:(lia)). fold y1 Hp in By.
  destruct (Hprev x1 y1 Bx By) as (pc & Hpc & Hb).
  specialize (Hb px py d Hpx Hpy eq_refl eq_refl Hd).
  assert (Hcov : covers (cellMin prev) (cellMax prev) cell (y1 * W + x1)).
  { destruct (half_cases x1 ltac:(lia)) as [Epx|Epx],
             (half_cases y1 ltac:(lia)) as [Epy|Epy].
    - replace (y1 * W + x1) with (2 * y * W + 2 * x) by nia. done.
    - destruct H3 as [H3 _]; [lia|].
      replace (y1 * W + x1) with ((2 * y + 1) * W + 2 * x) by nia. done.
    - replace (y1 * W + x1) with (2 * y * W + 2 * x + 1) by nia. done.
    - destruct H3 as [_ H3]; [lia|].
      replace (y1 * W + x1) with ((2 * y + 1) * W + 2 * x + 1) by nia. done. }
  destruct Hcov as (a & c & Ea & Ec & Hmin & Hmax).
  unfold cellMin, cellMax in Ea, Ec. fold W in Hpc.
  rewrite Hpc in Ea, Ec. simpl in Ea, Ec.
  inversion Ea; inversion Ec; subst. lia.
Qed.


Lemma reduceLevel_reduced srcMin srcMax sw shh mw mh mip mip' :
  0 <= mw -> 0 <= mh ->
  reduceLevel srcMin srcMax sw shh mw mh mip = Some mip' ->
  length mip' = length mip /\ reduced srcMin srcMax sw shh mw 0 mh mip'.
Proof.
  intros Hmw Hmh Hr. unfold reduceLevel in Hr.
  apply reduceRows_spec in Hr; [|lia..].
  destruct Hr as (Hl & Hred & _). rewrite Z2Nat.id in Hred by lia. done.
Qed.

Lemma halve_levelDims w h (k : nat) :
  0 < w -> 0 < h ->
  ((levelDims w h k).1 + 1) ÷ 2 = (levelDims w h (S k)).1 /\
  ((levelDims w h k).2 + 1) ÷ 2 = (levelDims w h (S k)).2.
Proof.
  intros Hw Hh. destruct (levelDims_pos w h k Hw Hh).
  rewrite levelDims_S. unfold halveDims. simpl.
  split; apply ceilDiv_2; lia.
Qed.

(** The loop over the levels keeps the levels below [i] and makes level
    [i] bound the pixels through level [i - 1]. *)
Lemma buildRest_spec this n : forall (i : nat) mips ready mips' ready',
  0 < width this -> 0 < height this -> (1 <= i)%nat ->
  (forall (j : nat) mip, (j < i)%nat -> mips !! j = Some mip -> cellBounds this j mip) ->
  buildRest n (Z.of_nat i)
    (levelDims (width this) (height this) i).1
    (levelDims (width this) (height this) i).2 mips ready = Some (mips', ready') ->
  length mips' = length mips /\
  ready' = ready + Z.of_nat n /\
  (forall (j : nat) mip, (j < i + n)%nat -> mips' !! j = Some mip ->
     cellBounds this j mip).
Proof.
  induction n as [|n IH]; intros i mips ready mips' ready' Hw Hh Hi Hinv Hb.
  - simpl in Hb. inversion Hb; subst. split; [done|]. split; [lia|].
    intros j mip Hj. apply Hinv. lia.
  - simpl in Hb.
    destruct (halve_levelDims (width this) (height this) i Hw Hh) as [EW EH].
    rewrite EW, EH in Hb.
    destruct (load mips (Z.of_nat i - 1)) as [prev|] eqn:Eprev; [|done].
    destruct (load mips (Z.of_nat i)) as [cur|] eqn:Ecur; [|done].
    simpl in Hb.
    destruct (reduceLevel _ _ _ _ _ _ cur) as [cur'|] eqn:Ered; [|done].
    simpl in Hb.
    destruct (store mips (Z.of_nat i) cur') as [mips1|] eqn:Est; [|done].
    simpl in Hb.
    change (ceilDiv (levelDims (width this) (height this) i).1 2)
      with (levelDims (width this) (height this) (S i)).1 in *.
    change (ceilDiv (levelDims (width this) (height this) i).2 2)
      with (levelDims (width this) (height this) (S i)).2 in *.
    destruct (levelDims_pos (width this) (height this) (S i) Hw Hh).
    apply reduceLevel_reduced in Ered as [_ Hred]; [|lia..].
    destruct i as [|i0]; [lia|].
    assert (Hprev : cellBounds this i0 prev).
    { apply Hinv; [lia|]. rewrite load_lookup in Eprev by lia.
      replace (Z.to_nat (Z.of_nat (S i0) - 1)) with i0 in Eprev by lia. done. }
    pose proof (levelS_bounds this i0 prev cur' Hw Hh Hprev Hred) as Hnew.
    apply store_Some in Est as [Hrange ->].
    replace (Z.of_nat (S i0) + 1) with (Z.of_nat (S (S i0))) in Hb by lia.
    apply IH in Hb; [|done..| |].
    + destruct Hb as (Hl & Hr & Hall). rewrite length_insert in Hl.
      split; [done|]. split; [lia|].
      intros j mip Hj. apply Hall. lia.
    + lia.
    + intros j mip Hj Hlk.
      destruct (decide (j = S i0)) as [->|Hne].
      * rewrite Nat2Z.id, list_lookup_insert_eq in Hlk by lia.
        inversion Hlk; subst. done.
      * rewrite list_lookup_insert_ne in Hlk by lia.
        apply (Hinv j); [lia|done].
Qed.

(** C2.  When the build of the hierarchy has run to its end on an object of
    positive size, every cell of every level exists and its [min] and
    [max] enclose every pixel of the raw buffer in the region that the
    cell covers (the pixels whose coordinates shifted right by [N + 1] are
    the cell's); the build leaves the raw buffer and the size alone and
    counts every level as ready. *)
Theorem BuildDepthHierarchyWork_conservative this this' :
  0 < width this -> 0 < height this ->
  BuildDepthHierarchyWork this = Some this' ->
  conservative this this' /\
  length (mipBuffers this') = length (mipBuffers this) /\
  numReadyMipBuffers this'
  = numReadyMipBuffers this + Z.of_nat (length (mipBuffers this)) /\
  fullBuffer this' = fullBuffer this /\ buffer this' = buffer this /\
  width this' = width this /\ height this' = height this.
Proof.
  intros Hw Hh Hb. unfold BuildDepthHierarchyWork in Hb.
  destruct (halve_levelDims (width this) (height this) 0 Hw Hh) as [EW EH].
  change (levelDims (width this) (height this) 0) with (width this, height this)
    in EW, EH.
  simpl in EW, EH. rewrite EW, EH in Hb.
  destruct (load (mipBuffers this) 0) as [mip0|] eqn:E0; [|done]. simpl in Hb.
  destruct (reduceLevel _ _ _ _ _ _ mip0) as [mip0'|] eqn:Ered; [|done].
  simpl in Hb.
  destruct (store (mipBuffers this) 0 mip0') as [mips|] eqn:Est; [|done].
  simpl in Hb.
  destruct (buildRest _ _ _ _ _ _) as [[mips' ready']|] eqn:Erest; [|done].
  simpl in Hb. inversion Hb; subst this'; clear Hb. simpl.
  change (ceilDiv (width this) 2)
    with (levelDims (width this) (height this) 1).1 in *.
  change (ceilDiv (height this) 2)
    with (levelDims (width this) (height this) 1).2 in *.
  destruct (levelDims_pos (width this) (height this) 1 Hw Hh).
  apply reduceLevel_reduced in Ered as [_ Hred]; [|lia..].
  pose proof (level0_bounds this mip0' Hw Hh Hred) as H0'.
  apply store_Some in Est as [Hrange ->].
  change 1 with (Z.of_nat 1) in Erest.
  apply buildRest_spec in Erest; [|done|done|lia|].
  - destruct Erest as (Hl & Hr & Hall). rewrite length_insert in Hl.
    split; [|split; [done|split; [lia|done]]].
    intros N mip Hlk. apply (Hall N mip); [|done].
    apply lookup_lt_Some in Hlk. simpl in Hlk. lia.
  - intros j mip Hj Hlk. assert (j = 0%nat) as -> by lia.
    change (Z.to_nat 0) with 0%nat in Hlk.
    rewrite list_lookup_insert_eq in Hlk by lia. inversion Hlk; subst. done.
Qed.


Lemma level0_readable this :
  sized this ->
  sourceReadable (readBuffer this) (readBuffer this) (width this) (height this)
    (levelDims (width this) (height this) 1).1 0
    (levelDims (width this) (height this) 1).2.
Proof.
  intros (Hw & Hh & Hbuf & Hlen & _).
  assert (Hrd : forall o, 0 <= o <= width this * height this ->
            readable (readBuffer this) (readBuffer this) o).
  { intros o Ho. unfold readable, readBuffer. rewrite Hbuf. simpl.
    split; apply load_is_Some; rewrite Hlen; nia. }
  change (levelDims (width this) (height this) 1)
    with (ceilDiv (width this) 2, ceilDiv (height this) 2). simpl.
  pose proof (ceilDiv_2_bounds (width this)).
  pose proof (ceilDiv_2_bounds (height this)).
  intros y x Hy Hx. repeat split; try intros Hrow; apply Hrd; nia.
Qed.

Lemma levelS_readable (prev : list DepthValue) W Hh :
  0 < W -> 0 < Hh -> Z.even W = true ->
  length prev = Z.to_nat (W * Hh) ->
  sourceReadable (cellMin prev) (cellMax prev) W Hh (ceilDiv W 2) 0 (ceilDiv Hh 2).
Proof.
  intros HW HH Heven Hlen.
  assert (Hrd : forall o, 0 <= o < W * Hh ->
            readable (cellMin prev) (cellMax prev) o).
  { intros o Ho. unfold readable, cellMin, cellMax.
    destruct (load_is_Some prev o ltac:(lia)) as [c ->]. simpl. eauto. }
  apply Z.even_spec in Heven as [m ->].
  pose proof (ceilDiv_2_bounds (2 * m)). pose proof (ceilDiv_2_bounds Hh).
  intros y x Hy Hx. repeat split; try intros Hrow; apply Hrd; nia.
Qed.

Lemma reduceLevel_total srcMin srcMax sw shh mw mh mip :
  0 <= mw -> 0 <= mh ->
  sourceReadable srcMin srcMax sw shh mw 0 mh ->
  mh * mw <= Z.of_nat (length mip) ->
  is_Some (reduceLevel srcMin srcMax sw shh mw mh mip).
Proof.
  intros Hmw Hmh Hread Hlen. unfold reduceLevel.
  apply reduceRows_total; rewrite ?Z2Nat.id by lia; try lia; done.
Qed.

Lemma buildRest_total this n : forall (i : nat) mips ready,
  0 < width this -> 0 < height this -> (1 <= i)%nat ->
  (i + n = length mips)%nat ->
  levelSized this mips ->
  (forall j : nat, (S j < length mips)%nat ->
     Z.even (levelDims (width this) (height this) (S j)).1 = true) ->
  is_Some (buildRest n (Z.of_nat i)
             (levelDims (width this) (height this) i).1
             (levelDims (width this) (height this) i).2 mips ready).
Proof.
  induction n as [|n IH]; intros i mips ready Hw Hh Hi Hlen Hsz Hev; [by eexists|].
  cbn -[levelDims].
  destruct (halve_levelDims (width this) (height this) i Hw Hh) as [EW EH].
  rewrite EW, EH.
  destruct i as [|i0]; [lia|].
  destruct (lookup_lt_is_Some_2 mips i0 ltac:(lia)) as [prev Eprev].
  destruct (lookup_lt_is_Some_2 mips (S i0) ltac:(lia)) as [cur Ecur].
  rewrite !load_lookup by lia.
  replace (Z.to_nat (Z.of_nat (S i0) - 1)) with i0 by lia.
  rewrite Nat2Z.id, Eprev, Ecur. cbn -[levelDims].
  destruct (levelDims_pos (width this) (height this) (S i0) Hw Hh) as [P1 P2].
  destruct (levelDims_pos (width this) (height this) (S (S i0)) Hw Hh) as [Q1 Q2].
  destruct (reduceLevel_total (cellMin prev) (cellMax prev)
              (levelDims (width this) (height this) (S i0)).1
              (levelDims (width this) (height this) (S i0)).2
              (levelDims (width this) (height this) (S (S i0))).1
              (levelDims (width this) (height this) (S (S i0))).2 cur)
    as [cur' Ered]; [lia|lia| | |].
  - apply (levelS_readable prev); [done|done|apply Hev; lia|by apply Hsz].
  - rewrite (Hsz _ _ Ecur). lia.
  - change (ceilDiv (levelDims (width this) (height this) (S i0)).1 2)
      with (levelDims (width this) (height this) (S (S i0))).1.
    change (ceilDiv (levelDims (width this) (height this) (S i0)).2 2)
      with (levelDims (width this) (height this) (S (S i0))).2.
    rewrite Ered. cbn -[levelDims].
    rewrite store_in_range by lia. cbn -[levelDims]. rewrite Nat2Z.id.
    replace (Z.of_nat (S i0) + 1) with (Z.of_nat (S (S i0))) by lia.
    apply IH; [done|done|lia|rewrite length_insert; lia| |].
    + intros j mip Hj. destruct (decide (j = S i0)) as [->|Hne].
      * rewrite list_lookup_insert_eq in Hj by lia. inversion Hj; subst.
        apply reduceLevel_reduced in Ered as [-> _]; [|lia..]. by apply Hsz.
      * rewrite list_lookup_insert_ne in Hj by lia. by apply Hsz.
    + intros j Hj. apply Hev. by rewrite length_insert in Hj.
Qed.

(** The build runs to its end on an object that [SetSize] has sized, when
    no level but the last has an odd width. *)
Theorem BuildDepthHierarchyWork_completes this :
  sized this -> evenLevels this -> is_Some (BuildDepthHierarchyWork this).
Proof.
  intros Hsized Hev. pose proof Hsized as (Hw & Hh & Hbuf & Hlen & HL & Hsz).
  unfold BuildDepthHierarchyWork.
  destruct (halve_levelDims (width this) (height this) 0 Hw Hh) as [EW EH].
  change (levelDims (width this) (height this) 0) with (width this, height this)
    in EW, EH.
  cbn in EW, EH. rewrite EW, EH.
  destruct (lookup_lt_is_Some_2 (mipBuffers this) 0 ltac:(lia)) as [mip0 E0].
  rewrite load_lookup by lia. change (Z.to_nat 0) with 0%nat. rewrite E0. cbn -[levelDims].
  destruct (levelDims_pos (width this) (height this) 1 Hw Hh) as [P1 P2].
  destruct (reduceLevel_total (readBuffer this) (readBuffer this)
              (width this) (height this)
              (levelDims (width this) (height this) 1).1
              (levelDims (width this) (height this) 1).2 mip0)
    as [mip0' Ered]; [lia|lia|by apply level0_readable| |].
  - rewrite (Hsz _ _ E0). lia.
  - change (ceilDiv (width this) 2)
      with (levelDims (width this) (height this) 1).1.
    change (ceilDiv (height this) 2)
      with (levelDims (width this) (height this) 1).2.
    rewrite Ered. cbn -[levelDims]. rewrite store_in_range by lia. cbn -[levelDims].
    change (Z.to_nat 0) with 0%nat.
    destruct (buildRest_total this (length (mipBuffers this) - 1) 1
                (<[0%nat := mip0']> (mipBuffers this)) (numReadyMipBuffers this + 1)
                Hw Hh) as [[mips' ready'] Erest].
    + lia.
    + rewrite length_insert. lia.
    + intros j mip Hj. destruct (decide (j = 0%nat)) as [->|Hne].
      * rewrite list_lookup_insert_eq in Hj by lia. inversion Hj; subst.
        apply reduceLevel_reduced in Ered as [-> _]; [|lia..]. by apply Hsz.
      * rewrite list_lookup_insert_ne in Hj by lia. by apply Hsz.
    + intros j Hj. apply Hev. by rewrite length_insert in Hj.
    + change (Z.of_nat 1) with 1 in Erest. rewrite Erest. cbn -[levelDims]. eauto.
Qed.

End BuildFacts.

(** ** The visibility query: the search *)

Section IsVisibleSearch.
Context `{H : Header}.

(** Counting with [seqZ]. *)
Lemma seqZ_to_nat m n : seqZ m (Z.of_nat (Z.to_nat n)) = seqZ m n.
Proof. unfold seqZ. by rewrite Nat2Z.id. Qed.

Lemma seqZ_succ m (n : nat) : seqZ m (Z.of_nat (S n)) = m :: seqZ (m + 1) (Z.of_nat n).
Proof.
  rewrite seqZ_cons by lia. f_equal. f_equal; lia.
Qed.

(** The loop of line 271 over cells that can be read: it returns [true] at
    a cell with [z <= min], and otherwise keeps [allOccluded] while every
    cell has [max < z]. *)
Lemma scanCells_spec mip z base : forall n l a cs,
  mapM (fun col => load mip (base + col)) (seqZ l (Z.of_nat n)) = Some cs ->
  scanCells mip z n (base + l) a
  = Some (if existsb (nearerThan z) cs then Return true
          else Next (a && forallb (behindAll z) cs)).
Proof.
  induction n as [|n IH]; intros l a cs Hm.
  - simpl in Hm. inversion Hm; subst. simpl. by rewrite andb_true_r.
  - rewrite seqZ_succ in Hm. simpl in Hm.
    destruct (load mip (base + l)) as [cell|] eqn:Ecell; [|done]. simpl in Hm.
    destruct (mapM _ (seqZ (l + 1) (Z.of_nat n))) as [cs'|] eqn:Ecs; [|done].
    simpl in Hm. inversion Hm; subst. simpl. rewrite Ecell. simpl.
    unfold nearerThan at 1. destruct (z <=? dmin cell) eqn:Ehit; [done|]. simpl.
    replace (base + l + 1) with (base + (l + 1)) by lia.
    rewrite (IH _ _ _ Ecs).
    destruct (existsb (nearerThan z) cs'); [done|].
    do 2 f_equal. unfold behindAll at 2.
    destruct (z <=? dmax cell) eqn:E1, (dmax cell <? z) eqn:E2; try lia;
      by destruct a.
Qed.

(** The loop of line 267 over [m] rows of stride [mw > 0], with fuel for
    them. *)
Lemma scanRows_spec mip z left right mw : forall (m : nat) r0 r1 a css fuel,
  0 < mw -> (m < fuel)%nat -> Z.of_nat m = Z.max 0 (r1 - r0 + 1) ->
  mapM (fun row => mapM (fun col => load mip (row * mw + col))
                     (seqZ left (right - left + 1)))
    (seqZ r0 (Z.of_nat m)) = Some css ->
  scanRows fuel mip z (r0 * mw) (r1 * mw) left right mw a
  = Some (if existsb (nearerThan z) (concat css) then Return true
          else Next (a && forallb (behindAll z) (concat css))).
Proof.
  induction m as [|m IH]; intros r0 r1 a css fuel Hmw Hfuel Hrows Hm.
  - simpl in Hm. inversion Hm; subst. destruct fuel as [|fuel]; [lia|]. simpl.
    rewrite (proj2 (Z.leb_gt _ _)) by nia.
    by rewrite andb_true_r.
  - rewrite seqZ_succ in Hm. simpl in Hm.
    destruct (mapM _ (seqZ left (right - left + 1))) as [cs|] eqn:Ecs; [|done].
    simpl in Hm.
    destruct (mapM _ (seqZ (r0 + 1) (Z.of_nat m))) as [css'|] eqn:Ecss; [|done].
    simpl in Hm. inversion Hm; subst.
    destruct fuel as [|fuel]; [lia|]. simpl.
    rewrite (proj2 (Z.leb_le _ _)) by nia.
    rewrite <- seqZ_to_nat in Ecs.
    rewrite (scanCells_spec _ _ _ _ _ _ _ Ecs). simpl.
    rewrite existsb_app, forallb_app.
    destruct (existsb (nearerThan z) cs); [done|]. simpl.
    replace (r0 * mw + mw) with ((r0 + 1) * mw) by lia.
    assert (Hf' : (m < fuel)%nat) by lia.
    assert (Hrows' : Z.of_nat m = Z.max 0 (r1 - (r0 + 1) + 1)) by lia.
    rewrite (IH _ r1 _ _ fuel Hmw Hf' Hrows' Ecss).
    destruct (existsb (nearerThan z) (concat css')); [done|].
    by rewrite andb_assoc.
Qed.

Lemma coveredCells_Some {A} (read : Z -> option A) stride t b l r cs :
  coveredCells read stride t b l r = Some cs ->
  exists css,
    mapM (fun row => mapM (fun col => read (row * stride + col))
                       (seqZ l (r - l + 1)))
      (seqZ t (Z.of_nat (Z.to_nat (b - t + 1)))) = Some css /\
    cs = concat css.
Proof.
  unfold coveredCells. rewrite seqZ_to_nat.
  destruct (mapM _ _) as [css|]; [|done]. simpl. intros E. inversion E. eauto.
Qed.

(** One level, when its rows have the stride that [IsVisible] computes. *)
Lemma scanLevel_spec fuel this rect z (i : nat) cells :
  0 < Z.shiftr (width this) (Z.of_nat (S i)) ->
  Z.shiftr (width this) (Z.of_nat (S i))
  = (levelDims (width this) (height this) (S i)).1 ->
  Z.max 0 (Z.shiftr (IntRect.bottom rect) (Z.of_nat (S i))
           - Z.shiftr (IntRect.top rect) (Z.of_nat (S i)) + 1) < Z.of_nat fuel ->
  levelCellsIn this rect i = Some cells ->
  scanLevel fuel this rect z (Z.of_nat i)
  = Some (if existsb (nearerThan z) cells then Return true
          else if forallb (behindAll z) cells then Return false
          else Next tt).
Proof.
  intros Hmw Hstride Hfuel Hcells. unfold levelCellsIn in Hcells.
  destruct (mipBuffers this !! i) as [mip|] eqn:Emip; [|done].
  cbn -[levelDims Z.of_nat] in Hcells.
  apply coveredCells_Some in Hcells as (css & Hcss & ->).
  unfold scanLevel. rewrite load_lookup, Nat2Z.id, Emip by lia. simpl.
  replace (Z.of_nat i + 1) with (Z.of_nat (S i)) by lia.
  rewrite <- Hstride in Hcss.
  assert (Hf' : (Z.to_nat (Z.shiftr (IntRect.bottom rect) (Z.of_nat (S i))
                           - Z.shiftr (IntRect.top rect) (Z.of_nat (S i)) + 1)
                 < fuel)%nat) by lia.
  assert (Hrows : Z.of_nat (Z.to_nat (Z.shiftr (IntRect.bottom rect) (Z.of_nat (S i))
                           - Z.shiftr (IntRect.top rect) (Z.of_nat (S i)) + 1))
                  = Z.max 0 (Z.shiftr (IntRect.bottom rect) (Z.of_nat (S i))
                             - Z.shiftr (IntRect.top rect) (Z.of_nat (S i)) + 1))
    by lia.
  rewrite (scanRows_spec _ z _ _ _ _ _ _ true css fuel Hmw Hf' Hrows Hcss).
  simpl. destruct (existsb (nearerThan z) (concat css)); [done|].
  by destruct (forallb (behindAll z) (concat css)).
Qed.

(** The loop of line 255 is the specification's search, cut off before the
    pixels. *)
Lemma scanLevels_spec fuel this rect z : forall (n : nat) levels,
  (forall i : nat, (i < n)%nat ->
     0 < Z.shiftr (width this) (Z.of_nat (S i)) /\
     Z.shiftr (width this) (Z.of_nat (S i))
     = (levelDims (width this) (height this) (S i)).1 /\
     Z.max 0 (Z.shiftr (IntRect.bottom rect) (Z.of_nat (S i))
              - Z.shiftr (IntRect.top rect) (Z.of_nat (S i)) + 1)
     < Z.of_nat fuel) ->
  coveredLevels this rect n = Some levels ->
  scanLevels fuel this rect z n
  = Some (if searchLevels z levels [] then Return true
          else if forallb (fun cells => negb (forallb (behindAll z) cells)) levels
               then Next tt else Return false).
Proof.
  induction n as [|n IH]; intros levels Hok Hlev.
  - simpl in Hlev. inversion Hlev; subst. done.
  - simpl in Hlev.
    destruct (levelCellsIn this rect n) as [cells|] eqn:Ecells; [|done].
    simpl in Hlev.
    destruct (coveredLevels this rect n) as [finer|] eqn:Efiner; [|done].
    simpl in Hlev. inversion Hlev; subst. simpl.
    destruct (Hok n ltac:(lia)) as (H1 & H2 & H3).
    rewrite (scanLevel_spec fuel this rect z n cells H1 H2 H3 Ecells). simpl.
    destruct (existsb (nearerThan z) cells); [done|].
    destruct (forallb (behindAll z) cells); [done|]. simpl.
    apply IH; [|done]. intros i Hi. apply Hok. lia.
Qed.

Lemma searchLevels_split z pixels : forall levels,
  searchLevels z levels pixels
  = if searchLevels z levels [] then true
    else if forallb (fun cells => negb (forallb (behindAll z) cells)) levels
         then existsb (fun d => z <=? d) pixels else false.
Proof.
  induction levels as [|cells finer IH]; [done|]. simpl.
  destruct (existsb (nearerThan z) cells); [done|].
  destruct (forallb (behindAll z) cells); [done|]. simpl. apply IH.
Qed.

(** The loops of lines 287-300 over pixels that can be read. *)
Lemma scanPixels_spec this z base : forall n l ds,
  mapM (fun col => readBuffer this (base + col)) (seqZ l (Z.of_nat n)) = Some ds ->
  scanPixels this z n (base + l)
  = Some (if existsb (fun d => z <=? d) ds then Return true else Next tt).
Proof.
  induction n as [|n IH]; intros l ds Hm.
  - simpl in Hm. inversion Hm; subst. done.
  - rewrite seqZ_succ in Hm. simpl in Hm.
    destruct (readBuffer this (base + l)) as [d|] eqn:Ed; [|done]. simpl in Hm.
    destruct (mapM _ (seqZ (l + 1) (Z.of_nat n))) as [ds'|] eqn:Eds; [|done].
    simpl in Hm. inversion Hm; subst. simpl. rewrite Ed. simpl.
    destruct (z <=? d); [done|]. simpl.
    replace (base + l + 1) with (base + (l + 1)) by lia.
    apply IH. done.
Qed.

Lemma scanPixelRows_spec this rect z : forall (m : nat) r0 r1 dss fuel,
  0 < width this -> (m < fuel)%nat -> Z.of_nat m = Z.max 0 (r1 - r0 + 1) ->
  mapM (fun row => mapM (fun col => readBuffer this (row * width this + col))
                     (seqZ (IntRect.left rect)
                        (IntRect.right rect - IntRect.left rect + 1)))
    (seqZ r0 (Z.of_nat m)) = Some dss ->
  scanPixelRows fuel this rect z (r0 * width this) (r1 * width this)
  = Some (if existsb (fun d => z <=? d) (concat dss) then Return true else Next tt).
Proof.
  induction m as [|m IH]; intros r0 r1 dss fuel Hw Hfuel Hrows Hm.
  - simpl in Hm. inversion Hm; subst. destruct fuel as [|fuel]; [lia|]. simpl.
    by rewrite (proj2 (Z.leb_gt _ _)) by nia.
  - rewrite seqZ_succ in Hm. simpl in Hm.
    destruct (mapM _ (seqZ (IntRect.left rect) _)) as [ds|] eqn:Eds; [|done].
    simpl in Hm.
    destruct (mapM _ (seqZ (r0 + 1) (Z.of_nat m))) as [dss'|] eqn:Edss; [|done].
    simpl in Hm. inversion Hm; subst.
    destruct fuel as [|fuel]; [lia|]. simpl.
    rewrite (proj2 (Z.leb_le _ _)) by nia.
    rewrite <- seqZ_to_nat in Eds.
    rewrite (scanPixels_spec _ _ _ _ _ _ Eds). simpl.
    rewrite existsb_app.
    destruct (existsb (fun d => z <=? d) ds); [done|]. simpl.
    replace (r0 * width this + width this) with ((r0 + 1) * width this) by lia.
    assert (Hf' : (m < fuel)%nat) by lia.
    assert (Hrows' : Z.of_nat m = Z.max 0 (r1 - (r0 + 1) + 1)) by lia.
    apply (IH _ r1 _ fuel Hw Hf' Hrows' Edss).
Qed.

(** Lines 252-302 compute the specification's search of the covered cells and
    pixels, when the strides are right and the covered cells and pixels
    can be read. *)
Theorem searchDepth_spec fuel this rect z levels pixels :
  0 <= numReadyMipBuffers this ->
  strideOk fuel this rect (Z.to_nat (numReadyMipBuffers this)) ->
  coveredLevels this rect (Z.to_nat (numReadyMipBuffers this)) = Some levels ->
  coveredPixels this rect = Some pixels ->
  searchDepth fuel this rect z = Some (searchLevels z levels pixels).
Proof.
  intros Hready (Hw & Hfuel & Hlevels) Hlev Hpix.
  unfold searchDepth.
  rewrite (scanLevels_spec fuel this rect z _ levels Hlevels Hlev).
  rewrite (searchLevels_split z pixels levels).
  destruct (searchLevels z levels []); [done|].
  destruct (forallb _ levels); [|done]. simpl.
  apply coveredCells_Some in Hpix as (dss & Hdss & ->).
  assert (Hf' : (Z.to_nat (IntRect.bottom rect - IntRect.top rect + 1) < fuel)%nat)
    by lia.
  assert (Hrows : Z.of_nat (Z.to_nat (IntRect.bottom rect - IntRect.top rect + 1))
                  = Z.max 0 (IntRect.bottom rect - IntRect.top rect + 1)) by lia.
  rewrite (scanPixelRows_spec this rect z _ _ _ dss fuel Hw Hf' Hrows Hdss).
  simpl. by destruct (existsb _ (concat dss)).
Qed.



(** The covered cells can be read when every one of them is inside the
    array. *)
Lemma coveredCells_is_Some {A} (read : Z -> option A) stride t b l r :
  (forall row col, t <= row <= b -> l <= col <= r ->
     is_Some (read (row * stride + col))) ->
  is_Some (coveredCells read stride t b l r).
Proof.
  intros Hread. unfold coveredCells.
  apply fmap_is_Some, mapM_is_Some_2, list.Forall_forall. intros row Hrow.
  apply elem_of_seqZ in Hrow. simpl.
  apply mapM_is_Some_2, list.Forall_forall. intros col Hcol.
  apply elem_of_seqZ in Hcol. simpl. apply Hread; lia.
Qed.

(** Lines 242-249 leave a clamped rectangle. *)
Lemma queryRect_clamped this e : clamped this (queryRect this e).
Proof.
  unfold clamped, queryRect. simpl.
  repeat split.
  - destruct (_ <? 0) eqn:E; lia.
  - destruct (_ <? 0) eqn:E; lia.
  - destruct (_ >=? width this) eqn:E; lia.
  - destruct (_ >=? height this) eqn:E; lia.
Qed.

Lemma shiftr_le p s : 0 <= s -> 0 <= p -> 0 <= Z.shiftr p s <= p.
Proof.
  intros Hs Hp. split; [by apply Z.shiftr_nonneg|].
  rewrite Z.shiftr_div_pow2 by lia.
  apply Z.div_le_upper_bound; [lia|].
  assert (0 < 2 ^ s) by lia. nia.
Qed.

(** Halving a power of two rounds nothing: the width of level [j] of a
    buffer [2^k] wide is [2^(k - j)], which is also [2^k >> j]. *)
Lemma levelDims_pow2 (k : nat) h (j : nat) :
  (j <= k)%nat -> (levelDims (2 ^ Z.of_nat k) h j).1 = 2 ^ Z.of_nat (k - j).
Proof.
  induction j as [|j IH]; intros Hj.
  - simpl. by rewrite Nat.sub_0_r.
  - rewrite levelDims_S. unfold halveDims. simpl. rewrite IH by lia.
    replace (Z.of_nat (k - j)) with (Z.succ (Z.of_nat (k - S j))) by lia.
    rewrite Z.pow_succ_r by lia.
    pose proof (ceilDiv_2_bounds (2 * 2 ^ Z.of_nat (k - S j))). lia.
Qed.

Lemma shiftr_pow2 (k s : nat) :
  (s <= k)%nat -> Z.shiftr (2 ^ Z.of_nat k) (Z.of_nat s) = 2 ^ Z.of_nat (k - s).
Proof.
  intros Hs. rewrite Z.shiftr_div_pow2 by lia.
  replace (Z.of_nat (k - s)) with (Z.of_nat k - Z.of_nat s) by lia.
  symmetry. apply Z.pow_sub_r; lia.
Qed.

(** A power-of-two width with as many halvings as there are ready levels
    makes the strides right. *)
Lemma pow2_strideOk fuel this rect (k n : nat) :
  width this = 2 ^ Z.of_nat k -> (n <= k)%nat ->
  clamped this rect -> 0 < height this < Z.of_nat fuel ->
  strideOk fuel this rect n.
Proof.
  intros Hw Hn (Hl & Ht & Hr & Hb) Hfuel.
  split; [rewrite Hw; lia|]. split; [lia|].
  intros i Hi. rewrite Hw, shiftr_pow2, levelDims_pow2 by lia.
  split; [lia|]. split; [done|].
  destruct (decide (0 <= IntRect.bottom rect)) as [Hb0|Hb0].
  - pose proof (shiftr_le (IntRect.bottom rect) (Z.of_nat (S i)) ltac:(lia) Hb0).
    pose proof (shiftr_le (IntRect.top rect) (Z.of_nat (S i)) ltac:(lia) Ht).
    lia.
  - assert (Z.shiftr (IntRect.bottom rect) (Z.of_nat (S i)) < 0)
      by (apply Z.shiftr_neg; lia).
    pose proof (shiftr_le (IntRect.top rect) (Z.of_nat (S i)) ltac:(lia) Ht).
    lia.
Qed.

(** On an object that [SetSize] has sized, the cells and the pixels that
    a clamped rectangle covers are inside the allocations. *)
Lemma levelCellsIn_is_Some this rect (i : nat) :
  sized this -> clamped this rect -> (i < length (mipBuffers this))%nat ->
  is_Some (levelCellsIn this rect i).
Proof.
  intros (Hw & Hh & _ & _ & _ & Hsz) (Hl & Ht & Hr & Hb) Hi.
  unfold levelCellsIn.
  destruct (lookup_lt_is_Some_2 _ _ Hi) as [mip Emip]. rewrite Emip.
  cbn -[levelDims Z.of_nat].
  apply coveredCells_is_Some. intros row col Hrow Hcol.
  apply load_is_Some. rewrite (Hsz _ _ Emip).
  destruct (levelDims_pos (width this) (height this) (S i) Hw Hh) as [P1 P2].
  pose proof (shiftr_le (IntRect.top rect) (Z.of_nat (S i)) ltac:(lia) Ht).
  pose proof (shiftr_le (IntRect.left rect) (Z.of_nat (S i)) ltac:(lia) Hl).
  assert (Hb0 : 0 <= IntRect.bottom rect).
  { apply (Z.shiftr_nonneg _ (Z.of_nat (S i))). lia. }
  assert (Hr0 : 0 <= IntRect.right rect).
  { apply (Z.shiftr_nonneg _ (Z.of_nat (S i))). lia. }
  destruct (shiftr_level_bound (width this) (height this) (IntRect.bottom rect)
              (S i) Hw Hh Hb0) as [_ Bb]. specialize (Bb Hb).
  destruct (shiftr_level_bound (width this) (height this) (IntRect.right rect)
              (S i) Hw Hh Hr0) as [Br _]. specialize (Br Hr).
  rewrite Z2Nat.id by nia. nia.
Qed.

Lemma coveredLevels_is_Some this rect : forall n : nat,
  sized this -> clamped this rect -> (n <= length (mipBuffers this))%nat ->
  is_Some (coveredLevels this rect n).
Proof.
  induction n as [|n IH]; intros Hs Hc Hn; [by eexists|].
  simpl.
  destruct (levelCellsIn_is_Some this rect n Hs Hc ltac:(lia)) as [cells ->].
  destruct (IH Hs Hc ltac:(lia)) as [finer ->]. simpl. eauto.
Qed.

Lemma coveredPixels_is_Some this rect :
  sized this -> clamped this rect -> is_Some (coveredPixels this rect).
Proof.
  intros (Hw & Hh & Hbuf & Hlen & _) (Hl & Ht & Hr & Hb).
  apply coveredCells_is_Some. intros row col Hrow Hcol.
  unfold readBuffer. rewrite Hbuf. simpl.
  apply load_is_Some. rewrite Hlen. nia.
Qed.

(** With every corner in front of the near plane the loop of line 212
    runs to its end. *)
Lemma projectRest_front this vs : forall e,
  existsb (fun v => f_le (Vector4.z v) f_zero) vs = false ->
  exists e', projectRest this vs e = Next e'.
Proof.
  induction vs as [|v vs IH]; intros e Hex; [by eexists|].
  simpl in *. destruct (f_le (Vector4.z v) f_zero); [done|].
  by apply IH.
Qed.

Lemma projectCorners_front this vs :
  vs <> [] ->
  existsb (fun v => f_le (Vector4.z v) f_zero) vs = false ->
  exists e, projectCorners this vs = Next e.
Proof.
  destruct vs as [|v vs]; [done|]. intros _. simpl.
  destruct (f_le (Vector4.z v) f_zero); [done|]. simpl.
  apply projectRest_front.
Qed.

(** On an object that [SetSize] has sized with a width [2^k], with at most
    [k] levels ready, after a batch was submitted, a query whose corners
    are all in front of the near plane returns, and its answer is the
    search of the specification over the cells and the pixels that the clamped
    rectangle covers: [true] at the first level, from the coarsest on, that
    has a covered cell with [z <= min]; [false] at the first level whose
    covered cells all have [z > max]; at the pixels, whether [z <=] some
    covered pixel. *)
Theorem IsVisible_search fuel this box (k : nat) :
  sized this ->
  width this = 2 ^ Z.of_nat k ->
  0 <= numReadyMipBuffers this <= Z.of_nat (length (mipBuffers this)) ->
  numReadyMipBuffers this <= Z.of_nat k ->
  numTriangleBatches this <> 0 ->
  crossesNearPlane this box = false ->
  height this < Z.of_nat fuel ->
  exists e levels pixels,
    projectCorners this (clipCorners this box) = Next e /\
    coveredLevels this (queryRect this e) (Z.to_nat (numReadyMipBuffers this))
    = Some levels /\
    coveredPixels this (queryRect this e) = Some pixels /\
    IsVisible fuel this box
    = Some (searchLevels (queryDepth this e) levels pixels).
Proof.
  intros Hs Hw Hready Hk Hbatches Hfront Hfuel.
  destruct (projectCorners_front this (clipCorners this box) ltac:(done) Hfront)
    as [e He].
  pose proof (queryRect_clamped this e) as Hc.
  destruct (coveredLevels_is_Some this (queryRect this e)
              (Z.to_nat (numReadyMipBuffers this)) Hs Hc ltac:(lia))
    as [levels Hlev].
  destruct (coveredPixels_is_Some this (queryRect this e) Hs Hc) as [pixels Hpix].
  exists e, levels, pixels. split; [done|]. split; [done|]. split; [done|].
  unfold IsVisible. pose proof Hs as (_ & _ & Hbuf & _).
  rewrite Hbuf. rewrite bool_decide_eq_false_2 by done.
  rewrite (proj2 (Z.eqb_neq _ _) Hbatches). cbn [orb]. rewrite He.
  apply searchDepth_spec; [lia| |done|done].
  pose proof Hs as (_ & Hh & _).
  apply (pow2_strideOk fuel this _ k); [done|lia|done|lia].
Qed.


(** ** A level stride of zero *)

(** Whether a row's scan returns does not depend on [allOccluded]. *)
Lemma scanCells_inconclusive mip z n : forall src a a',
  scanCells mip z n src a = Some (Next a') ->
  forall b, exists b', scanCells mip z n src b = Some (Next b').
Proof.
  induction n as [|n IH]; intros src a a' Hscan b; simpl in *; [by eexists|].
  destruct (load mip src) as [cell|]; simpl in *; [|done].
  destruct (z <=? dmin cell); [done|]. by eapply IH.
Qed.

(** With [mipWidth = 0] the statement [row += mipWidth] of line 279 leaves
    [row] where it is: when the row's scan does not return, the loop of
    line 267 runs for ever. *)
Lemma scanRows_stuck mip z row endRow left right : forall fuel a a',
  row <= endRow ->
  scanCells mip z (Z.to_nat (right - left + 1)) (row + left) a = Some (Next a') ->
  scanRows fuel mip z row endRow left right 0 a = None.
Proof.
  induction fuel as [|fuel IH]; intros a a' Hrow Hscan; [done|].
  simpl. rewrite (proj2 (Z.leb_le _ _) Hrow), Hscan. simpl.
  rewrite Z.add_0_r.
  destruct (scanCells_inconclusive _ _ _ _ _ _ Hscan a') as [b' Hb'].
  by eapply IH.
Qed.

(** A level whose stride [width >> (i + 1)] is zero, and whose first row
    has no cell with [z <= min], is never left: no amount of fuel gives a
    result. *)
Lemma scanLevel_stuck fuel this rect z (i : nat) mip a' :
  Z.shiftr (width this) (Z.of_nat (S i)) = 0 ->
  mipBuffers this !! i = Some mip ->
  scanCells mip z
    (Z.to_nat (Z.shiftr (IntRect.right rect) (Z.of_nat (S i))
               - Z.shiftr (IntRect.left rect) (Z.of_nat (S i)) + 1))
    (Z.shiftr (IntRect.left rect) (Z.of_nat (S i))) true = Some (Next a') ->
  scanLevel fuel this rect z (Z.of_nat i) = None.
Proof.
  intros Hw Hmip Hscan. unfold scanLevel.
  replace (Z.of_nat i + 1) with (Z.of_nat (S i)) by lia.
  rewrite Hw, load_lookup, Nat2Z.id, Hmip by lia. cbn [mbind option_bind].
  rewrite !Z.mul_0_r.
  by rewrite (scanRows_stuck mip z 0 0 _ _ fuel true a' ltac:(lia) Hscan).
Qed.

End IsVisibleSearch.

(** ** The clipper's arrays and the batch's buckets *)

Section ClipBounds.
Context `{H : Header}.

Lemma clipInto_fits (vs : list Vector4) dst a b da db :
  0 <= dst < Z.of_nat (length vs) -> 0 <= a < Z.of_nat (length vs) ->
  0 <= b < Z.of_nat (length vs) ->
  exists vs', clipInto vs dst a b da db = Some vs' /\ length vs' = length vs.
Proof.
  intros Hd Ha Hb.
  destruct (load_is_Some vs a Ha) as [va Hva].
  destruct (load_is_Some vs b Hb) as [vb Hvb].
  rewrite (clipInto_Some vs dst a b da db va vb Hva Hvb Hd).
  eexists. split; [done|]. by rewrite length_insert.
Qed.

Lemma copyInto_fits (vs : list Vector4) dst src :
  0 <= dst < Z.of_nat (length vs) -> 0 <= src < Z.of_nat (length vs) ->
  exists vs', copyInto vs dst src = Some vs' /\ length vs' = length vs.
Proof.
  intros Hd Ha.
  destruct (load_is_Some vs src Ha) as [va Hva].
  rewrite (copyInto_Some vs dst src va Hva Hd).
  eexists. split; [done|]. by rewrite length_insert.
Qed.

Ltac fits :=
  repeat match goal with
  | |- context [clipInto ?vs ?dst ?a ?b ?da ?db] =>
      let vs' := fresh "vs" in let E := fresh "E" in let L := fresh "L" in
      destruct (clipInto_fits vs dst a b da db) as (vs' & E & L);
      [lia|lia|lia|rewrite E; cbn [mbind option_bind]]
  | |- context [copyInto ?vs ?dst ?src] =>
      let vs' := fresh "vs" in let E := fresh "E" in let L := fresh "L" in
      destruct (copyInto_fits vs dst src) as (vs' & E & L);
      [lia|lia|rewrite E; cbn [mbind option_bind]]
  end.

(** One step of a pass, with room for one more triangle: it stays inside
    both arrays and appends at most one triangle. *)
Lemma clipTriangle_fits plane i st :
  0 <= i < numClipTriangles st ->
  numClipTriangles st < Z.of_nat (length (clipTriangles st)) ->
  3 * Z.of_nat (length (clipTriangles st)) <= Z.of_nat (length (clipVerts st)) ->
  exists st',
    clipTriangle plane i st = Some st' /\
    length (clipTriangles st') = length (clipTriangles st) /\
    length (clipVerts st') = length (clipVerts st) /\
    numClipTriangles st <= numClipTriangles st' <= numClipTriangles st + 1.
Proof.
  intros Hi Hroom Hverts. destruct st as [vs ct num]. simpl in *.
  unfold clipTriangle. simpl.
  destruct (load_is_Some ct i ltac:(lia)) as [active ->]. simpl.
  destruct active; [|eexists; split; [done|]; simpl; lia].
  destruct (load_is_Some vs (i * 3) ltac:(lia)) as [v0 ->].
  destruct (load_is_Some vs (i * 3 + 1) ltac:(lia)) as [v1 ->].
  destruct (load_is_Some vs (i * 3 + 2) ltac:(lia)) as [v2 ->]. simpl.
  destruct (behind (DotProduct plane v0)), (behind (DotProduct plane v1)),
    (behind (DotProduct plane v2)); simpl.
  all: unfold appendTriangle; simpl.
  all: try (rewrite (store_in_range ct) by lia; simpl).
  all: fits.
  all: eexists; (split; [reflexivity|]); simpl; rewrite ?length_insert; lia.
Qed.

Lemma clipLoop_fits plane : forall (n : nat) i st,
  0 <= i -> i + Z.of_nat n <= numClipTriangles st ->
  numClipTriangles st + Z.of_nat n <= Z.of_nat (length (clipTriangles st)) ->
  3 * Z.of_nat (length (clipTriangles st)) <= Z.of_nat (length (clipVerts st)) ->
  exists st',
    clipLoop plane n i st = Some st' /\
    length (clipTriangles st') = length (clipTriangles st) /\
    length (clipVerts st') = length (clipVerts st) /\
    numClipTriangles st <= numClipTriangles st' <= numClipTriangles st + Z.of_nat n.
Proof.
  induction n as [|n IH]; intros i st Hi Hn Hroom Hverts.
  - exists st. simpl. repeat split; lia.
  - simpl clipLoop.
    destruct (clipTriangle_fits plane i st) as (st1 & -> & L1 & L2 & Hnum);
      [lia..|].
    cbn [mbind option_bind].
    destruct (IH (i + 1) st1) as (st' & -> & L1' & L2' & Hnum'); [lia..|].
    exists st'. split; [done|]. repeat split; lia.
Qed.


(** A pass of [ClipVertices] at most doubles the number of candidates; with
    room for that, it stays inside both arrays. *)
Lemma ClipVertices_fits plane st :
  0 <= numClipTriangles st ->
  2 * numClipTriangles st <= Z.of_nat (length (clipTriangles st)) ->
  3 * Z.of_nat (length (clipTriangles st)) <= Z.of_nat (length (clipVerts st)) ->
  exists st',
    ClipVertices plane st = Some st' /\
    length (clipTriangles st') = length (clipTriangles st) /\
    length (clipVerts st') = length (clipVerts st) /\
    numClipTriangles st <= numClipTriangles st' <= 2 * numClipTriangles st.
Proof.
  intros Hnum Hroom Hverts. unfold ClipVertices.
  destruct (clipLoop_fits plane (Z.to_nat (numClipTriangles st)) 0 st)
    as (st' & -> & L1 & L2 & Hn); [lia..|].
  exists st'. split; [done|]. repeat split; lia.
Qed.

Lemma clipAgainst_fits clipMask bit plane st :
  0 <= numClipTriangles st ->
  2 * numClipTriangles st <= Z.of_nat (length (clipTriangles st)) ->
  3 * Z.of_nat (length (clipTriangles st)) <= Z.of_nat (length (clipVerts st)) ->
  exists st',
    clipAgainst clipMask bit plane st = Some st' /\
    length (clipTriangles st') = length (clipTriangles st) /\
    length (clipVerts st') = length (clipVerts st) /\
    numClipTriangles st <= numClipTriangles st' <= 2 * numClipTriangles st.
Proof.
  intros Hnum Hroom Hverts. unfold clipAgainst.
  destruct (Z.land clipMask bit =? 0).
  - exists st. split; [done|]. repeat split; lia.
  - by apply ClipVertices_fits.
Qed.


Lemma sorted_app (a b : list Z) (m : Z) :
  StronglySorted Z.lt a -> StronglySorted Z.lt b ->
  Forall (fun x => x < m) a -> Forall (fun x => m <= x) b ->
  StronglySorted Z.lt (a ++ b).
Proof.
  intros Ha Hb Hlt Hge. induction Ha as [|x a Ha IH Hx]; simpl; [done|].
  inversion Hlt; subst. constructor; [by apply IH|].
  apply Forall_app. split; [done|].
  eapply list.Forall_impl; [exact Hge|]. simpl. intros; lia.
Qed.

Lemma extends_refl task : extends task task [].
Proof.
  split; [by rewrite app_nil_r|]. split; [done|].
  intros j b Hb. exists []. rewrite app_nil_r. repeat split; [done|constructor|constructor].
Qed.

Lemma extends_trans t1 t2 t3 n1 n2 :
  extends t1 t2 n1 -> extends t2 t3 n2 -> extends t1 t3 (n1 ++ n2).
Proof.
  intros (E1 & L1 & B1) (E2 & L2 & B2).
  split; [by rewrite E2, E1, app_assoc|]. split; [congruence|].
  intros j b Hb.
  destruct (B1 j b Hb) as (x1 & Hx1 & S1 & F1).
  destruct (B2 j _ Hx1) as (x2 & Hx2 & S2 & F2).
  exists (x1 ++ x2). rewrite app_assoc. split; [done|].
  rewrite E1, length_app in F2. rewrite length_app. split.
  - apply (sorted_app x1 x2 (Z.of_nat (length (triangles t1) + length n1)));
      [done|done| |].
    + eapply list.Forall_impl; [exact F1|]. simpl. intros; lia.
    + eapply list.Forall_impl; [exact F2|]. simpl. intros; lia.
  - apply Forall_app. split.
    + eapply list.Forall_impl; [exact F1|]. simpl. intros; lia.
    + eapply list.Forall_impl; [exact F2|]. simpl. intros; lia.
Qed.

Lemma extends_valid task task' new :
  indicesValid task -> extends task task' new -> indicesValid task'.
Proof.
  intros Hv (E & L & B). unfold indicesValid in *.
  apply Forall_lookup. intros j b' Hb'.
  destruct (lookup_lt_is_Some_2 (triangleIndices task) j) as [b Hb].
  { rewrite <- L. by eapply lookup_lt_Some. }
  pose proof (Forall_lookup_1 _ _ _ _ Hv Hb) as [Fb Sb].
  destruct (B (Z.of_nat j) b) as (extra & Hx & Sx & Fx).
  { rewrite load_lookup by lia. by rewrite Nat2Z.id. }
  rewrite load_lookup, Nat2Z.id, Hb' in Hx by lia. inversion Hx; subst b'.
  rewrite E, length_app. split.
  - apply Forall_app. split.
    + eapply list.Forall_impl; [exact Fb|]. simpl. intros; lia.
    + eapply list.Forall_impl; [exact Fx|]. simpl. intros; lia.
  - apply (sorted_app b extra (Z.of_nat (length (triangles task)))); [done|done| |].
    + eapply list.Forall_impl; [exact Fb|]. simpl. intros; lia.
    + eapply list.Forall_impl; [exact Fx|]. simpl. intros; lia.
Qed.

Lemma addProjected_fits clipped this task v0 v1 v2 :
  0 <= activeSlices this <= Z.of_nat (length (triangleIndices task)) ->
  exists task' new,
    addProjected clipped this task v0 v1 v2 = Some task' /\
    extends task task' new /\ (length new <= 1)%nat.
Proof.
  intros Hn. unfold addProjected.
  destruct (CheckFacing _ _ _);
    [|exists task, []; split; [done|]; split; [apply extends_refl|simpl; lia]].
  destruct (extentY _ _ _) as [minY maxY].
  assert (Hpush : forall (bs : list (list Z)) (test : Z -> bool),
    length bs = length (triangleIndices task) ->
    (forall j b, load (triangleIndices task) j = Some b ->
       load bs j = Some (if test j then b ++ [Z.of_nat (length (triangles task))] else b)) ->
    forall tri, extends task (mkGenTask (triangles task ++ [tri]) bs) [tri]).
  { intros bs test Hlen Hb tri. split; [done|]. split; [done|].
    intros j b Hj. simpl. rewrite (Hb j b Hj).
    destruct (test j).
    - eexists. split; [done|]. split; [repeat constructor|].
      constructor; [lia|constructor].
    - exists []. rewrite app_nil_r. split; [done|]. split; constructor. }
  destruct clipped.
  - destruct (bucketClipped_spec this (Z.of_nat (length (triangles task)))
                minY maxY (Z.to_nat (activeSlices this)) 0 (triangleIndices task))
      as (bs & -> & Hlen & Hb); [lia|lia|].
    eexists _, [_]. split; [done|]. split; [|simpl; lia].
    eapply Hpush; [done|]. intros j b Hj. by apply Hb.
  - destruct (bucketInside_spec this (Z.of_nat (length (triangles task)))
                minY maxY (Z.to_nat (activeSlices this)) 0 (triangleIndices task))
      as (bs & -> & Hlen & Hb); [lia|lia|].
    eexists _, [_]. split; [done|]. split; [|simpl; lia].
    eapply Hpush; [done|]. intros j b Hj. by apply Hb.
Qed.

Lemma addClipped_fits this st : forall (n : nat) i task,
  0 <= i -> i + Z.of_nat n <= Z.of_nat (length (clipTriangles st)) ->
  3 * Z.of_nat (length (clipTriangles st)) <= Z.of_nat (length (clipVerts st)) ->
  0 <= activeSlices this <= Z.of_nat (length (triangleIndices task)) ->
  exists task' new,
    addClipped this st n i task = Some task' /\
    extends task task' new /\ (length new <= n)%nat.
Proof.
  induction n as [|n IH]; intros i task Hi Hn Hverts Hsl.
  - exists task, []. split; [done|]. split; [apply extends_refl|simpl; lia].
  - simpl addClipped.
    destruct (load_is_Some (clipTriangles st) i ltac:(lia)) as [active ->].
    cbn [mbind option_bind].
    assert (Hstep : exists task1 new1,
      (if active
       then v0 ← load (clipVerts st) (i * 3);
            v1 ← load (clipVerts st) (i * 3 + 1);
            v2 ← load (clipVerts st) (i * 3 + 2);
            addProjected true this task v0 v1 v2
       else Some task) = Some task1 /\
      extends task task1 new1 /\ (length new1 <= 1)%nat).
    { destruct active.
      - destruct (load_is_Some (clipVerts st) (i * 3) ltac:(lia)) as [v0 ->].
        destruct (load_is_Some (clipVerts st) (i * 3 + 1) ltac:(lia)) as [v1 ->].
        destruct (load_is_Some (clipVerts st) (i * 3 + 2) ltac:(lia)) as [v2 ->].
        cbn [mbind option_bind]. by apply addProjected_fits.
      - exists task, []. split; [done|]. split; [apply extends_refl|simpl; lia]. }
    destruct Hstep as (task1 & new1 & -> & Hx1 & Hl1).
    cbn [mbind option_bind].
    destruct (IH (i + 1) task1) as (task' & new' & -> & Hx' & Hl'); [lia..| |].
    { destruct Hx1 as (_ & L & _). lia. }
    exists task', (new1 ++ new'). split; [done|].
    split; [by eapply extends_trans|]. rewrite length_app. lia.
Qed.

Lemma AddTriangle_extends this task vertices :
  (192 <= length vertices)%nat ->
  0 <= activeSlices this <= Z.of_nat (length (triangleIndices task)) ->
  exists task' new,
    AddTriangle this task vertices = Some task' /\
    extends task task' new /\ (length new <= 64)%nat.
Proof.
  intros Hv Hsl. unfold AddTriangle.
  destruct (load_is_Some vertices 0 ltac:(lia)) as [v0 ->].
  destruct (load_is_Some vertices 1 ltac:(lia)) as [v1 ->].
  destruct (load_is_Some vertices 2 ltac:(lia)) as [v2 ->].
  cbn [mbind option_bind].
  destruct (negb _).
  { exists task, []. split; [done|]. split; [apply extends_refl|simpl; lia]. }
  destruct (_ =? 0).
  { destruct (addProjected_fits false this task v0 v1 v2 Hsl)
      as (task' & new & -> & Hx & Hl).
    exists task', new. split; [done|]. split; [done|lia]. }
  rewrite store_in_range by (rewrite length_replicate; lia).
  cbn [mbind option_bind].
  set (st0 := mkClipState vertices _ 1).
  assert (L0 : length (clipTriangles st0) = 64%nat)
    by reflexivity.
  assert (V0 : length (clipVerts st0) = length vertices) by done.
  assert (N0 : 1 <= numClipTriangles st0 <= 1) by (simpl; lia).
  clearbody st0.
  repeat match goal with
  | |- context [clipAgainst ?m ?bit ?pl ?st] =>
      let st' := fresh "st" in
      let E := fresh "E" in let L := fresh "L" in let V := fresh "V" in
      let N := fresh "N" in
      destruct (clipAgainst_fits m bit pl st) as (st' & E & L & V & N);
      [lia|lia|lia|rewrite E; cbn [mbind option_bind]]
  end.
  match goal with
  | |- context [addClipped this ?st ?n 0 task] =>
      destruct (addClipped_fits this st n 0 task) as (task' & new & -> & Hx & Hl);
      [lia|lia|lia|lia|]
  end.
  exists task', new. split; [done|]. split; [done|lia].
Qed.


(** A pass of [ClipVertices] that starts with at most half of the slots in
    use stays inside [clipTriangles] and [vertices], keeps every candidate
    it had and at most doubles their number. *)
Theorem ClipVertices_doubles plane st :
  0 <= numClipTriangles st ->
  2 * numClipTriangles st <= Z.of_nat (length (clipTriangles st)) ->
  3 * Z.of_nat (length (clipTriangles st)) <= Z.of_nat (length (clipVerts st)) ->
  exists st',
    ClipVertices plane st = Some st' /\
    length (clipTriangles st') = length (clipTriangles st) /\
    length (clipVerts st') = length (clipVerts st) /\
    numClipTriangles st <= numClipTriangles st' <= 2 * numClipTriangles st.
Proof. apply ClipVertices_fits. Qed.

(** [AddTriangle] never reads or writes outside the caller's [64 * 3]
    vertices, its 64 flags or the batch's buckets: six passes that each at
    most double one triangle give at most 64. *)
Theorem AddTriangle_in_bounds this task vertices :
  length vertices = 192%nat ->
  0 <= activeSlices this <= Z.of_nat (length (triangleIndices task)) ->
  is_Some (AddTriangle this task vertices).
Proof.
  intros Hv Hsl.
  destruct (AddTriangle_extends this task vertices) as (task' & new & -> & _);
    [lia|done|]. by eexists.
Qed.

(** [AddTriangle] only appends: the batch's triangles stay where they are,
    at most 64 are added, the number of buckets stays, and when every
    bucket held indices of triangles of the batch in increasing order,
    every bucket still does. *)
Theorem AddTriangle_keeps_indices this task vertices task' :
  length vertices = 192%nat ->
  0 <= activeSlices this <= Z.of_nat (length (triangleIndices task)) ->
  indicesValid task ->
  AddTriangle this task vertices = Some task' ->
  indicesValid task' /\
  triangles task `prefix_of` triangles task' /\
  (length (triangles task') <= length (triangles task) + 64)%nat /\
  length (triangleIndices task') = length (triangleIndices task).
Proof.
  intros Hv Hsl Hok Hadd.
  destruct (AddTriangle_extends this task vertices) as (t' & new & E & Hx & Hl);
    [lia|done|].
  rewrite Hadd in E. inversion E; subst t'.
  split; [by eapply extends_valid|].
  destruct Hx as (Et & Lb & _). rewrite Et, length_app.
  split; [by eexists|]. split; [lia|done].
Qed.

Lemma vertexClipMask_testbit v (k : nat) :
  Z.testbit (vertexClipMask v) (Z.of_nat k) = outside k v.
Proof.
  unfold vertexClipMask, outside.
  destruct (f_gt (Vector4.x v) (Vector4.w v)),
    (f_lt (Vector4.x v) (f_neg (Vector4.w v))),
    (f_gt (Vector4.y v) (Vector4.w v)),
    (f_lt (Vector4.y v) (f_neg (Vector4.w v))),
    (f_gt (Vector4.z v) (Vector4.w v)),
    (f_lt (Vector4.z v) f_zero).
  all: do 6 (destruct k as [|k]; [reflexivity|]).
  all: rewrite Z.testbit_false by lia.
  all: rewrite Z.div_small; [reflexivity|].
  all: split; [by vm_compute|].
  all: apply Z.lt_le_trans with (2 ^ 6); [by vm_compute|].
  all: apply Z.pow_le_mono_r; lia.
Qed.

(** A triangle whose three vertices are all outside the same frustum plane
    is dropped: the batch is left as it was. *)
Theorem AddTriangle_rejects_outside this task vertices v0 v1 v2 (k : nat) :
  load vertices 0 = Some v0 -> load vertices 1 = Some v1 ->
  load vertices 2 = Some v2 ->
  outside k v0 = true -> outside k v1 = true -> outside k v2 = true ->
  AddTriangle this task vertices = Some task.
Proof.
  intros E0 E1 E2 O0 O1 O2. unfold AddTriangle.
  rewrite E0, E1, E2. cbn [mbind option_bind].
  assert (Hbit : Z.testbit (Z.land (Z.land (vertexClipMask v0) (vertexClipMask v1))
                              (vertexClipMask v2)) (Z.of_nat k) = true).
  { by rewrite !Z.land_spec, !vertexClipMask_testbit, O0, O1, O2. }
  destruct (Z.land _ (vertexClipMask v2) =? 0) eqn:Ez; [|done].
  apply Z.eqb_eq in Ez. rewrite Ez, Z.testbit_0_l in Hbit. discriminate.
Qed.

End ClipBounds.

(** ** A plane pass *)

Section Pass.
Context `{H : Header}.

Ltac sub' :=
  solve [ apply sublist_nil | apply sublist_skip; sub' | apply sublist_cons; sub' ].

Lemma clipOutputs_count plane t :
  length (clipOutputs plane t) = outputCount (behindCount plane t) /\
  Forall (fun u => keepsWinding u (clipPolygon plane t)) (clipOutputs plane t) /\
  (behindCount plane t = 0%nat -> clipOutputs plane t = [t]).
Proof.
  destruct t as [[v0 v1] v2].
  unfold clipOutputs, behindCount, clipPolygon, clipEdgeOut.
  destruct (behind (DotProduct plane v0)), (behind (DotProduct plane v1)),
    (behind (DotProduct plane v2)); simpl.
  all: split; [reflexivity|split; [|done]].
  all: repeat first [apply List.Forall_nil | apply List.Forall_cons].
  all: unfold keepsWinding.
  all: first [left; sub' | right; left; sub' | right; right; sub'].
Qed.

Lemma outputCount_two n : outputCount n = 2%nat <-> n = 1%nat.
Proof. destruct n as [|[|[|n]]]; simpl; split; intros; lia || done. Qed.

Lemma appends_slot plane st i t :
  slotHolds st i t -> appends plane st i = Nat.eqb (behindCount plane t) 1.
Proof. intros [Ha Ht]. unfold appends. by rewrite Ha, Ht. Qed.

Lemma appends_off plane st i :
  load (clipTriangles st) i = Some false -> appends plane st i = false.
Proof. intros Ha. unfold appends. by rewrite Ha. Qed.

Lemma appendedBelow_bounds plane st k :
  0 <= appendedBelow plane st k <= Z.of_nat k.
Proof.
  induction k as [|k IH]; [simpl; lia|].
  cbn [appendedBelow]. destruct (appends plane st (Z.of_nat k)); lia.
Qed.

Lemma appendedBelow_mono plane st (i k : nat) :
  (i <= k)%nat -> appendedBelow plane st i <= appendedBelow plane st k.
Proof.
  induction 1 as [|k Hle IH]; [lia|].
  cbn [appendedBelow]. destruct (appends plane st (Z.of_nat k)); lia.
Qed.

Lemma triangleAt_is_Some (vs : list Vector4) i :
  0 <= i -> 3 * i + 2 < Z.of_nat (length vs) -> is_Some (triangleAt vs i).
Proof.
  intros Hi Hl. unfold triangleAt.
  destruct (load_is_Some vs (i * 3) ltac:(lia)) as [v0 ->].
  destruct (load_is_Some vs (i * 3 + 1) ltac:(lia)) as [v1 ->].
  destruct (load_is_Some vs (i * 3 + 2) ltac:(lia)) as [v2 ->].
  simpl. eauto.
Qed.

Lemma appendedBelow_lt plane st (i k : nat) :
  (i < k)%nat -> appends plane st (Z.of_nat i) = true ->
  appendedBelow plane st i < appendedBelow plane st k.
Proof.
  intros Hik Ha.
  pose proof (appendedBelow_mono plane st (S i) k ltac:(lia)) as Hm.
  cbn [appendedBelow] in Hm. rewrite Ha in Hm. lia.
Qed.

(** One step of the loop keeps what the pass has made of the candidates
    before, and makes of candidate [k] what its triangle on entry asks. *)
Lemma clipTriangle_passDone plane st (k : nat) s :
  Z.of_nat k < numClipTriangles st ->
  2 * numClipTriangles st <= Z.of_nat (length (clipTriangles st)) ->
  3 * Z.of_nat (length (clipTriangles st)) <= Z.of_nat (length (clipVerts st)) ->
  length (clipTriangles s) = length (clipTriangles st) ->
  length (clipVerts s) = length (clipVerts st) ->
  passDone plane st k s ->
  exists s',
    clipTriangle plane (Z.of_nat k) s = Some s' /\
    length (clipTriangles s') = length (clipTriangles st) /\
    length (clipVerts s') = length (clipVerts st) /\
    passDone plane st (S k) s'.
Proof.
  intros Hk Hroom Hverts L1 L2 (Hnum & Hout & Hoff & Hframe).
  pose proof (appendedBelow_bounds plane st k) as Hab.
  destruct (clipTriangle_fits plane (Z.of_nat k) s) as (s' & Hs' & L1' & L2' & Hcount);
    [lia..|].
  exists s'. split; [done|]. split; [congruence|]. split; [congruence|].
  destruct (Hframe (Z.of_nat k) ltac:(lia)) as [Hfk Htk].
  destruct (load_is_Some (clipTriangles st) (Z.of_nat k) ltac:(lia)) as [act Hact].
  destruct act.
  - destruct (triangleAt_is_Some (clipVerts st) (Z.of_nat k) ltac:(lia) ltac:(lia))
      as [t Ht].
    assert (Hst : slotHolds st (Z.of_nat k) t) by done.
    assert (Hs : slotHolds s (Z.of_nat k) t) by (split; congruence).
    destruct (clipTriangle_outputs plane s (Z.of_nat k) t) as (s2 & Hs2 & Hprod & _);
      [lia|lia|lia|done|].
    assert (s2 = s') by congruence. subst s2.
    destruct (clipOutputs_count plane t) as (Hlen & _ & _).
    pose proof (appends_slot plane st _ t Hst) as Happ.
    destruct Hprod as [Hmain Hother].
    assert (Hkeep : forall j, j <> Z.of_nat k ->
              j <> numClipTriangles s \/ numClipTriangles s' = numClipTriangles s ->
              load (clipTriangles s') j = load (clipTriangles s) j /\
              triangleAt (clipVerts s') j = triangleAt (clipVerts s) j).
    { intros j H1 H2. apply Hother; [done|]. intros E E2.
      destruct (clipOutputs plane t) as [|u [|v [|w l]]]; try discriminate E2.
      simpl in Hmain. lia. }
    assert (Hnum' : numClipTriangles s'
                    = numClipTriangles st + appendedBelow plane st (S k)).
    { cbn [appendedBelow]. rewrite Happ.
      destruct (clipOutputs plane t) as [|u [|v [|w l]]]; simpl in Hlen, Hmain.
      - destruct (Nat.eqb_spec (behindCount plane t) 1) as [E|E];
          [rewrite E in Hlen; discriminate|]. lia.
      - destruct (Nat.eqb_spec (behindCount plane t) 1) as [E|E];
          [rewrite E in Hlen; discriminate|]. lia.
      - symmetry in Hlen. apply outputCount_two in Hlen. rewrite Hlen. simpl. lia.
      - done. }
    split; [done|]. split; [|split].
    + intros i u Hi Hu.
      destruct (decide (i = Z.of_nat k)) as [->|Hne].
      * assert (u = t) by (destruct Hu, Hst; congruence). subst u.
        unfold candidateOutputs. rewrite Nat2Z.id.
        destruct (clipOutputs plane t) as [|u [|v [|w l]]]; simpl in Hmain.
        -- tauto.
        -- tauto.
        -- destruct Hmain as (M1 & M2 & M3). rewrite <- Hnum.
           split; [done|]. split; [done|]. lia.
        -- done.
      * specialize (Hout i u ltac:(lia) Hu). unfold candidateOutputs in *.
        destruct (Hkeep i ltac:(lia) ltac:(lia)) as [K1 K2].
        destruct (clipOutputs plane u) as [|a [|b [|c l]]].
        -- congruence.
        -- destruct Hout. split; congruence.
        -- destruct Hout as ([O1 O2] & [O3 O4] & O5).
           pose proof (appendedBelow_bounds plane st (Z.to_nat i)) as Hbi.
           destruct (Hkeep (numClipTriangles st
                            + appendedBelow plane st (Z.to_nat i)))
             as [K3 K4]; [lia|lia|].
           split; [split; congruence|]. split; [split; congruence|]. lia.
        -- done.
    + intros i Hi Hf.
      destruct (decide (i = Z.of_nat k)) as [->|Hne]; [congruence|].
      destruct (Hkeep i) as [K1 _]; [lia|lia|].
      rewrite K1. apply Hoff; [lia|done].
    + intros j Hj.
      destruct (Hkeep j) as [K1 K2]; [lia|lia|].
      destruct (Hframe j) as [F1 F2]; [lia|].
      split; congruence.
  - assert (s' = s).
    { rewrite clipTriangle_inactive in Hs' by congruence. congruence. }
    subst s'.
    assert (Hnum' : numClipTriangles s
                    = numClipTriangles st + appendedBelow plane st (S k)).
    { cbn [appendedBelow]. rewrite (appends_off plane st _ Hact). lia. }
    split; [done|]. split; [|split].
    + intros i u Hi Hu.
      destruct (decide (i = Z.of_nat k)) as [->|Hne]; [destruct Hu; congruence|].
      apply Hout; [lia|done].
    + intros i Hi Hf.
      destruct (decide (i = Z.of_nat k)) as [->|Hne]; [congruence|].
      apply Hoff; [lia|done].
    + intros j Hj. apply Hframe. lia.
Qed.

Lemma clipLoop_passDone plane st : forall (n k : nat) s,
  Z.of_nat (k + n) <= numClipTriangles st ->
  2 * numClipTriangles st <= Z.of_nat (length (clipTriangles st)) ->
  3 * Z.of_nat (length (clipTriangles st)) <= Z.of_nat (length (clipVerts st)) ->
  length (clipTriangles s) = length (clipTriangles st) ->
  length (clipVerts s) = length (clipVerts st) ->
  passDone plane st k s ->
  exists s',
    clipLoop plane n (Z.of_nat k) s = Some s' /\ passDone plane st (k + n) s'.
Proof.
  induction n as [|n IH]; intros k s Hk Hroom Hverts L1 L2 Hdone.
  - exists s. split; [done|]. by rewrite Nat.add_0_r.
  - cbn [clipLoop].
    destruct (clipTriangle_passDone plane st k s) as (s1 & -> & L1' & L2' & Hdone');
      [lia|done..|].
    cbn [mbind option_bind].
    replace (Z.of_nat k + 1) with (Z.of_nat (S k)) by lia.
    destruct (IH (S k) s1) as (s' & Hs' & Hd); [lia|done..|].
    exists s'. split; [done|]. by replace (k + S n)%nat with (S k + n)%nat by lia.
Qed.

(** C3.  A plane pass of [ClipVertices] over a state with room to append
    (at most half of the slots in use) returns, and it has visited every
    candidate below the [numClipTriangles] of entry once, on the triangle
    the candidate held on entry.  By the number of vertices behind the
    plane (signed distance [< 0]) an active candidate yields no triangle
    when there are three (its slot is switched off), one when there are two
    (written over the candidate), two when there is one (one written over
    the candidate, one appended in the slot after those that the candidates
    before it appended), and when there is none the candidate stays as it
    is.  The outputs are the triangles of [clipOutputs]; each lists
    vertices of the clipped polygon in the polygon's order.
    [numClipTriangles] grows by the number of candidates with one vertex
    behind; the appended triangles are as they were written (the pass does
    not clip them); a candidate that was switched off stays so, and the
    slots past the new [numClipTriangles] are untouched. *)
Theorem ClipVertices_outputs plane st :
  0 <= numClipTriangles st ->
  2 * numClipTriangles st <= Z.of_nat (length (clipTriangles st)) ->
  3 * Z.of_nat (length (clipTriangles st)) <= Z.of_nat (length (clipVerts st)) ->
  exists st',
    ClipVertices plane st = Some st' /\
    numClipTriangles st'
    = numClipTriangles st
      + appendedBelow plane st (Z.to_nat (numClipTriangles st)) /\
    (forall i t, 0 <= i < numClipTriangles st -> slotHolds st i t ->
       candidateOutputs plane st st' i t /\
       length (clipOutputs plane t) = outputCount (behindCount plane t) /\
       Forall (fun u => keepsWinding u (clipPolygon plane t)) (clipOutputs plane t) /\
       (behindCount plane t = 0%nat -> slotHolds st' i t)) /\
    (forall i, 0 <= i < numClipTriangles st ->
       load (clipTriangles st) i = Some false ->
       load (clipTriangles st') i = Some false) /\
    (forall j, numClipTriangles st' <= j ->
       load (clipTriangles st') j = load (clipTriangles st) j /\
       triangleAt (clipVerts st') j = triangleAt (clipVerts st) j).
Proof.
  intros Hn Hroom Hverts. unfold ClipVertices.
  destruct (clipLoop_passDone plane st (Z.to_nat (numClipTriangles st)) 0 st)
    as (st' & Hst' & Hdone); [lia|done..| |].
  { split; [simpl; lia|]. split; [intros; lia|]. split; [intros; lia|]. done. }
  exists st'. split; [done|].
  simpl in Hdone. destruct Hdone as (Hnum & Hout & Hoff & Hframe).
  split; [done|]. split; [|split].
  - intros i t Hi Ht.
    specialize (Hout i t ltac:(lia) Ht).
    destruct (clipOutputs_count plane t) as (Hlen & Hwind & Hzero).
    split; [done|]. split; [done|]. split; [done|].
    intros Hb. unfold candidateOutputs in Hout. by rewrite (Hzero Hb) in Hout.
  - intros i Hi Hf. apply Hoff; [lia|done].
  - intros j Hj. apply Hframe. by right.
Qed.

End Pass.

(** ** The clipper's scratch slots *)

Section Scratch.
Context `{H : Header}.

Lemma store_agree P (vs vs' : list Vector4) dst v :
  agreeOn P vs vs' ->
  option_Forall2 (agreeOn (fun j => P j \/ j = dst)) (store vs dst v) (store vs' dst v).
Proof.
  intros [Hl Hag]. unfold store. rewrite <- Hl.
  destruct ((0 <=? dst) && (dst <? Z.of_nat (length vs))) eqn:E; [|constructor].
  constructor. split; [by rewrite !length_insert|].
  intros j Hj. apply andb_prop in E as [E1 E2].
  apply Z.leb_le in E1. apply Z.ltb_lt in E2.
  destruct (decide (j = dst)) as [->|Hne].
  - rewrite !load_insert_eq by lia. done.
  - rewrite !load_insert_ne by lia. apply Hag. by destruct Hj.
Qed.

Lemma clipInto_agree P (vs vs' : list Vector4) dst a b da db :
  agreeOn P vs vs' -> P a -> P b ->
  option_Forall2 (agreeOn (fun j => P j \/ j = dst))
    (clipInto vs dst a b da db) (clipInto vs' dst a b da db).
Proof.
  intros Hag Ha Hb. unfold clipInto.
  rewrite <- (proj2 Hag a Ha), <- (proj2 Hag b Hb).
  destruct (load vs a) as [va|]; [|constructor].
  destruct (load vs b) as [vb|]; [|constructor].
  by apply store_agree.
Qed.

Lemma copyInto_agree P (vs vs' : list Vector4) dst src :
  agreeOn P vs vs' -> P src ->
  option_Forall2 (agreeOn (fun j => P j \/ j = dst))
    (copyInto vs dst src) (copyInto vs' dst src).
Proof.
  intros Hag Ha. unfold copyInto. rewrite <- (proj2 Hag src Ha).
  destruct (load vs src) as [va|]; [|constructor].
  by apply store_agree.
Qed.

Lemma agreeOn_weaken (P Q : Z -> Prop) vs vs' :
  (forall j, Q j -> P j) -> agreeOn P vs vs' -> agreeOn Q vs vs'.
Proof. intros HPQ [Hl Hag]. split; [done|]. intros j Hj. by apply Hag, HPQ. Qed.

Lemma clipTriangle_agree plane i st st' :
  sameCandidates st st' -> i < numClipTriangles st ->
  option_Forall2 sameCandidates (clipTriangle plane i st) (clipTriangle plane i st').
Proof.
  intros (En & Ect & Hag) Hi.
  destruct st as [vs ct num], st' as [vs' ct' num']. simpl in *. subst num' ct'.
  unfold clipTriangle. simpl.
  destruct (load ct i) as [active|] eqn:Eact; [|constructor]. simpl.
  destruct active; [|constructor; repeat split; try done; apply Hag].
  assert (Hi0 : 0 <= i) by (apply load_Some in Eact; lia).
  rewrite <- (proj2 Hag (i * 3)), <- (proj2 Hag (i * 3 + 1)),
    <- (proj2 Hag (i * 3 + 2)) by lia.
  destruct (load vs (i * 3)) as [v0|]; [|constructor].
  destruct (load vs (i * 3 + 1)) as [v1|]; [|constructor].
  destruct (load vs (i * 3 + 2)) as [v2|]; [|constructor]. simpl.
  set (P := fun j => 0 <= j < 3 * num) in Hag.
  assert (P0 : P (i * 3)) by (unfold P; lia).
  assert (P1 : P (i * 3 + 1)) by (unfold P; lia).
  assert (P2 : P (i * 3 + 2)) by (unfold P; lia).
  destruct (behind (DotProduct plane v0)), (behind (DotProduct plane v1)),
    (behind (DotProduct plane v2)); simpl.
  all: unfold appendTriangle; simpl.
  all: try (destruct (store ct _ _) as [ct1|]; simpl; [|constructor]).
  all: repeat first
    [ match goal with
      | Hg : agreeOn ?Q ?a ?b |- context [clipInto ?a ?dst ?x ?y ?da ?db] =>
          let R := fresh "R" in
          assert (R : option_Forall2 (agreeOn (fun j => Q j \/ j = dst))
                        (clipInto a dst x y da db) (clipInto b dst x y da db))
            by (apply clipInto_agree; [exact Hg|simpl; auto 8|simpl; auto 8]);
          clear Hg;
          destruct R as [? ? Hg|]; simpl; [|constructor]
      | Hg : agreeOn ?Q ?a ?b |- context [copyInto ?a ?dst ?x] =>
          let R := fresh "R" in
          assert (R : option_Forall2 (agreeOn (fun j => Q j \/ j = dst))
                        (copyInto a dst x) (copyInto b dst x))
            by (apply copyInto_agree; [exact Hg|simpl; auto 8]);
          clear Hg;
          destruct R as [? ? Hg|]; simpl; [|constructor]
      end ].
  all: constructor; (split; [done|]); (split; [done|]); simpl.
  all: match goal with
       | Hg : agreeOn _ _ _ |- _ =>
           eapply agreeOn_weaken; [|exact Hg]; unfold P; simpl; intros j Hj; lia
       end.
Qed.


Lemma clipTriangle_count plane i st st1 :
  clipTriangle plane i st = Some st1 ->
  numClipTriangles st <= numClipTriangles st1.
Proof.
  unfold clipTriangle. intros Hc.
  repeat match type of Hc with
  | context [load ?a ?k] =>
      is_var a;
      let E := fresh "E" in destruct (load a k) eqn:E; simpl in Hc; [|discriminate Hc]
  | (if ?b then _ else _) = _ => destruct b; simpl in Hc
  | context [load (clipTriangles ?s) ?k] =>
      let E := fresh "E" in
      destruct (load (clipTriangles s) k) eqn:E; simpl in Hc; [|discriminate Hc]
  | context [load (clipVerts ?s) ?k] =>
      let E := fresh "E" in
      destruct (load (clipVerts s) k) eqn:E; simpl in Hc; [|discriminate Hc]
  end.
  all: unfold appendTriangle in Hc; simpl in Hc.
  all: repeat match type of Hc with
  | context [store ?a ?k ?v] =>
      destruct (store a k v); simpl in Hc; [|discriminate Hc]
  | context [clipInto ?a ?d ?x ?y ?da ?db] =>
      destruct (clipInto a d x y da db); simpl in Hc; [|discriminate Hc]
  | context [copyInto ?a ?d ?x] =>
      destruct (copyInto a d x); simpl in Hc; [|discriminate Hc]
  end.
  all: inversion Hc; subst; simpl; lia.
Qed.

Lemma clipLoop_agree plane : forall (n : nat) i st st',
  sameCandidates st st' -> i + Z.of_nat n <= numClipTriangles st ->
  option_Forall2 sameCandidates (clipLoop plane n i st) (clipLoop plane n i st').
Proof.
  induction n as [|n IH]; intros i st st' Hs Hn; [by constructor|].
  simpl clipLoop.
  pose proof (clipTriangle_agree plane i st st' Hs ltac:(lia)) as R.
  destruct (clipTriangle plane i st) as [s1|] eqn:E1;
    destruct (clipTriangle plane i st') as [s1'|] eqn:E2;
    inversion R as [? ? Hs1|]; subst; cbn [mbind option_bind]; [|constructor].
  apply IH; [done|]. pose proof (clipTriangle_count plane i st s1 E1). lia.
Qed.

Lemma clipAgainst_agree clipMask bit plane st st' :
  sameCandidates st st' ->
  option_Forall2 sameCandidates (clipAgainst clipMask bit plane st)
    (clipAgainst clipMask bit plane st').
Proof.
  intros Hs. unfold clipAgainst. destruct (Z.land clipMask bit =? 0); [by constructor|].
  unfold ClipVertices. rewrite <- (proj1 Hs).
  destruct (decide (0 <= numClipTriangles st)) as [Hn|Hn].
  - apply clipLoop_agree; [done|lia].
  - replace (Z.to_nat (numClipTriangles st)) with 0%nat by lia. by constructor.
Qed.

Lemma addClipped_agree this st st' : forall (n : nat) i task,
  sameCandidates st st' -> i + Z.of_nat n <= numClipTriangles st ->
  addClipped this st n i task = addClipped this st' n i task.
Proof.
  intros n i task (En & Ect & Hl & Hag). revert i task.
  induction n as [|n IH]; intros i task Hn; [done|].
  simpl. rewrite <- Ect.
  destruct (load (clipTriangles st) i) as [active|] eqn:Eact; [|done]. simpl.
  assert (Hi0 : 0 <= i) by (apply load_Some in Eact; lia).
  rewrite <- (Hag (i * 3)), <- (Hag (i * 3 + 1)), <- (Hag (i * 3 + 2)) by lia.
  destruct (if active then _ else _) as [task'|]; [|done]. simpl.
  apply IH. lia.
Qed.


(** The batch after [AddTriangle] for arrays that agree on their first
    three vertices. *)
Lemma AddTriangle_scratch this task vertices vertices' :
  length vertices = length vertices' ->
  take 3 vertices = take 3 vertices' ->
  AddTriangle this task vertices = AddTriangle this task vertices'.
Proof.
  intros Hl Ht.
  assert (Hld : forall j, 0 <= j < 3 -> load vertices j = load vertices' j).
  { intros j Hj. rewrite !load_lookup by lia.
    rewrite <- (lookup_take_lt vertices 3), <- (lookup_take_lt vertices' 3) by lia.
    by rewrite Ht. }
  unfold AddTriangle.
  rewrite <- (Hld 0), <- (Hld 1), <- (Hld 2) by lia.
  destruct (load vertices 0) as [v0|]; [|done].
  destruct (load vertices 1) as [v1|]; [|done].
  destruct (load vertices 2) as [v2|]; [|done].
  cbn [mbind option_bind].
  destruct (negb _); [done|]. destruct (_ =? 0); [done|].
  destruct (store (replicate 64 false) 0 true) as [ct|]; [|done].
  cbn [mbind option_bind].
  assert (Hs : sameCandidates (mkClipState vertices ct 1)
                 (mkClipState vertices' ct 1)).
  { split; [done|]. split; [done|]. split; [done|]. simpl. intros j Hj.
    apply Hld. lia. }
  revert Hs. generalize (mkClipState vertices ct 1) (mkClipState vertices' ct 1).
  intros st st' Hs.
  repeat match goal with
  | |- context [clipAgainst ?m ?bit ?pl st] =>
      let R := fresh "R" in
      pose proof (clipAgainst_agree m bit pl st st' Hs) as R;
      destruct (clipAgainst m bit pl st) as [s1|];
      destruct (clipAgainst m bit pl st') as [s1'|];
      inversion R; subst; cbn [mbind option_bind]; [|done];
      clear R Hs st st'; rename s1 into st, s1' into st';
      match goal with Hn : sameCandidates st st' |- _ => rename Hn into Hs end
  end.
  rewrite <- (proj1 Hs).
  destruct (decide (0 <= numClipTriangles st)) as [Hn|Hn].
  - apply addClipped_agree; [done|lia].
  - by replace (Z.to_nat (numClipTriangles st)) with 0%nat by lia.
Qed.

(** [AddTriangle] reads the first three vertices of the caller's array and
    what it wrote itself: what the other slots held on entry (the leavings
    of the triangle before, in [GenerateTrianglesWork]) has no effect on
    the batch. *)
Theorem AddTriangle_ignores_scratch this task vertices vertices' :
  length vertices = length vertices' ->
  take 3 vertices = take 3 vertices' ->
  AddTriangle this task vertices = AddTriangle this task vertices'.
Proof. apply AddTriangle_scratch. Qed.

End Scratch.

(** ** The hierarchy and the exhaustive test *)

Lemma mapM_elem {A B} (f : A -> option B) (l : list A) (k : list B) (y : B) :
  mapM f l = Some k -> (y ∈ k <-> exists x, x ∈ l /\ f x = Some y).
Proof.
  rewrite mapM_Some. intros HF. induction HF as [|x y0 l k Hxy HF IH].
  - split; [intros Hy; inversion Hy|intros (x & Hx & _); inversion Hx].
  - rewrite elem_of_cons, IH. split.
    + intros [->|(x' & Hx' & Hf)]; [exists x; split; [left|done]|].
      exists x'. split; [by right|done].
    + intros (x' & Hx' & Hf). apply elem_of_cons in Hx' as [->|Hx'].
      * left. congruence.
      * right. eauto.
Qed.

Lemma elem_of_concat {A} (x : A) (ls : list (list A)) :
  x ∈ concat ls <-> exists l, l ∈ ls /\ x ∈ l.
Proof.
  induction ls as [|l ls IH]; simpl.
  - split; [intros Hx; inversion Hx|intros (l & Hl & _); inversion Hl].
  - rewrite elem_of_app, IH. split.
    + intros [Hx|(l' & Hl' & Hx)]; [exists l; split; [left|done]|].
      exists l'. split; [by right|done].
    + intros (l' & Hl' & Hx). apply elem_of_cons in Hl' as [->|Hl'];
        [by left|right; eauto].
Qed.

(** The values that [coveredCells] lists are those at the rows [t .. b]
    and the columns [l .. r]. *)
Lemma coveredCells_elem {A} (read : Z -> option A) stride t b l r cs x :
  coveredCells read stride t b l r = Some cs ->
  x ∈ cs <-> exists row col, t <= row <= b /\ l <= col <= r /\
                            read (row * stride + col) = Some x.
Proof.
  unfold coveredCells. destruct (mapM _ (seqZ t _)) as [css|] eqn:E; [|done].
  simpl. intros Ecs. inversion Ecs; subst cs; clear Ecs.
  rewrite elem_of_concat. split.
  - intros (cs0 & Hcs0 & Hx).
    apply (mapM_elem _ _ _ cs0 E) in Hcs0 as (row & Hrow & Erow).
    apply (mapM_elem _ _ _ x Erow) in Hx as (col & Hcol & Ecol).
    apply elem_of_seqZ in Hrow, Hcol. exists row, col. repeat split; [lia..|done].
  - intros (row & col & Hrow & Hcol & Ex).
    destruct (mapM (fun col => read (row * stride + col)) (seqZ l (r - l + 1)))
      as [cs0|] eqn:E0.
    + exists cs0. split.
      * apply (mapM_elem _ _ _ cs0 E). exists row. split; [|done].
        apply elem_of_seqZ. lia.
      * apply (mapM_elem _ _ _ x E0). exists col. split; [|done].
        apply elem_of_seqZ. lia.
    + exfalso. assert (Hin : row ∈ seqZ t (b - t + 1)) by (apply elem_of_seqZ; lia).
      apply mapM_Some in E.
      apply list_elem_of_lookup in Hin as [i Hi].
      destruct (Forall2_lookup_l _ _ _ _ _ E Hi) as (cs0 & _ & Hcs0).
      congruence.
Qed.

Lemma coveredCells_read {A} (read : Z -> option A) stride t b l r cs :
  coveredCells read stride t b l r = Some cs ->
  forall row col, t <= row <= b -> l <= col <= r ->
    is_Some (read (row * stride + col)).
Proof.
  unfold coveredCells. destruct (mapM _ (seqZ t _)) as [css|] eqn:E; [|done].
  intros _ row col Hrow Hcol.
  apply mapM_Some in E.
  assert (Hin : row ∈ seqZ t (b - t + 1)) by (apply elem_of_seqZ; lia).
  apply list_elem_of_lookup in Hin as [i Hi].
  destruct (Forall2_lookup_l _ _ _ _ _ E Hi) as (cs0 & _ & Hcs0).
  apply mapM_Some in Hcs0.
  assert (Hin : col ∈ seqZ l (r - l + 1)) by (apply elem_of_seqZ; lia).
  apply list_elem_of_lookup in Hin as [j Hj].
  destruct (Forall2_lookup_l _ _ _ _ _ Hcs0 Hj) as (x & _ & Hx).
  by eexists.
Qed.

Lemma shiftr_mono a b s : 0 <= s -> a <= b -> Z.shiftr a s <= Z.shiftr b s.
Proof.
  intros Hs Hab. rewrite !Z.shiftr_div_pow2 by lia.
  apply Z.div_le_mono; [|done]. lia.
Qed.

(** Every index between the shifted ends of a range is the shift of a
    member of the range. *)
Lemma shiftr_preimage t b s row :
  0 <= s -> 0 <= t <= b -> Z.shiftr t s <= row <= Z.shiftr b s ->
  exists y, t <= y <= b /\ Z.shiftr y s = row.
Proof.
  intros Hs Htb. rewrite !Z.shiftr_div_pow2 by lia. intros Hrow.
  assert (Hp : 0 < 2 ^ s) by lia.
  destruct (decide (row = t / 2 ^ s)) as [->|Hne].
  - exists t. rewrite Z.shiftr_div_pow2 by lia. lia.
  - exists (row * 2 ^ s). rewrite Z.shiftr_div_pow2, Z.div_mul by lia.
    split; [|done].
    pose proof (Z.div_mod t (2 ^ s) ltac:(lia)).
    pose proof (Z.mod_pos_bound t (2 ^ s) Hp).
    pose proof (Z.div_mod b (2 ^ s) ltac:(lia)).
    pose proof (Z.mod_pos_bound b (2 ^ s) Hp).
    nia.
Qed.

Section Flat.
Context `{H : Header}.

Lemma existsb_elem {A} (f : A -> bool) (l : list A) :
  existsb f l = true <-> exists x, x ∈ l /\ f x = true.
Proof.
  rewrite existsb_exists. split; intros (x & Hx & Hf); exists x;
    (split; [by apply list_elem_of_In|done]).
Qed.

Lemma forallb_elem {A} (f : A -> bool) (l : list A) :
  forallb f l = true <-> forall x, x ∈ l -> f x = true.
Proof.
  rewrite forallb_forall. split; intros Hf x Hx; apply Hf;
    by apply list_elem_of_In.
Qed.

Section Level.
Variables (this : OcclusionBuffer) (rect : IntRect) (i : nat).
Variables (mip cells : list DepthValue) (pixels : list Z) (z : Z).
Hypothesis Hw : 0 < width this.
Hypothesis Hh : 0 < height this.
Hypothesis Hclamped : clamped this rect.
Hypothesis Hproper : proper rect.
Hypothesis Hmip : mipBuffers this !! i = Some mip.
Hypothesis Hbounds : cellBounds this i mip.
Hypothesis Hcells : levelCellsIn this rect i = Some cells.
Hypothesis Hpixels : coveredPixels this rect = Some pixels.

Lemma level_cells :
  coveredCells (load mip) (levelDims (width this) (height this) (S i)).1
    (Z.shiftr (IntRect.top rect) (Z.of_nat (S i)))
    (Z.shiftr (IntRect.bottom rect) (Z.of_nat (S i)))
    (Z.shiftr (IntRect.left rect) (Z.of_nat (S i)))
    (Z.shiftr (IntRect.right rect) (Z.of_nat (S i))) = Some cells.
Proof. unfold levelCellsIn in Hcells. by rewrite Hmip in Hcells. Qed.

(** A covered cell with [z <= min] holds a covered pixel with [z <=] its
    depth. *)
Lemma level_nearer :
  existsb (nearerThan z) cells = true -> anyPixelBehind z pixels = true.
Proof.
  destruct Hclamped as (Hl & Ht & Hr & Hb). destruct Hproper as [Hlr Htb].
  intros Hex. apply existsb_elem in Hex as (cell & Hcell & Hz).
  apply (coveredCells_elem _ _ _ _ _ _ _ cell level_cells) in Hcell
    as (row & col & Hrow & Hcol & Hld).
  destruct (shiftr_preimage (IntRect.top rect) (IntRect.bottom rect)
              (Z.of_nat (S i)) row ltac:(lia) ltac:(lia) Hrow) as (py & Hpy & Epy).
  destruct (shiftr_preimage (IntRect.left rect) (IntRect.right rect)
              (Z.of_nat (S i)) col ltac:(lia) ltac:(lia) Hcol) as (px & Hpx & Epx).
  destruct (coveredCells_read _ _ _ _ _ _ _ Hpixels py px Hpy Hpx) as [d Hd].
  destruct (shiftr_level_bound (width this) (height this) px (S i) Hw Hh
              ltac:(lia)) as [Bx _].
  destruct (shiftr_level_bound (width this) (height this) py (S i) Hw Hh
              ltac:(lia)) as [_ By].
  destruct (Hbounds col row ltac:(lia) ltac:(lia)) as (cell' & Hld' & Hcov).
  rewrite Hld in Hld'. inversion Hld'; subst cell'.
  pose proof (Hcov px py d ltac:(lia) ltac:(lia) Epx Epy Hd) as Hd'.
  apply existsb_elem. exists d. split.
  - apply (coveredCells_elem _ _ _ _ _ _ _ d Hpixels). eauto.
  - unfold nearerThan in Hz. apply Z.leb_le in Hz. apply Z.leb_le. lia.
Qed.

(** When every covered cell has [max < z], no covered pixel has [z <=] its
    depth. *)
Lemma level_behind :
  forallb (behindAll z) cells = true -> anyPixelBehind z pixels = false.
Proof.
  destruct Hclamped as (Hl & Ht & Hr & Hb).
  intros Hall. apply not_true_is_false. intros Hex.
  apply existsb_elem in Hex as (d & Hd & Hz). apply Z.leb_le in Hz.
  apply (coveredCells_elem _ _ _ _ _ _ _ d Hpixels) in Hd
    as (py & px & Hpy & Hpx & Hd).
  destruct (shiftr_level_bound (width this) (height this) px (S i) Hw Hh
              ltac:(lia)) as [Bx _].
  destruct (shiftr_level_bound (width this) (height this) py (S i) Hw Hh
              ltac:(lia)) as [_ By].
  destruct (Hbounds (Z.shiftr px (Z.of_nat (S i))) (Z.shiftr py (Z.of_nat (S i)))
              ltac:(lia) ltac:(lia)) as (cell & Hld & Hcov).
  pose proof (Hcov px py d ltac:(lia) ltac:(lia) eq_refl eq_refl Hd) as Hd'.
  assert (Hin : cell ∈ cells).
  { apply (coveredCells_elem _ _ _ _ _ _ _ cell level_cells).
    exists (Z.shiftr py (Z.of_nat (S i))), (Z.shiftr px (Z.of_nat (S i))).
    split; [split; apply shiftr_mono; lia|].
    split; [split; apply shiftr_mono; lia|done]. }
  pose proof (proj1 (forallb_elem _ _) Hall cell Hin) as Hc.
  unfold behindAll in Hc. apply Z.ltb_lt in Hc. lia.
Qed.

End Level.

(** The search of the levels agrees with the exhaustive test of the
    pixels. *)
Lemma searchLevels_flat this rect z pixels : forall (n : nat) levels,
  0 < width this -> 0 < height this ->
  clamped this rect -> proper rect -> hierarchyOk this ->
  Z.of_nat n <= numReadyMipBuffers this ->
  coveredLevels this rect n = Some levels ->
  coveredPixels this rect = Some pixels ->
  searchLevels z levels pixels = anyPixelBehind z pixels.
Proof.
  induction n as [|n IH]; intros levels Hw Hh Hc Hp Hok Hn Hlev Hpix.
  - simpl in Hlev. inversion Hlev; subst. reflexivity.
  - simpl in Hlev.
    destruct (levelCellsIn this rect n) as [cells|] eqn:Ecells; [|done].
    destruct (coveredLevels this rect n) as [finer|] eqn:Efiner; [|done].
    simpl in Hlev. inversion Hlev; subst levels; clear Hlev.
    assert (Hmip : exists mip, mipBuffers this !! n = Some mip).
    { unfold levelCellsIn in Ecells.
      destruct (mipBuffers this !! n) as [mip|]; [by eexists|done]. }
    destruct Hmip as [mip Hmip].
    assert (Hb : cellBounds this n mip) by (apply Hok; [lia|done]).
    simpl.
    destruct (existsb (nearerThan z) cells) eqn:Enear.
    { symmetry. by eapply level_nearer. }
    destruct (forallb (behindAll z) cells) eqn:Eall.
    { symmetry. by eapply level_behind. }
    apply IH; [done..|lia|done|done].
Qed.


(** With a hierarchy that bounds the pixels, lines 252-302 answer as the
    exhaustive test of the pixels of the rectangle does. *)
Lemma searchDepth_flat fuel this rect z (k : nat) :
  sized this ->
  width this = 2 ^ Z.of_nat k ->
  0 <= numReadyMipBuffers this <= Z.of_nat (length (mipBuffers this)) ->
  numReadyMipBuffers this <= Z.of_nat k ->
  hierarchyOk this ->
  height this < Z.of_nat fuel ->
  clamped this rect -> proper rect ->
  exists pixels,
    coveredPixels this rect = Some pixels /\
    searchDepth fuel this rect z = Some (anyPixelBehind z pixels).
Proof.
  intros Hs Hw Hready Hk Hok Hfuel Hc Hp.
  destruct (coveredLevels_is_Some this rect
              (Z.to_nat (numReadyMipBuffers this)) Hs Hc ltac:(lia))
    as [levels Hlev].
  destruct (coveredPixels_is_Some this rect Hs Hc) as [pixels Hpix].
  exists pixels. split; [done|].
  pose proof Hs as (Hw0 & Hh0 & _).
  rewrite (searchDepth_spec fuel this rect z levels pixels); [|lia| |done|done].
  - f_equal.
    apply (searchLevels_flat this rect z pixels
             (Z.to_nat (numReadyMipBuffers this)) levels); try done. lia.
  - apply (pow2_strideOk fuel this _ k); [done|lia|done|lia].
Qed.

Lemma IsVisible_searchDepth fuel this box e :
  sized this -> numTriangleBatches this <> 0 ->
  projectCorners this (clipCorners this box) = Next e ->
  IsVisible fuel this box
  = searchDepth fuel this (queryRect this e) (queryDepth this e).
Proof.
  intros (_ & _ & Hbuf & _) Hbatches He. unfold IsVisible.
  rewrite Hbuf. rewrite bool_decide_eq_false_2 by done.
  rewrite (proj2 (Z.eqb_neq _ _) Hbatches). cbn [orb]. by rewrite He.
Qed.

(** With a hierarchy that bounds the pixels, the answer of [IsVisible] is
    that of the exhaustive test of the pixels of the rectangle: the levels
    only save work. *)
Theorem IsVisible_flat fuel this box (k : nat) e :
  sized this ->
  width this = 2 ^ Z.of_nat k ->
  0 <= numReadyMipBuffers this <= Z.of_nat (length (mipBuffers this)) ->
  numReadyMipBuffers this <= Z.of_nat k ->
  numTriangleBatches this <> 0 ->
  hierarchyOk this ->
  height this < Z.of_nat fuel ->
  projectCorners this (clipCorners this box) = Next e ->
  proper (queryRect this e) ->
  exists pixels,
    coveredPixels this (queryRect this e) = Some pixels /\
    IsVisible fuel this box
    = Some (anyPixelBehind (queryDepth this e) pixels).
Proof.
  intros Hs Hw Hready Hk Hbatches Hok Hfuel He Hp.
  rewrite (IsVisible_searchDepth fuel this box e Hs Hbatches He).
  apply (searchDepth_flat fuel this _ _ k); try done.
  apply queryRect_clamped.
Qed.

(** ** From [SetSize] to the query *)

(** What the resizing path makes of the object. *)
Lemma resize_spec fuel this w h this' :
  0 < w -> 0 < h ->
  resize fuel this w h = Some this' ->
  width this' = w /\ height this' = h /\ buffer this' = Some (w + 1) /\
  length (fullBuffer this') = Z.to_nat (w * (h + 2) + 2) /\
  numTriangleBatches this' = numTriangleBatches this /\
  numReadyMipBuffers this' = numReadyMipBuffers this /\
  viewProj this' = viewProj this /\
  exists n : nat, (1 <= n)%nat /\
    mipBuffers this' = map (fun j => levelCells (levelDims w h j)) (seq 1 n) /\
    fitsMinSize (levelDims w h n) = true /\
    forall j : nat, (1 <= j < n)%nat -> fitsMinSize (levelDims w h j) = false.
Proof.
  intros Hw Hh Hr. unfold resize in Hr.
  destruct (sliceLoop _ _ _ _ _ _) as [tasks' n].
  destruct (allocate (w * (h + 2) + 2) 0) as [full|] eqn:Ha; [|discriminate].
  apply allocate_Some in Ha as (_ & _ & ->). simpl in Hr.
  destruct (mipLoop fuel w h []) as [mips|] eqn:Hm; [|discriminate].
  simpl in Hr. inversion Hr; subst this'; clear Hr. simpl.
  apply mipLoop_spec in Hm; [|lia..].
  destruct Hm as (k & Hk & -> & Hfit & Hnot).
  unfold newArray. rewrite length_replicate.
  repeat (split; [done|]). exists k. done.
Qed.

Lemma levelDims_height_le w h (j : nat) : forall c,
  0 <= c -> h <= c * 2 ^ Z.of_nat j -> (levelDims w h j).2 <= c.
Proof.
  induction j as [|j IH]; intros c Hc Hh.
  - simpl in *. lia.
  - rewrite levelDims_S. unfold halveDims. simpl.
    assert (Hj : (levelDims w h j).2 <= 2 * c).
    { apply IH; [lia|]. rewrite Nat2Z.inj_succ, Z.pow_succ_r in Hh by lia. lia. }
    pose proof (ceilDiv_2_bounds (levelDims w h j).2). lia.
Qed.

Lemma levelSized_map w h (n : nat) this :
  width this = w -> height this = h ->
  levelSized this (map (fun j => levelCells (levelDims w h j)) (seq 1 n)).
Proof.
  intros <- <- i mip Hi. rewrite list_lookup_fmap in Hi.
  destruct (seq 1 n !! i) as [j|] eqn:Hj; [|discriminate].
  apply lookup_seq in Hj as [-> _]. simpl in Hi. inversion Hi; subst.
  unfold levelCells, newArray. by rewrite length_replicate.
Qed.

Lemma resize_sized fuel this w h this' :
  0 < w -> 0 < h -> resize fuel this w h = Some this' -> sized this'.
Proof.
  intros Hw Hh Hr.
  destruct (resize_spec _ _ _ _ _ Hw Hh Hr)
    as (Ew & Eh & Eb & El & _ & _ & _ & n & Hn & Em & _).
  split; [lia|]. split; [lia|]. split; [congruence|]. split; [congruence|].
  rewrite Em. split; [by rewrite length_map, length_seq|].
  by apply levelSized_map.
Qed.

(** After a call [SetSize(w, h)] that resizes, the allocations are those
    of the new size, whatever the object was before; the batch counter, the
    counter of ready levels and the view matrix are left as they were. *)
Theorem SetSize_sized fuel this w h this' :
  sameSize (forceEvenHeight this) w h = false ->
  SetSize fuel this w h = Some (true, this') ->
  sized this' /\ width this' = w /\ height this' = h /\
  numTriangleBatches this' = numTriangleBatches this /\
  numReadyMipBuffers this' = numReadyMipBuffers this /\
  viewProj this' = viewProj this.
Proof.
  intros Hsame Hs.
  destruct (SetSize_resized _ _ _ _ _ Hsame Hs) as (Hw & Hh & _ & Hr).
  destruct (resize_spec _ _ _ _ _ Hw Hh Hr)
    as (Ew & Eh & Eb & El & Eb' & Er & Ev & n & Hn & Em & _).
  assert (F : forall t, numTriangleBatches (forceEvenHeight t) = numTriangleBatches t
                        /\ numReadyMipBuffers (forceEvenHeight t) = numReadyMipBuffers t
                        /\ viewProj (forceEvenHeight t) = viewProj t).
  { intros t. unfold forceEvenHeight. by destruct (Z.land (height t) 1 =? 0). }
  destruct (F this) as (F1 & F2 & F3).
  split; [|repeat split; congruence].
  split; [lia|]. split; [lia|]. split; [congruence|]. split; [congruence|].
  rewrite Em. split; [by rewrite length_map, length_seq|].
  by apply levelSized_map.
Qed.

(** For a width [2^k >= 2] and a height of at most [OCCLUSION_MIN_SIZE]
    times the width, the chain that [SetSize] allocates has at most [k]
    levels and every level but the last has an even width: the strides of
    [IsVisible] are the levels' widths and the build of the hierarchy reads
    inside the levels. *)
Theorem SetSize_pow2_chain fuel this (k : nat) h this' :
  1 <= OCCLUSION_MIN_SIZE -> (1 <= k)%nat ->
  h <= OCCLUSION_MIN_SIZE * 2 ^ Z.of_nat k ->
  sameSize (forceEvenHeight this) (2 ^ Z.of_nat k) h = false ->
  SetSize fuel this (2 ^ Z.of_nat k) h = Some (true, this') ->
  (length (mipBuffers this') <= k)%nat /\ evenLevels this'.
Proof.
  intros Hmin Hk Hh Hsame Hs.
  destruct (SetSize_resized _ _ _ _ _ Hsame Hs) as (Hw & Hh0 & _ & Hr).
  destruct (resize_spec _ _ _ _ _ Hw Hh0 Hr)
    as (Ew & Eh & _ & _ & _ & _ & _ & n & Hn & Em & Hfit & Hnot).
  assert (Hlen : length (mipBuffers this') = n)
    by (by rewrite Em, length_map, length_seq).
  assert (Hnk : (n <= k)%nat).
  { destruct (decide (n <= k)%nat) as [|Hgt]; [done|]. exfalso.
    assert (Hf : fitsMinSize (levelDims (2 ^ Z.of_nat k) h k) = true).
    { unfold fitsMinSize. rewrite levelDims_pow2 by lia.
      rewrite Nat.sub_diag. change (2 ^ Z.of_nat 0) with 1.
      assert (Hm0 : 0 <= OCCLUSION_MIN_SIZE) by lia.
      pose proof (levelDims_height_le (2 ^ Z.of_nat k) h k OCCLUSION_MIN_SIZE
                    Hm0 Hh).
      apply andb_true_intro. split; apply Z.leb_le; lia. }
    rewrite Hnot in Hf by lia. discriminate. }
  split; [lia|].
  intros i Hi. rewrite Ew, Eh, levelDims_pow2 by lia.
  replace (Z.of_nat (k - S i)) with (Z.succ (Z.of_nat (k - S (S i)))) by lia.
  rewrite Z.pow_succ_r by lia. rewrite Z.even_mul. reflexivity.
Qed.


(** ** The build keeps the allocations *)

Lemma buildRest_lengths this n : forall (i : nat) mips ready mips' ready',
  0 < width this -> 0 < height this ->
  buildRest n (Z.of_nat i)
    (levelDims (width this) (height this) i).1
    (levelDims (width this) (height this) i).2 mips ready = Some (mips', ready') ->
  map length mips' = map length mips.
Proof.
  induction n as [|n IH]; intros i mips ready mips' ready' Hw Hh Hb.
  - simpl in Hb. by inversion Hb.
  - cbn -[levelDims] in Hb.
    destruct (halve_levelDims (width this) (height this) i Hw Hh) as [EW EH].
    rewrite EW, EH in Hb.
    destruct (load mips (Z.of_nat i - 1)) as [prev|]; [|done].
    destruct (load mips (Z.of_nat i)) as [cur|] eqn:Ecur; [|done].
    cbn -[levelDims] in Hb.
    destruct (reduceLevel _ _ _ _ _ _ cur) as [cur'|] eqn:Ered; [|done].
    cbn -[levelDims] in Hb.
    destruct (store mips (Z.of_nat i) cur') as [mips1|] eqn:Est; [|done].
    cbn -[levelDims] in Hb.
    destruct (levelDims_pos (width this) (height this) (S i) Hw Hh).
    apply reduceLevel_reduced in Ered as [Hlen _]; [|lia..].
    apply store_Some in Est as [Hrange ->].
    replace (Z.of_nat i + 1) with (Z.of_nat (S i)) in Hb by lia.
    apply IH in Hb; [|done..]. rewrite Hb.
    rewrite load_lookup in Ecur by lia.
    rewrite list_fmap_insert, Hlen.
    apply list_insert_id. rewrite list_lookup_fmap, Ecur. done.
Qed.

(** What the build makes of the object. *)
Lemma BuildDepthHierarchyWork_frame this this' :
  0 < width this -> 0 < height this ->
  BuildDepthHierarchyWork this = Some this' ->
  conservative this this' /\
  map length (mipBuffers this') = map length (mipBuffers this) /\
  numReadyMipBuffers this'
  = numReadyMipBuffers this + Z.of_nat (length (mipBuffers this)) /\
  fullBuffer this' = fullBuffer this /\ buffer this' = buffer this /\
  width this' = width this /\ height this' = height this /\
  numTriangleBatches this' = numTriangleBatches this.
Proof.
  intros Hw Hh Hb. unfold BuildDepthHierarchyWork in Hb.
  destruct (halve_levelDims (width this) (height this) 0 Hw Hh) as [EW EH].
  change (levelDims (width this) (height this) 0) with (width this, height this)
    in EW, EH.
  cbn -[levelDims] in EW, EH. rewrite EW, EH in Hb.
  destruct (load (mipBuffers this) 0) as [mip0|] eqn:E0; [|done].
  cbn -[levelDims] in Hb.
  destruct (reduceLevel _ _ _ _ _ _ mip0) as [mip0'|] eqn:Ered; [|done].
  cbn -[levelDims] in Hb.
  destruct (store (mipBuffers this) 0 mip0') as [mips|] eqn:Est; [|done].
  cbn -[levelDims] in Hb.
  destruct (buildRest _ _ _ _ _ _) as [[mips' ready']|] eqn:Erest; [|done].
  cbn -[levelDims] in Hb. inversion Hb; subst this'; clear Hb.
  cbn -[levelDims].
  destruct (levelDims_pos (width this) (height this) 1 Hw Hh).
  apply reduceLevel_reduced in Ered as [Hlen0 Hred]; [|lia..].
  pose proof (level0_bounds this mip0' Hw Hh Hred) as H0'.
  apply store_Some in Est as [Hrange ->].
  change 1 with (Z.of_nat 1) in Erest.
  pose proof (buildRest_lengths _ _ _ _ _ _ _ Hw Hh Erest) as Hlens.
  apply buildRest_spec in Erest; [|done|done|lia|].
  - destruct Erest as (Hl & Hr & Hall). rewrite length_insert in Hl.
    split; [|split; [|split; [lia|done]]].
    + intros N mip Hlk. apply (Hall N mip); [|done].
      apply lookup_lt_Some in Hlk. cbn -[levelDims] in Hlk. lia.
    + rewrite Hlens. change (Z.to_nat 0) with 0%nat.
      rewrite load_lookup in E0 by lia. change (Z.to_nat 0) with 0%nat in E0.
      rewrite list_fmap_insert, Hlen0.
      apply list_insert_id. by rewrite list_lookup_fmap, E0.
  - intros j mip Hj Hlk. assert (j = 0%nat) as -> by lia.
    change (Z.to_nat 0) with 0%nat in Hlk.
    rewrite list_lookup_insert_eq in Hlk by lia. inversion Hlk; subst. done.
Qed.

Lemma levelSized_lengths this this' mips mips' :
  width this' = width this -> height this' = height this ->
  map length mips' = map length mips ->
  levelSized this mips -> levelSized this' mips'.
Proof.
  intros Ew Eh Hl Hsz i mip Hi. rewrite Ew, Eh.
  assert (Hlk : map length mips' !! i = Some (length mip))
    by (by rewrite list_lookup_fmap, Hi).
  rewrite Hl, list_lookup_fmap in Hlk.
  destruct (mips !! i) as [m|] eqn:Em; [|done].
  simpl in Hlk. transitivity (length m); [congruence|by apply Hsz].
Qed.

(** The build on a sized object whose counter of ready levels is zero (as
    [Reset] leaves it) gives a sized object with every level ready and
    bounding the pixels. *)
Lemma BuildDepthHierarchyWork_ready this this' :
  sized this -> numReadyMipBuffers this = 0 ->
  BuildDepthHierarchyWork this = Some this' ->
  sized this' /\ hierarchyOk this' /\
  numReadyMipBuffers this' = Z.of_nat (length (mipBuffers this')) /\
  length (mipBuffers this') = length (mipBuffers this) /\
  width this' = width this /\ height this' = height this /\
  fullBuffer this' = fullBuffer this /\
  numTriangleBatches this' = numTriangleBatches this.
Proof.
  intros (Hw & Hh & Hbuf & Hlen & HL & Hsz) Hready Hb.
  destruct (BuildDepthHierarchyWork_frame this this' Hw Hh Hb)
    as (Hcons & Hlens & Hr & Hfull & Hbuf' & Ew & Eh & Ebat).
  assert (Hlen' : length (mipBuffers this') = length (mipBuffers this)).
  { by rewrite <- (length_map length), Hlens, length_map. }
  split.
  { split; [lia|]. split; [lia|]. split; [congruence|]. split; [congruence|].
    split; [lia|]. by eapply levelSized_lengths. }
  split; [|repeat split; try done; lia].
  intros N mip _ Hlk x y Hx Hy. rewrite Ew, Eh in Hx, Hy.
  destruct (Hcons N mip Hlk x y Hx Hy) as (cell & Hld & Hcov).
  exists cell. rewrite Ew, Eh. split; [done|].
  intros px py d Hpx Hpy Ex Ey Hd. apply (Hcov px py d); try done.
  unfold readBuffer in *. by rewrite Hfull, Hbuf' in Hd.
Qed.

(** From [SetSize] to the query.  The object is sized with a width
    [2^k >= 2] and a height of at most [OCCLUSION_MIN_SIZE] times the
    width, a frame of [n > 0] batches leaves [pixels] in the buffer and the
    hierarchy is built.  Then a query with fuel for the rows whose box is
    in front of the near plane and meets the screen returns, and it
    answers whether some pixel of the clamped rectangle is at least as far
    as the box. *)
Theorem frame_query fuel0 fuel this0 (k : nat) h n pixels s1 s2 box e :
  1 <= OCCLUSION_MIN_SIZE -> (1 <= k)%nat ->
  h <= OCCLUSION_MIN_SIZE * 2 ^ Z.of_nat k ->
  sameSize (forceEvenHeight this0) (2 ^ Z.of_nat k) h = false ->
  SetSize fuel0 this0 (2 ^ Z.of_nat k) h = Some (true, s1) ->
  n <> 0 -> length pixels = length (fullBuffer s1) ->
  BuildDepthHierarchyWork (withFrame s1 n pixels) = Some s2 ->
  h < Z.of_nat fuel ->
  projectCorners s2 (clipCorners s2 box) = Next e ->
  proper (queryRect s2 e) ->
  exists covered,
    coveredCells (fun i => load pixels (2 ^ Z.of_nat k + 1 + i)) (2 ^ Z.of_nat k)
      (IntRect.top (queryRect s2 e)) (IntRect.bottom (queryRect s2 e))
      (IntRect.left (queryRect s2 e)) (IntRect.right (queryRect s2 e))
    = Some covered /\
    IsVisible fuel s2 box = Some (anyPixelBehind (queryDepth s2 e) covered).
Proof.
  intros Hmin Hk Hh Hsame Hs Hn Hpix Hb Hfuel He Hp.
  destruct (SetSize_resized _ _ _ _ _ Hsame Hs) as (Hw & Hh0 & _ & Hr).
  destruct (resize_spec _ _ _ _ _ Hw Hh0 Hr)
    as (Ew & Eh & Eb & El & _ & _ & _ & m & Hm & Em & Hfit & Hnot).
  assert (Hmk : (m <= k)%nat).
  { destruct (decide (m <= k)%nat) as [|Hgt]; [done|]. exfalso.
    assert (Hf : fitsMinSize (levelDims (2 ^ Z.of_nat k) h k) = true).
    { unfold fitsMinSize. rewrite levelDims_pow2 by lia.
      rewrite Nat.sub_diag. change (2 ^ Z.of_nat 0) with 1.
      assert (Hm0 : 0 <= OCCLUSION_MIN_SIZE) by lia.
      pose proof (levelDims_height_le (2 ^ Z.of_nat k) h k OCCLUSION_MIN_SIZE
                    Hm0 Hh).
      apply andb_true_intro. split; apply Z.leb_le; lia. }
    rewrite Hnot in Hf by lia. discriminate. }
  assert (Hsized : sized (withFrame s1 n pixels)).
  { unfold sized. cbn -[levelDims]. rewrite Ew, Eh.
    split; [lia|]. split; [lia|]. split; [by rewrite Eb|].
    split; [by rewrite Hpix, El|].
    rewrite Em. split; [by rewrite length_map, length_seq|].
    intros i mip Hi. cbn -[levelDims]. rewrite Ew, Eh.
    eapply (levelSized_map (2 ^ Z.of_nat k) h m s1 Ew Eh) in Hi.
    by rewrite Ew, Eh in Hi. }
  destruct (BuildDepthHierarchyWork_ready _ _ Hsized eq_refl Hb)
    as (Hs2 & Hok & Hready & Hlen & Ew2 & Eh2 & Ef2 & Eb2).
  cbn -[levelDims] in Hlen, Ew2, Eh2, Ef2, Eb2.
  assert (Hlen1 : length (mipBuffers s1) = m)
    by (by rewrite Em, length_map, length_seq).
  assert (A1 : width s2 = 2 ^ Z.of_nat k) by congruence.
  assert (A2 : 0 <= numReadyMipBuffers s2 <= Z.of_nat (length (mipBuffers s2)))
    by lia.
  assert (A3 : numReadyMipBuffers s2 <= Z.of_nat k) by lia.
  assert (A4 : numTriangleBatches s2 <> 0) by congruence.
  assert (A5 : height s2 < Z.of_nat fuel) by lia.
  rewrite (IsVisible_searchDepth fuel s2 box e Hs2 A4 He).
  destruct (searchDepth_flat fuel s2 (queryRect s2 e) (queryDepth s2 e) k
              Hs2 A1 A2 A3 Hok A5 (queryRect_clamped s2 e) Hp)
    as (covered & Hcov & Hvis).
  exists covered. split; [|done].
  unfold coveredPixels in Hcov. rewrite Ew2, Ew in Hcov.
  rewrite <- Hcov. unfold coveredCells.
  pose proof Hs2 as (_ & _ & Hbuf2 & _).
  assert (Hrd : forall i, readBuffer s2 i = load pixels (2 ^ Z.of_nat k + 1 + i)).
  { intros i. unfold readBuffer. rewrite Hbuf2, Ef2, Ew2, Ew. done. }
  f_equal. apply mapM_ext. intros row. apply mapM_ext. intros col. by rewrite Hrd.
Qed.

End Flat.

(** ** The frame pipeline: the triangles of a batch *)

Section GenerateFacts.
Context `{F : FrameHeader}.

Lemma clipInto_length (vs : list Vector4) dst a b da db vs' :
  clipInto vs dst a b da db = Some vs' -> length vs' = length vs.
Proof.
  unfold clipInto. destruct (load vs a); [|done]. destruct (load vs b); [|done].
  simpl. apply store_length.
Qed.

Lemma copyInto_length (vs : list Vector4) dst src vs' :
  copyInto vs dst src = Some vs' -> length vs' = length vs.
Proof.
  unfold copyInto. destruct (load vs src); [|done]. simpl. apply store_length.
Qed.

Lemma clipTriangle_lengths plane i st st1 :
  clipTriangle plane i st = Some st1 ->
  length (clipVerts st1) = length (clipVerts st).
Proof.
  unfold clipTriangle. intros Hc.
  destruct (load (clipTriangles st) i) as [active|]; simpl in Hc; [|discriminate Hc].
  destruct active; [|by inversion Hc].
  destruct (load (clipVerts st) (i * 3)); simpl in Hc; [|discriminate Hc].
  destruct (load (clipVerts st) (i * 3 + 1)); simpl in Hc; [|discriminate Hc].
  destruct (load (clipVerts st) (i * 3 + 2)); simpl in Hc; [|discriminate Hc].
  repeat match type of Hc with
  | (if ?b then _ else _) = _ => destruct b; simpl in Hc
  end.
  all: unfold appendTriangle in Hc; simpl in Hc.
  all: repeat match type of Hc with
  | context [store ?a ?k ?v] =>
      destruct (store a k v); simpl in Hc; [|discriminate Hc]
  | context [clipInto ?a ?d ?x ?y ?da ?db] =>
      let E := fresh "E" in
      destruct (clipInto a d x y da db) eqn:E; simpl in Hc; [|discriminate Hc];
      apply clipInto_length in E
  | context [copyInto ?a ?d ?x] =>
      let E := fresh "E" in
      destruct (copyInto a d x) eqn:E; simpl in Hc; [|discriminate Hc];
      apply copyInto_length in E
  end.
  all: inversion Hc; subst; simpl; congruence.
Qed.

Lemma clipLoop_lengths plane : forall (n : nat) i st st1,
  clipLoop plane n i st = Some st1 ->
  length (clipVerts st1) = length (clipVerts st).
Proof.
  induction n as [|n IH]; intros i st st1 Hc; simpl in Hc; [by inversion Hc|].
  destruct (clipTriangle plane i st) as [s|] eqn:E; simpl in Hc; [|discriminate Hc].
  apply IH in Hc. apply clipTriangle_lengths in E. congruence.
Qed.

Lemma clipAgainst_lengths clipMask bit plane st st1 :
  clipAgainst clipMask bit plane st = Some st1 ->
  length (clipVerts st1) = length (clipVerts st).
Proof.
  unfold clipAgainst. destruct (_ =? 0); [by inversion 1|].
  apply clipLoop_lengths.
Qed.

(** When [AddTriangle] returns, the array it leaves is the caller's array
    with some slots written. *)
Lemma AddTriangleArray_Some this task vs task' :
  AddTriangle this task vs = Some task' ->
  exists vs', AddTriangleArray vs = Some vs' /\ length vs' = length vs.
Proof.
  unfold AddTriangle, AddTriangleArray.
  destruct (load vs 0) as [v0|]; [|done].
  destruct (load vs 1) as [v1|]; [|done].
  destruct (load vs 2) as [v2|]; [|done].
  cbn [mbind option_bind].
  destruct (negb _); [eauto|]. destruct (_ =? 0); [eauto|].
  destruct (store (replicate 64 false) 0 true) as [ct|]; [|done].
  cbn [mbind option_bind].
  assert (L0 : length (clipVerts (mkClipState vs ct 1)) = length vs) by done.
  revert L0. generalize (mkClipState vs ct 1). intros st L.
  repeat match goal with
  | |- context [clipAgainst ?m ?bit ?pl st] =>
      let E := fresh "E" in
      destruct (clipAgainst m bit pl st) as [s1|] eqn:E; cbn [mbind option_bind];
      [|done];
      apply clipAgainst_lengths in E; rewrite L in E; clear L st;
      rename s1 into st, E into L
  end.
  intros _. eauto.
Qed.

Lemma transformAndAdd_spec this mvp v0 v1 v2 task vs :
  length vs = 192%nat ->
  match transformAndAdd this mvp v0 v1 v2 (task, vs) with
  | Some (task', vs') =>
      AddTriangle this task (triangleArray mvp (v0, v1, v2)) = Some task'
      /\ length vs' = 192%nat
  | None => AddTriangle this task (triangleArray mvp (v0, v1, v2)) = None
  end.
Proof.
  intros Hl. unfold transformAndAdd.
  rewrite store_in_range by lia. cbn [mbind option_bind].
  rewrite store_in_range by (rewrite length_insert; lia). cbn [mbind option_bind].
  rewrite store_in_range by (rewrite !length_insert; lia). cbn [mbind option_bind].
  set (vs1 := <[_ := _]> (<[_ := _]> (<[_ := _]> vs))).
  assert (Hl1 : length vs1 = 192%nat) by (unfold vs1; by rewrite !length_insert).
  assert (Heq : AddTriangle this task vs1
                = AddTriangle this task (triangleArray mvp (v0, v1, v2))).
  { apply AddTriangle_scratch; [by rewrite Hl1|].
    unfold vs1. destruct vs as [|a [|b [|c vs]]]; try (simpl in Hl; lia).
    reflexivity. }
  rewrite <- Heq. clear Heq.
  destruct (AddTriangle this task vs1) as [task'|] eqn:E; [|done].
  cbn [mbind option_bind].
  destruct (AddTriangleArray_Some _ _ _ _ E) as (vs' & -> & Hl').
  cbn [mbind option_bind]. split; [done|congruence].
Qed.

Lemma generatePlain_spec this mvp b : forall (n : nat) fuel k task vs,
  length vs = 192%nat -> 0 <= k ->
  Z.of_nat n = Z.max 0 (drawCount b / 3 - k) -> (n < fuel)%nat ->
  fst <$> generatePlain fuel this mvp b (3 * k) (task, vs)
  = (ts ← mapM (plainTriangle b) (seqZ k (Z.of_nat n)); addAll this mvp ts task).
Proof.
  induction n as [|n IH]; intros fuel k task vs Hl Hk Hn Hf;
    (destruct fuel as [|fuel]; [lia|]); cbn [generatePlain].
  - assert (E : (3 * k + 2 <? drawCount b) = false).
    { apply Z.ltb_ge.
      pose proof (Z.div_mod (drawCount b) 3 ltac:(lia)).
      pose proof (Z.mod_pos_bound (drawCount b) 3 ltac:(lia)). lia. }
    rewrite E. reflexivity.
  - assert (E : (3 * k + 2 <? drawCount b) = true).
    { apply Z.ltb_lt.
      pose proof (Z.div_mod (drawCount b) 3 ltac:(lia)).
      pose proof (Z.mod_pos_bound (drawCount b) 3 ltac:(lia)). lia. }
    rewrite E, seqZ_succ. cbn [mapM].
    destruct (load (vertexData b) (3 * k)) as [v0|] eqn:E0;
      [|by unfold plainTriangle; rewrite E0].
    destruct (load (vertexData b) (3 * k + 1)) as [v1|] eqn:E1;
      [|by unfold plainTriangle; rewrite E0, E1].
    destruct (load (vertexData b) (3 * k + 2)) as [v2|] eqn:E2;
      [|by unfold plainTriangle; rewrite E0, E1, E2].
    assert (Ept : plainTriangle b k = Some (v0, v1, v2))
      by (by unfold plainTriangle; rewrite E0, E1, E2).
    rewrite Ept. cbn [mbind option_bind].
    pose proof (transformAndAdd_spec this mvp v0 v1 v2 task vs Hl) as Hstep.
    destruct (transformAndAdd this mvp v0 v1 v2 (task, vs)) as [[task' vs']|].
    + destruct Hstep as [Hadd Hl']. cbn [mbind option_bind].
      replace (3 * k + 3) with (3 * (k + 1)) by lia.
      rewrite (IH fuel (k + 1) task' vs' Hl') by lia.
      destruct (mapM (plainTriangle b) (seqZ (k + 1) (Z.of_nat n))) as [ts|];
        cbn [mbind option_bind mret option_ret addAll]; [by rewrite Hadd|done].
    + cbn [mbind option_bind fmap option_fmap option_map].
      destruct (mapM (plainTriangle b) (seqZ (k + 1) (Z.of_nat n))) as [ts|];
        cbn [mbind option_bind mret option_ret addAll]; [by rewrite Hstep|done].
Qed.

Lemma ceilDiv_3 c : 3 * (ceilDiv c 3 - 1) < c <= 3 * ceilDiv c 3.
Proof.
  unfold ceilDiv.
  pose proof (Z.div_mod (- c) 3 ltac:(lia)).
  pose proof (Z.mod_pos_bound (- c) 3 ltac:(lia)). lia.
Qed.

Lemma generateIndexed_spec this mvp b idata : forall (n : nat) fuel k task vs,
  length vs = 192%nat -> 0 <= k ->
  Z.of_nat n = Z.max 0 (ceilDiv (drawCount b) 3 - k) -> (n < fuel)%nat ->
  fst <$> generateIndexed fuel this mvp b idata (3 * k) (task, vs)
  = (ts ← mapM (indexedTriangle b idata) (seqZ k (Z.of_nat n));
     addAll this mvp ts task).
Proof.
  induction n as [|n IH]; intros fuel k task vs Hl Hk Hn Hf;
    (destruct fuel as [|fuel]; [lia|]); cbn [generateIndexed].
  - assert (E : (3 * k <? drawCount b) = false).
    { apply Z.ltb_ge. pose proof (ceilDiv_3 (drawCount b)). lia. }
    rewrite E. reflexivity.
  - assert (E : (3 * k <? drawCount b) = true).
    { apply Z.ltb_lt. pose proof (ceilDiv_3 (drawCount b)). lia. }
    rewrite E, seqZ_succ. cbn [mapM].
    destruct (load idata (3 * k)) as [i0|] eqn:E0;
      [|by unfold indexedTriangle; rewrite E0].
    destruct (load idata (3 * k + 1)) as [i1|] eqn:E1;
      [|by unfold indexedTriangle; rewrite E0, E1].
    destruct (load idata (3 * k + 2)) as [i2|] eqn:E2;
      [|by unfold indexedTriangle; rewrite E0, E1, E2].
    cbn [mbind option_bind].
    destruct (load (vertexData b) i0) as [v0|] eqn:F0;
      [|by unfold indexedTriangle; rewrite E0, E1, E2; cbn; rewrite F0].
    destruct (load (vertexData b) i1) as [v1|] eqn:F1;
      [|by unfold indexedTriangle; rewrite E0, E1, E2; cbn; rewrite F0; cbn;
           rewrite F1].
    destruct (load (vertexData b) i2) as [v2|] eqn:F2;
      [|by unfold indexedTriangle; rewrite E0, E1, E2; cbn; rewrite F0; cbn;
           rewrite F1; cbn; rewrite F2].
    assert (Ept : indexedTriangle b idata k = Some (v0, v1, v2)).
    { unfold indexedTriangle. rewrite E0, E1, E2. cbn. rewrite F0. cbn.
      rewrite F1. cbn. by rewrite F2. }
    rewrite Ept. cbn [mbind option_bind].
    pose proof (transformAndAdd_spec this mvp v0 v1 v2 task vs Hl) as Hstep.
    destruct (transformAndAdd this mvp v0 v1 v2 (task, vs)) as [[task' vs']|].
    + destruct Hstep as [Hadd Hl']. cbn [mbind option_bind].
      replace (3 * k + 3) with (3 * (k + 1)) by lia.
      rewrite (IH fuel (k + 1) task' vs' Hl') by lia.
      destruct (mapM (indexedTriangle b idata) (seqZ (k + 1) (Z.of_nat n))) as [ts|];
        cbn [mbind option_bind mret option_ret addAll]; [by rewrite Hadd|done].
    + cbn [mbind option_bind fmap option_fmap option_map].
      destruct (mapM (indexedTriangle b idata) (seqZ (k + 1) (Z.of_nat n))) as [ts|];
        cbn [mbind option_bind mret option_ret addAll]; [by rewrite Hstep|done].
Qed.

(** The loops of [GenerateTrianglesWork] as a fold of [AddTriangle]. *)
Lemma generateTriangles_addAll fuel this bt vertices :
  length vertices = 192%nat ->
  Z.max 0 (ceilDiv (drawCount (batch bt)) 3) < Z.of_nat fuel ->
  generateTriangles fuel this bt vertices
  = (ts ← batchTriangles (batch bt);
     addAll this (mulTransform (viewProj this) (worldTransform (batch bt))) ts
       (work bt)).
Proof.
  intros Hl Hf. unfold generateTriangles, batchTriangles.
  pose proof (ceilDiv_3 (drawCount (batch bt))) as Hc.
  assert (Hfloor : drawCount (batch bt) / 3 <= ceilDiv (drawCount (batch bt)) 3).
  { pose proof (Z.div_mod (drawCount (batch bt)) 3 ltac:(lia)).
    pose proof (Z.mod_pos_bound (drawCount (batch bt)) 3 ltac:(lia)). lia. }
  destruct (indexData (batch bt)) as [idata|].
  - assert (E : generateIndexed fuel this
                  (mulTransform (viewProj this) (worldTransform (batch bt)))
                  (batch bt) idata 0 (work bt, vertices)
                = generateIndexed fuel this
                    (mulTransform (viewProj this) (worldTransform (batch bt)))
                    (batch bt) idata (3 * 0) (work bt, vertices)) by done.
    destruct (indexSize (batch bt) =? 2); rewrite E;
      rewrite (generateIndexed_spec _ _ _ _
                 (Z.to_nat (ceilDiv (drawCount (batch bt)) 3))) by lia;
      by rewrite seqZ_to_nat.
  - change (generatePlain fuel this _ (batch bt) 0 (work bt, vertices))
      with (generatePlain fuel this
              (mulTransform (viewProj this) (worldTransform (batch bt)))
              (batch bt) (3 * 0) (work bt, vertices)).
    rewrite (generatePlain_spec _ _ _ (Z.to_nat (drawCount (batch bt) / 3)))
      by lia.
    by rewrite seqZ_to_nat.
Qed.

(** [GenerateTrianglesWork] feeds [AddTriangle] the triangles of the
    batch in order, whatever the local array holds on entry: without
    indices the [drawCount / 3] whole runs of three vertices (one or two
    vertices left over are ignored), with indices the
    [ceil(drawCount / 3)] runs of three indices (when [drawCount] is not a
    multiple of three, the last run reads one or two indices past
    [drawCount]). *)
Theorem generateTriangles_spec fuel this bt vertices :
  length vertices = 192%nat ->
  Z.max 0 (ceilDiv (drawCount (batch bt)) 3) < Z.of_nat fuel ->
  generateTriangles fuel this bt vertices
  = (ts ← batchTriangles (batch bt);
     addAll this (mulTransform (viewProj this) (worldTransform (batch bt))) ts
       (work bt)).
Proof. apply generateTriangles_addAll. Qed.

End GenerateFacts.

(** ** The frame pipeline: a slice *)

Section RasterFacts.
Context `{F : FrameHeader}.

Lemma three_perm (a b c : Z) :
  NoDup [a; b; c] -> 0 <= a < 3 -> 0 <= b < 3 -> 0 <= c < 3 ->
  [a; b; c] ≡ₚ [0; 1; 2].
Proof.
  intros Hnd Ha Hb Hc. apply NoDup_Permutation; [done| |].
  - repeat constructor; rewrite ?elem_of_cons, ?elem_of_nil; lia.
  - inversion Hnd as [|? ? Hab Hnd']; subst.
    inversion Hnd' as [|? ? Hbc _]; subst.
    rewrite !elem_of_cons, elem_of_nil in Hab.
    rewrite !elem_of_cons, elem_of_nil in Hbc.
    intros x. rewrite !elem_of_cons, !elem_of_nil. lia.
Qed.

(** The sort of lines 611-646 names each vertex once, and in its order no
    vertex is strictly above one before it, provided [<] on floats is
    asymmetric and transitive (as it is on IEEE floats, NaN included). *)
Theorem sortVertices_sorted (y0 y1 y2 : float) :
  (forall a b, f_lt a b = true -> f_lt b a = false) ->
  (forall a b c, f_lt a b = true -> f_lt b c = true -> f_lt a c = true) ->
  [top (sortVertices y0 y1 y2); middle (sortVertices y0 y1 y2);
   bottom (sortVertices y0 y1 y2)] ≡ₚ [0; 1; 2] /\
  f_lt (heightAt y0 y1 y2 (middle (sortVertices y0 y1 y2)))
    (heightAt y0 y1 y2 (top (sortVertices y0 y1 y2))) = false /\
  f_lt (heightAt y0 y1 y2 (bottom (sortVertices y0 y1 y2)))
    (heightAt y0 y1 y2 (middle (sortVertices y0 y1 y2))) = false /\
  f_lt (heightAt y0 y1 y2 (bottom (sortVertices y0 y1 y2)))
    (heightAt y0 y1 y2 (top (sortVertices y0 y1 y2))) = false.
Proof.
  intros Hasym Htrans. unfold sortVertices.
  assert (Hperm : forall a b c : Z, NoDup [a; b; c] -> 0 <= a < 3 -> 0 <= b < 3 ->
                    0 <= c < 3 -> [a; b; c] ≡ₚ [0; 1; 2]) by apply three_perm.
  assert (Hnd : forall a b c : Z, a <> b -> a <> c -> b <> c -> NoDup [a; b; c]).
  { intros a b c Hab Hac Hbc. repeat constructor;
      rewrite ?elem_of_cons, ?elem_of_nil; lia. }
  destruct (f_lt y0 y1) eqn:E01; [destruct (f_lt y2 y0) eqn:E20|
                                  destruct (f_lt y2 y1) eqn:E21];
    [| destruct (f_lt y1 y2) eqn:E12 | | destruct (f_lt y0 y2) eqn:E02];
    simpl; (split; [apply Hperm; [apply Hnd|..]; lia|]); unfold heightAt; simpl.
  - split; [by apply Hasym|]. split; [by apply Hasym|].
    apply Hasym. by eapply Htrans.
  - split; [by apply Hasym|]. split; [by apply Hasym|].
    apply Hasym. by eapply Htrans.
  - split; [done|]. split; [done|]. by apply Hasym.
  - split; [by apply Hasym|]. split; [done|].
    destruct (f_lt y0 y2) eqn:E02; [|done].
    (* y2 < y1, not y0 < y1, y0 < y2 : impossible by transitivity *)
    by rewrite (Htrans _ _ _ E02 E21) in E01.
  - split; [done|]. split; [by apply Hasym|]. done.
  - split; [done|]. split; [done|]. done.
Qed.


Lemma setPixels_id this : setPixels this (fullBuffer this) = this.
Proof. by destruct this. Qed.

Lemma clearRow_spec off : forall (n : nat) start this,
  buffer this = Some off -> 0 <= off + start ->
  off + start + Z.of_nat n <= Z.of_nat (length (fullBuffer this)) ->
  exists this', clearRow n start this = Some this' /\
    clearedBetween start (start + Z.of_nat n) this this'.
Proof.
  induction n as [|n IH]; intros start this Hbuf Hlo Hhi.
  - exists this. split; [done|]. split; [by rewrite setPixels_id|]. split; [done|].
    intros i. by rewrite bool_decide_eq_false_2 by lia.
  - simpl clearRow. unfold writeBuffer. rewrite Hbuf. cbn [mbind option_bind].
    rewrite store_in_range by lia. cbn [mbind option_bind].
    set (this1 := mkOcclusionBuffer _ _ _ _ _ _ _ _ _ _ _ _ _ _ _).
    destruct (IH (start + 1) this1) as (this' & -> & E & Hl & Hpx).
    { reflexivity. } { lia. } { unfold this1. simpl. rewrite length_insert. lia. }
    exists this'. split; [done|]. split; [|split].
    + rewrite E. unfold setPixels, this1. simpl. by rewrite Hbuf.
    + rewrite Hl. unfold this1. simpl. by rewrite length_insert.
    + intros i. rewrite Hpx. unfold readBuffer, this1. simpl. rewrite Hbuf. simpl.
      destruct (decide (i = start)) as [->|Hne].
      * rewrite load_insert_eq by lia.
        rewrite (bool_decide_eq_true_2 (start <= start < _)) by lia.
        by destruct (bool_decide _).
      * rewrite load_insert_ne by lia.
        destruct (bool_decide (start + 1 <= i < start + 1 + Z.of_nat n)) eqn:E1.
        -- apply bool_decide_eq_true_1 in E1.
           by rewrite bool_decide_eq_true_2 by lia.
        -- apply bool_decide_eq_false_1 in E1.
           by rewrite bool_decide_eq_false_2 by lia.
Qed.

Lemma clearedBetween_trans a b c this1 this2 this3 :
  a <= b <= c ->
  clearedBetween a b this1 this2 -> clearedBetween b c this2 this3 ->
  clearedBetween a c this1 this3.
Proof.
  intros Habc (E1 & L1 & P1) (E2 & L2 & P2). split; [|split; [congruence|]].
  - rewrite E2 at 1. rewrite E1 at 1. reflexivity.
  - intros i. rewrite P2, P1.
    destruct (bool_decide (b <= i < c)) eqn:Ebc.
    + apply bool_decide_eq_true_1 in Ebc. by rewrite bool_decide_eq_true_2 by lia.
    + apply bool_decide_eq_false_1 in Ebc.
      destruct (bool_decide (a <= i < b)) eqn:Eab.
      * apply bool_decide_eq_true_1 in Eab. by rewrite bool_decide_eq_true_2 by lia.
      * apply bool_decide_eq_false_1 in Eab. by rewrite bool_decide_eq_false_2 by lia.
Qed.

Lemma clearRows_spec : forall (n : nat) y this,
  sized this -> 0 <= y -> y + Z.of_nat n <= height this ->
  exists this', clearRows n y this = Some this' /\
    clearedBetween (width this * y) (width this * (y + Z.of_nat n)) this this'.
Proof.
  induction n as [|n IH]; intros y this Hs Hy Hn.
  - exists this. split; [done|]. split; [by rewrite setPixels_id|]. split; [done|].
    intros i. by rewrite bool_decide_eq_false_2 by lia.
  - pose proof Hs as (Hw & Hh & Hbuf & Hlen & HL & Hsz).
    simpl clearRows.
    destruct (clearRow_spec (width this + 1)
                (Z.to_nat (width this * y + width this - width this * y))
                (width this * y) this Hbuf) as (this1 & -> & Hc1); [nia|nia|].
    cbn [mbind option_bind].
    replace (Z.of_nat (Z.to_nat (width this * y + width this - width this * y)))
      with (width this) in Hc1 by lia.
    pose proof Hc1 as (E1 & L1 & P1).
    assert (Hs1 : sized this1).
    { rewrite E1. unfold sized, setPixels. cbn -[levelDims].
      split; [done|]. split; [done|]. split; [done|]. split; [congruence|].
      split; [done|]. exact Hsz. }
    assert (Ew : width this1 = width this) by (by rewrite E1).
    assert (Eh : height this1 = height this) by (by rewrite E1).
    destruct (IH (y + 1) this1 Hs1) as (this' & -> & Hc2); [lia|lia|].
    exists this'. split; [done|]. rewrite Ew in Hc2.
    eapply (clearedBetween_trans _ (width this * y + width this)); [nia|done|].
    replace (width this * (y + Z.of_nat (S n)))
      with (width this * (y + 1 + Z.of_nat n)) by lia.
    replace (width this * y + width this) with (width this * (y + 1)) by lia.
    done.
Qed.


Lemma rasterizeBatches_empty sliceIdx y0 y1 tasks this : forall (n : nat) i,
  (forall j, i <= j < i + Z.of_nat n ->
     exists bt, load tasks j = Some bt /\
       load (triangleIndices (work bt)) sliceIdx = Some []) ->
  rasterizeBatches n i sliceIdx y0 y1 tasks this = Some this.
Proof.
  induction n as [|n IH]; intros i Hempty; [done|].
  cbn [rasterizeBatches]. destruct (Hempty i ltac:(lia)) as (bt & -> & Hb).
  cbn [mbind option_bind]. rewrite Hb. cbn [mbind option_bind rasterizeBucket].
  apply IH. intros j Hj. apply Hempty. lia.
Qed.

(** The work of a slice that no triangle of the frame touches: the rows
    [startY .. endY - 1] of the slice are set to the clear value, no other
    cell of the allocation changes (the guard cells and the rows of the
    other slices included), the counter of pending slices goes down by one,
    and the build of the hierarchy is queued when it was the last. *)
Theorem RasterizeTrianglesWork_clears p sliceIdx t :
  sized (occl p) ->
  load (rasterizeTrianglesTasks (occl p)) sliceIdx = Some t ->
  0 <= startY t <= endY t -> endY t <= height (occl p) ->
  (forall i, 0 <= i < numTriangleBatches (occl p) ->
     exists bt, load (generateTrianglesTasks p) i = Some bt /\
       load (triangleIndices (work bt)) sliceIdx = Some []) ->
  exists this',
    RasterizeTrianglesWork p sliceIdx = Some (rasterizeDone (setOccl p this')) /\
    clearedBetween (width (occl p) * startY t) (width (occl p) * endY t)
      (occl p) this'.
Proof.
  intros Hs Ht Hy Hh Hempty. unfold RasterizeTrianglesWork.
  rewrite Ht. cbn [mbind option_bind].
  destruct (clearRows_spec (Z.to_nat (endY t - startY t)) (startY t) (occl p) Hs)
    as (this' & -> & Hc); [lia|lia|].
  cbn [mbind option_bind].
  replace (startY t + Z.of_nat (Z.to_nat (endY t - startY t))) with (endY t)
    in Hc by lia.
  assert (En : numTriangleBatches this' = numTriangleBatches (occl p))
    by (destruct Hc as (-> & _); reflexivity).
  rewrite rasterizeBatches_empty.
  - exists this'. done.
  - intros j Hj. apply Hempty. lia.
Qed.

End RasterFacts.

(** ** The frame pipeline: batches and counters *)

Section FrameFacts.
Context `{F : FrameHeader}.

Lemma clearBuckets_spec : forall (n : nat) i (buckets : list (list Z)),
  0 <= i -> i + Z.of_nat n <= Z.of_nat (length buckets) ->
  exists buckets',
    clearBuckets n i buckets = Some buckets' /\
    length buckets' = length buckets /\
    forall j, load buckets' j
              = if bool_decide (i <= j < i + Z.of_nat n) then Some []
                else load buckets j.
Proof.
  induction n as [|n IH]; intros i buckets Hi Hn.
  - exists buckets. split; [done|]. split; [done|]. intros j.
    by rewrite bool_decide_eq_false_2 by lia.
  - simpl. rewrite store_in_range by lia. cbn [mbind option_bind].
    destruct (IH (i + 1) (<[Z.to_nat i := []]> buckets)) as (bs & -> & Hl & Hb);
      [lia|rewrite length_insert; lia|].
    exists bs. split; [done|]. rewrite length_insert in Hl. split; [done|].
    intros j. rewrite Hb.
    destruct (decide (j = i)) as [->|Hne].
    + rewrite load_insert_eq by lia.
      rewrite (bool_decide_eq_true_2 (i <= i < _)) by lia.
      by destruct (bool_decide _).
    + rewrite load_insert_ne by lia.
      destruct (bool_decide (i + 1 <= j < i + 1 + Z.of_nat n)) eqn:E.
      * apply bool_decide_eq_true_1 in E. by rewrite bool_decide_eq_true_2 by lia.
      * apply bool_decide_eq_false_1 in E. by rewrite bool_decide_eq_false_2 by lia.
Qed.

Lemma addBatch_spec blank p fill :
  batchesOk p ->
  exists p' old bt,
    addBatch blank p fill = Some p' /\ batchesOk p' /\ batchAdded p p' bt /\
    batch bt = fill (batch old).
Proof.
  intros (Hn & Ha & Hb). unfold addBatch.
  set (n := numTriangleBatches (occl p)) in *.
  set (tasks := if _ <=? n then _ else _).
  assert (Htasks : Z.of_nat (length tasks)
                   = Z.max (Z.of_nat (length (generateTrianglesTasks p))) (n + 1)
                   /\ Forall (fun bt => activeSlices (occl p)
                                <= Z.of_nat (length (triangleIndices (work bt)))) tasks
                   /\ forall j, j <> n ->
                        load tasks j = load (generateTrianglesTasks p) j).
  { unfold tasks.
    destruct (Z.of_nat (length (generateTrianglesTasks p)) <=? n) eqn:E.
    - apply Z.leb_le in E. rewrite length_app. simpl. split; [lia|]. split.
      + apply Forall_app. split; [done|]. constructor; [|constructor].
        simpl. rewrite length_replicate. lia.
      + intros j Hj. unfold load. destruct (j <? 0) eqn:Ej; [done|].
        apply Z.ltb_ge in Ej.
        destruct (decide (j < n)) as [Hlt|Hge].
        * by rewrite lookup_app_l by lia.
        * rewrite !lookup_ge_None_2; [done|lia|rewrite length_app; simpl; lia].
    - apply Z.leb_gt in E. split; [lia|]. split; done. }
  destruct Htasks as (Hlen & Hbk & Hother). clearbody tasks.
  destruct (load_is_Some tasks n ltac:(lia)) as [old Hold]. rewrite Hold.
  cbn [mbind option_bind].
  assert (Hold' : activeSlices (occl p)
                  <= Z.of_nat (length (triangleIndices (work old)))).
  { rewrite load_lookup in Hold by lia.
    exact (Forall_lookup_1 _ _ _ _ Hbk Hold). }
  destruct (clearBuckets_spec (Z.to_nat (activeSlices (occl p))) 0
              (triangleIndices (work old))) as (bs & -> & Hbl & Hbs); [lia|lia|].
  cbn [mbind option_bind]. rewrite store_in_range by lia.
  cbn [mbind option_bind].
  eexists _, old, (mkBatchTask (fill (batch old)) (mkGenTask [] bs)).
  split; [reflexivity|]. split; [|split; [|reflexivity]].
  - split; [simpl; rewrite length_insert; lia|]. split; [done|]. simpl.
    apply Forall_insert; [done|]. simpl. lia.
  - split; [done|]. split; [done|]. split; [done|]. split; [done|].
    split; [simpl; rewrite length_insert; lia|].
    split; [simpl; apply load_insert_eq; lia|]. split; [done|]. split.
    + intros j Hj. simpl. rewrite Hbs. by rewrite bool_decide_eq_true_2 by lia.
    + intros j Hj. simpl. rewrite load_insert_ne by lia. by apply Hother.
Qed.

(** [AddTriangles], with and without indices, on an object whose batches
    are in order: it returns, leaves the batches in order, and fills the
    task at the old count with the caller's data. *)
Theorem AddTriangles_batch blank p wt vd vs vstart vcount idata isize istart icount :
  batchesOk p ->
  (exists p' bt,
     AddTriangles blank p wt vd vs vstart vcount = Some p' /\
     batchesOk p' /\ batchAdded p p' bt /\
     worldTransform (batch bt) = wt /\
     vertexData (batch bt) = drop (Z.to_nat vstart) vd /\
     indexData (batch bt) = None /\ drawCount (batch bt) = vcount) /\
  (exists p' bt,
     AddTrianglesIndexed blank p wt vd vs idata isize istart icount = Some p' /\
     batchesOk p' /\ batchAdded p p' bt /\
     worldTransform (batch bt) = wt /\ vertexData (batch bt) = vd /\
     indexData (batch bt) = Some (drop (Z.to_nat istart) idata) /\
     indexSize (batch bt) = isize /\ drawCount (batch bt) = icount).
Proof.
  intros Hok. split.
  - unfold AddTriangles.
    destruct (addBatch_spec blank p
                (fun b => mkBatch wt (drop (Z.to_nat vstart) vd) vs None
                            (indexSize b) vcount) Hok)
      as (p' & old & bt & -> & Hok' & Hadd & Hb).
    exists p', bt. rewrite Hb. done.
  - unfold AddTrianglesIndexed.
    destruct (addBatch_spec blank p
                (fun _ => mkBatch wt vd vs (Some (drop (Z.to_nat istart) idata))
                            isize icount) Hok)
      as (p' & old & bt & -> & Hok' & Hadd & Hb).
    exists p', bt. rewrite Hb. done.
Qed.

(** After [Reset] the counters are zero, so the object counts as
    completed and every query is answered [true] until a batch is added;
    on an idle object [Reset] waits for nothing and keeps the buffers, the
    hierarchy and the tasks. *)
Theorem Reset_spec TryComplete fuel p p' :
  Reset TryComplete fuel p = Some p' ->
  numTriangleBatches (occl p') = 0 /\ numReadyMipBuffers (occl p') = 0 /\
  numPendingGenerateTasks p' = 0 /\ numPendingRasterizeTasks p' = 0 /\
  IsCompleted p' = true /\
  (forall fuel' box, IsVisible fuel' (occl p') box = Some true) /\
  (numPendingRasterizeTasks p <= 0 ->
   fullBuffer (occl p') = fullBuffer (occl p) /\
   buffer (occl p') = buffer (occl p) /\
   width (occl p') = width (occl p) /\ height (occl p') = height (occl p) /\
   mipBuffers (occl p') = mipBuffers (occl p) /\
   generateTrianglesTasks p' = generateTrianglesTasks p /\
   queued p' = queued p).
Proof.
  unfold Reset. intros Hr.
  destruct (Complete TryComplete fuel p) as [p1|] eqn:Hc; [|done].
  simpl in Hr. inversion Hr; subst p'; clear Hr. simpl.
  repeat (split; [done|]). split.
  - intros fuel' box. unfold IsVisible. simpl. by rewrite orb_true_r.
  - intros Hidle. destruct fuel as [|fuel]; [done|]. simpl in Hc.
    rewrite Z.gtb_ltb in Hc.
    destruct (0 <? numPendingRasterizeTasks p) eqn:E;
      [apply Z.ltb_lt in E; lia|]. inversion Hc; subst. done.
Qed.


Lemma GenerateTrianglesWork_counters fuel p i vs p' :
  GenerateTrianglesWork fuel p i vs = Some p' ->
  occl p' = occl p /\
  numPendingGenerateTasks p' = numPendingGenerateTasks p - 1 /\
  numPendingRasterizeTasks p'
  = (if numPendingGenerateTasks p =? 1 then activeSlices (occl p)
     else numPendingRasterizeTasks p) /\
  queued p'
  = (if numPendingGenerateTasks p =? 1
     then queued p ++ [QueueRasterize (activeSlices (occl p))] else queued p).
Proof.
  unfold GenerateTrianglesWork. intros Hg.
  destruct (load (generateTrianglesTasks p) i) as [bt|]; [|done]. simpl in Hg.
  destruct (generateTriangles fuel (occl p) bt vs) as [task'|]; [|done].
  simpl in Hg. destruct (store _ i _) as [tasks'|]; [|done]. simpl in Hg.
  inversion Hg; subst p'; clear Hg. unfold generateDone. simpl.
  by destruct (numPendingGenerateTasks p =? 1).
Qed.

Lemma runGenerate_counters fuel vs : forall tasks p p',
  runGenerate fuel vs tasks p = Some p' ->
  Z.of_nat (length tasks) <= numPendingGenerateTasks p ->
  occl p' = occl p /\
  numPendingGenerateTasks p' = numPendingGenerateTasks p - Z.of_nat (length tasks) /\
  (Z.of_nat (length tasks) < numPendingGenerateTasks p ->
   numPendingRasterizeTasks p' = numPendingRasterizeTasks p /\
   queued p' = queued p) /\
  (0 < Z.of_nat (length tasks) /\
   Z.of_nat (length tasks) = numPendingGenerateTasks p ->
   numPendingRasterizeTasks p' = activeSlices (occl p) /\
   queued p' = queued p ++ [QueueRasterize (activeSlices (occl p))]).
Proof.
  induction tasks as [|i tasks IH]; intros p p' Hr Hn.
  - simpl in Hr. inversion Hr; subst. simpl. repeat split; try done; lia.
  - simpl in Hr.
    destruct (GenerateTrianglesWork fuel p i vs) as [p1|] eqn:Hg; [|done].
    simpl in Hr.
    destruct (GenerateTrianglesWork_counters _ _ _ _ _ Hg) as (Eo & Eg & Er & Eq).
    simpl length in *.
    destruct (IH p1 p' Hr ltac:(lia)) as (Eo' & Eg' & Hlt & Heq).
    split; [congruence|]. split; [lia|]. split.
    + intros Hlt'.
      rewrite (proj2 (Z.eqb_neq _ _)) in Er, Eq by lia.
      destruct (Hlt ltac:(lia)) as [-> ->]. done.
    + intros [Hpos Heq'].
      destruct tasks as [|i' tasks].
      * simpl in *. inversion Hr; subst p'.
        rewrite (proj2 (Z.eqb_eq _ _)) in Er, Eq by lia. done.
      * rewrite (proj2 (Z.eqb_neq _ _)) in Er, Eq by (simpl length in *; lia).
        destruct (Heq ltac:(simpl length in *; lia)) as [-> ->].
        by rewrite Eo, Eq.
Qed.

Lemma RasterizeTrianglesWork_counters p j p' :
  RasterizeTrianglesWork p j = Some p' ->
  numPendingGenerateTasks p' = numPendingGenerateTasks p /\
  numPendingRasterizeTasks p' = numPendingRasterizeTasks p - 1 /\
  queued p'
  = (if numPendingRasterizeTasks p =? 1 then queued p ++ [QueueDepthHierarchy]
     else queued p).
Proof.
  unfold RasterizeTrianglesWork. intros Hr.
  destruct (load _ j) as [t|]; [|done]. simpl in Hr.
  destruct (clearRows _ _ _) as [this1|]; [|done]. simpl in Hr.
  destruct (rasterizeBatches _ _ _ _ _ _ _) as [this2|]; [|done]. simpl in Hr.
  inversion Hr; subst p'. done.
Qed.

Lemma runRasterize_counters : forall slices p p',
  runRasterize slices p = Some p' ->
  Z.of_nat (length slices) <= numPendingRasterizeTasks p ->
  numPendingRasterizeTasks p'
  = numPendingRasterizeTasks p - Z.of_nat (length slices) /\
  (Z.of_nat (length slices) < numPendingRasterizeTasks p -> queued p' = queued p) /\
  (0 < Z.of_nat (length slices) /\
   Z.of_nat (length slices) = numPendingRasterizeTasks p ->
   queued p' = queued p ++ [QueueDepthHierarchy]).
Proof.
  induction slices as [|j slices IH]; intros p p' Hr Hn.
  - simpl in Hr. inversion Hr; subst. simpl. repeat split; try done; lia.
  - simpl in Hr. destruct (RasterizeTrianglesWork p j) as [p1|] eqn:Hw; [|done].
    simpl in Hr.
    destruct (RasterizeTrianglesWork_counters _ _ _ Hw) as (Eg & Er & Eq).
    simpl length in *.
    destruct (IH p1 p' Hr ltac:(lia)) as (Er' & Hlt & Heq).
    split; [lia|]. split.
    + intros Hlt'. rewrite (proj2 (Z.eqb_neq _ _)) in Eq by lia.
      rewrite Hlt by lia. done.
    + intros [Hpos Heq'].
      destruct slices as [|j' slices].
      * simpl in *. inversion Hr; subst p'.
        rewrite (proj2 (Z.eqb_eq _ _)) in Eq by lia. done.
      * rewrite (proj2 (Z.eqb_neq _ _)) in Eq by (simpl length in *; lia).
        rewrite Heq by (simpl length in *; lia). by rewrite Eq.
Qed.

(** The phases of a frame, whatever the order in which the tasks of each
    run.  [DrawTriangles] on an idle object with [n > 0] batches queues the
    [n] generate tasks and a second call does nothing; the object is not
    completed while generate tasks are left; the last of them queues the
    tasks of the active slices; the object is not completed while slices
    are left; the last of them queues the build of the hierarchy, once,
    and from then on [IsCompleted] answers [true]. *)
Theorem frame_countdown p p1 :
  buffer (occl p) <> None -> IsCompleted p = true ->
  0 < numTriangleBatches (occl p) -> 0 < activeSlices (occl p) ->
  DrawTriangles p = Some p1 ->
  occl p1 = occl p /\
  queued p1 = queued p ++ [QueueGenerate (numTriangleBatches (occl p))] /\
  IsCompleted p1 = false /\ DrawTriangles p1 = Some p1 /\
  forall fuel vs tasks p2,
    runGenerate fuel vs tasks p1 = Some p2 ->
    Z.of_nat (length tasks) <= numTriangleBatches (occl p) ->
    (Z.of_nat (length tasks) < numTriangleBatches (occl p) ->
     IsCompleted p2 = false /\ queued p2 = queued p1) /\
    (Z.of_nat (length tasks) = numTriangleBatches (occl p) ->
     queued p2 = queued p1 ++ [QueueRasterize (activeSlices (occl p))] /\
     forall slices p3,
       runRasterize slices p2 = Some p3 ->
       Z.of_nat (length slices) <= activeSlices (occl p) ->
       (Z.of_nat (length slices) < activeSlices (occl p) ->
        IsCompleted p3 = false /\ queued p3 = queued p2) /\
       (Z.of_nat (length slices) = activeSlices (occl p) ->
        IsCompleted p3 = true /\ queued p3 = queued p2 ++ [QueueDepthHierarchy])).
Proof.
  intros Hbuf Hidle Hn Ha Hd. unfold DrawTriangles in Hd.
  rewrite bool_decide_eq_false_2, Hidle in Hd by done. simpl in Hd.
  rewrite (proj2 (Z.eqb_neq _ _)) in Hd by lia.
  destruct (load (generateTrianglesTasks p) 0) as [t0|]; [|done]. simpl in Hd.
  inversion Hd; subst p1; clear Hd. simpl.
  split; [done|]. split; [done|]. split; [done|]. split.
  { unfold DrawTriangles. simpl. by rewrite bool_decide_eq_false_2 by done. }
  intros fuel vs tasks p2 Hg Hlen.
  destruct (runGenerate_counters fuel vs tasks _ p2 Hg) as (Eo & Eg & Hlt & Heq);
    [simpl; lia|]. simpl in *.
  split.
  - intros Hlt'. destruct (Hlt Hlt') as [Er Eq]. split; [|done].
    unfold IsCompleted. by rewrite Er.
  - intros Heq'. destruct (Heq ltac:(lia)) as [Er Eq]. split; [done|].
    intros slices p3 Hr Hlen'.
    destruct (runRasterize_counters slices p2 p3 Hr ltac:(lia)) as (Er' & Hlt' & Heq'').
    split.
    + intros Hl. split; [|apply Hlt'; lia].
      unfold IsCompleted. apply Z.eqb_neq. lia.
    + intros Hl. split; [|apply Heq''; lia].
      unfold IsCompleted. apply Z.eqb_eq. lia.
Qed.

End FrameFacts.

(** ** The frame pipeline: the indices of a batch *)

Section IndexFacts.
Context `{F : FrameHeader}.

Lemma triangleArray_length mvp t : length (triangleArray mvp t) = 192%nat.
Proof. by destruct t as [[v0 v1] v2]. Qed.

Lemma addAll_extends this mvp : forall ts task task',
  0 <= activeSlices this <= Z.of_nat (length (triangleIndices task)) ->
  addAll this mvp ts task = Some task' ->
  exists new, extends task task' new /\ (length new <= 64 * length ts)%nat.
Proof.
  induction ts as [|t ts IH]; intros task task' Ha Hadd.
  - simpl in Hadd. inversion Hadd; subst. exists []. split; [apply extends_refl|done].
  - simpl in Hadd.
    destruct (AddTriangle_extends this task (triangleArray mvp t))
      as (task1 & new1 & E1 & Hx1 & Hl1);
      [rewrite triangleArray_length; lia|done|].
    rewrite E1 in Hadd. simpl in Hadd.
    destruct (IH task1 task') as (new2 & Hx2 & Hl2); [|done|].
    { destruct Hx1 as (_ & L & _). lia. }
    exists (new1 ++ new2). split; [by eapply extends_trans|].
    rewrite length_app. simpl length. lia.
Qed.

(** [GenerateTrianglesWork] on a batch as [AddTriangles] leaves it (no
    triangle, the buckets of the active slices empty): when it returns, the
    bucket of every active slice holds, in increasing order, indices that
    are inside the batch's list of triangles, so that the reads
    [triangles[idx]] of [RasterizeTrianglesWork] are in range; the batch's
    data, the other tasks and the buffer are untouched. *)
Theorem GenerateTrianglesWork_indices fuel p i bt vertices p' :
  length vertices = 192%nat ->
  Z.max 0 (ceilDiv (drawCount (batch bt)) 3) < Z.of_nat fuel ->
  0 <= activeSlices (occl p) <= Z.of_nat (length (triangleIndices (work bt))) ->
  load (generateTrianglesTasks p) i = Some bt ->
  triangles (work bt) = [] ->
  (forall j, 0 <= j < activeSlices (occl p) ->
     load (triangleIndices (work bt)) j = Some []) ->
  GenerateTrianglesWork fuel p i vertices = Some p' ->
  occl p' = occl p /\
  exists bt',
    load (generateTrianglesTasks p') i = Some bt' /\ batch bt' = batch bt /\
    activeValid (activeSlices (occl p)) (work bt') /\
    forall j, j <> i ->
      load (generateTrianglesTasks p') j = load (generateTrianglesTasks p) j.
Proof.
  intros Hl Hf Ha Hbt Hno Hempty Hg.
  destruct (GenerateTrianglesWork_counters _ _ _ _ _ Hg) as (Eo & _).
  split; [done|].
  unfold GenerateTrianglesWork in Hg. rewrite Hbt in Hg.
  cbn [mbind option_bind] in Hg.
  rewrite (generateTriangles_addAll fuel (occl p) bt vertices Hl Hf) in Hg.
  destruct (batchTriangles (batch bt)) as [ts|]; [|done].
  cbn [mbind option_bind] in Hg.
  destruct (addAll _ _ ts (work bt)) as [task'|] eqn:Eadd; [|done].
  cbn [mbind option_bind] in Hg.
  destruct (store (generateTrianglesTasks p) i _) as [tasks'|] eqn:Est; [|done].
  cbn [mbind option_bind] in Hg. inversion Hg; subst p'; clear Hg.
  destruct (addAll_extends _ _ _ _ _ Ha Eadd) as (new & (Et & Lb & Hb) & _).
  exists (mkBatchTask (batch bt) task').
  assert (Hst : load tasks' i = Some (mkBatchTask (batch bt) task') /\
                forall j, j <> i ->
                  load tasks' j = load (generateTrianglesTasks p) j).
  { split; [by eapply load_store_eq|].
    intros j Hj. by eapply load_store_ne. }
  destruct Hst as [Hi Hother].
  unfold generateDone. cbn [numPendingGenerateTasks].
  destruct (numPendingGenerateTasks p =? 1); cbn [generateTrianglesTasks];
    (split; [done|]; split; [done|]; split; [|done]).
  all: intros j Hj; destruct (Hb j [] (Hempty j Hj)) as (extra & Hld & Hs & Hx);
    exists extra; (split; [done|]); cbn [work];
    rewrite Et, Hno in *; simpl in *; split; [|done];
    eapply list.Forall_impl; [exact Hx|]; simpl; intros; lia.
Qed.

(** With indices, a count that is not a multiple of three makes the last
    run read past the count: when the index memory ends where the count
    says, the read is outside it, whatever the fuel that is enough for the
    loop. *)
Theorem generateTriangles_ragged_indices fuel this bt idata vertices :
  length vertices = 192%nat ->
  Z.max 0 (ceilDiv (drawCount (batch bt)) 3) < Z.of_nat fuel ->
  indexData (batch bt) = Some idata ->
  Z.of_nat (length idata) = drawCount (batch bt) ->
  drawCount (batch bt) mod 3 <> 0 ->
  generateTriangles fuel this bt vertices = None.
Proof.
  intros Hl Hf Hi Hlen Hmod.
  rewrite (generateTriangles_addAll fuel this bt vertices Hl Hf).
  unfold batchTriangles. rewrite Hi.
  set (c := drawCount (batch bt)) in *.
  pose proof (ceilDiv_3 c) as Hc.
  assert (Hpos : 0 < c).
  { destruct (decide (c = 0)) as [E|]; [by rewrite E in Hmod|lia]. }
  assert (Hq : 3 * ceilDiv c 3 <> c).
  { intros E. apply Hmod. rewrite <- E, Z.mul_comm. apply Z.mod_mul. lia. }
  destruct (mapM (indexedTriangle (batch bt) idata) (seqZ 0 (ceilDiv c 3)))
    as [ts|] eqn:E; [|done].
  exfalso. apply mapM_Some in E.
  assert (Hin : seqZ 0 (ceilDiv c 3) !! Z.to_nat (ceilDiv c 3 - 1)
                = Some (ceilDiv c 3 - 1)).
  { rewrite lookup_seqZ. split; lia. }
  destruct (Forall2_lookup_l _ _ _ _ _ E Hin) as (t & _ & Ht).
  unfold indexedTriangle in Ht.
  destruct (load idata (3 * (ceilDiv c 3 - 1))) as [i0|]; [|done].
  destruct (load idata (3 * (ceilDiv c 3 - 1) + 1)) as [i1|]; [|done].
  destruct (load idata (3 * (ceilDiv c 3 - 1) + 2)) as [i2|] eqn:E2; [|done].
  apply load_Some in E2. lia.
Qed.

End IndexFacts.

(** ** The build outside its conditions *)

Section BuildOutside.
Context `{H : Header}.

(** With more levels counted as ready than the chain has, the first level
    that a query in front of the near plane looks at is outside
    [mipBuffers] (line 256). *)
Lemma IsVisible_ready_past_chain fuel this box e :
  buffer this <> None -> numTriangleBatches this <> 0 ->
  projectCorners this (clipCorners this box) = Next e ->
  Z.of_nat (length (mipBuffers this)) < numReadyMipBuffers this ->
  load (mipBuffers this) (numReadyMipBuffers this - 1) = None /\
  IsVisible fuel this box = None.
Proof.
  intros Hbuf Hbat He Hready.
  assert (Hld : load (mipBuffers this) (numReadyMipBuffers this - 1) = None).
  { rewrite load_lookup by lia. apply lookup_ge_None_2. lia. }
  split; [done|].
  unfold IsVisible. rewrite bool_decide_eq_false_2 by done.
  rewrite (proj2 (Z.eqb_neq _ _) Hbat). cbn [orb]. rewrite He.
  unfold searchDepth.
  destruct (Z.to_nat (numReadyMipBuffers this)) as [|i] eqn:En; [lia|].
  cbn [scanLevels]. unfold scanLevel.
  replace (Z.of_nat i) with (numReadyMipBuffers this - 1) by lia.
  by rewrite Hld.
Qed.

(** [BuildDepthHierarchyWork] counts its levels on top of the counter
    it finds (lines 732 and 778; only [Reset] clears it).  When it runs on
    an object whose counter is positive already, as after a second
    [DrawTriangles] without a [Reset], the counter passes the number of
    levels, and a query whose box is in front of the near plane starts at a
    level that [mipBuffers] does not have: it has no defined result. *)
Theorem BuildDepthHierarchyWork_again fuel this this' box e :
  0 < width this -> 0 < height this -> buffer this <> None ->
  numTriangleBatches this <> 0 -> 0 < numReadyMipBuffers this ->
  BuildDepthHierarchyWork this = Some this' ->
  projectCorners this' (clipCorners this' box) = Next e ->
  Z.of_nat (length (mipBuffers this')) < numReadyMipBuffers this' /\
  IsVisible fuel this' box = None.
Proof.
  intros Hw Hh Hbuf Hbat Hready Hb He.
  destruct (BuildDepthHierarchyWork_frame this this' Hw Hh Hb)
    as (_ & Hlens & Hr & _ & Hbuf' & _ & _ & Ebat).
  assert (Hlen : length (mipBuffers this') = length (mipBuffers this)).
  { by rewrite <- (length_map length (mipBuffers this')), Hlens, length_map. }
  assert (Hpast : Z.of_nat (length (mipBuffers this')) < numReadyMipBuffers this')
    by lia.
  split; [done|].
  apply (IsVisible_ready_past_chain fuel this' box e);
    [congruence|congruence|done|done].
Qed.

(** A level of odd width cannot be reduced: the pair of its last column
    reaches one cell past the row, and in the last row past the level
    (lines 752-753 and 768-769 read [src[1]]). *)
Lemma reduceLevel_odd prev sw shh cur :
  0 < sw -> 0 < shh -> Z.odd sw = true ->
  length prev = Z.to_nat (sw * shh) ->
  reduceLevel (cellMin prev) (cellMax prev) sw shh (ceilDiv sw 2) (ceilDiv shh 2) cur
  = None.
Proof.
  intros Hsw Hsh Hodd Hlen.
  destruct (reduceLevel _ _ _ _ _ _ cur) as [cur'|] eqn:Ered; [|done]. exfalso.
  pose proof (ceilDiv_2_bounds sw) as Bw. pose proof (ceilDiv_2_bounds shh) as Bh.
  apply reduceLevel_reduced in Ered as [_ Hred]; [|lia..].
  assert (Ew : 2 * ceilDiv sw 2 = sw + 1).
  { rewrite Z.odd_spec in Hodd. destruct Hodd as [m ->]. lia. }
  destruct (Hred (ceilDiv shh 2 - 1) (ceilDiv sw 2 - 1) ltac:(lia) ltac:(lia))
    as (cell & _ & _ & C1 & C2).
  assert (Hnone : cellMin prev (sw * shh) = None).
  { unfold cellMin. rewrite load_lookup by nia.
    rewrite lookup_ge_None_2; [done|lia]. }
  destruct (decide (2 * ceilDiv shh 2 = shh)) as [Eh|Eh].
  - destruct C2 as [_ (a & c & Ha & _)]; [lia|].
    replace ((2 * (ceilDiv shh 2 - 1) + 1) * sw + 2 * (ceilDiv sw 2 - 1) + 1)
      with (sw * shh) in Ha by nia.
    congruence.
  - destruct C1 as (a & c & Ha & _).
    replace (2 * (ceilDiv shh 2 - 1) * sw + 2 * (ceilDiv sw 2 - 1) + 1)
      with (sw * shh) in Ha by nia.
    congruence.
Qed.

Lemma buildRest_odd this n : forall (i : nat) mips ready,
  0 < width this -> 0 < height this -> (1 <= i)%nat ->
  levelSized this mips ->
  (exists j : nat, (i <= S j < i + n)%nat /\
     Z.odd (levelDims (width this) (height this) (S j)).1 = true) ->
  buildRest n (Z.of_nat i)
    (levelDims (width this) (height this) i).1
    (levelDims (width this) (height this) i).2 mips ready = None.
Proof.
  induction n as [|n IH]; intros i mips ready Hw Hh Hi Hsz (j & Hj & Hodd); [lia|].
  cbn -[levelDims].
  destruct (halve_levelDims (width this) (height this) i Hw Hh) as [EW EH].
  rewrite EW, EH.
  destruct i as [|i0]; [lia|].
  destruct (load mips (Z.of_nat (S i0) - 1)) as [prev|] eqn:Eprev; [|done].
  destruct (load mips (Z.of_nat (S i0))) as [cur|] eqn:Ecur; [|done].
  cbn -[levelDims].
  destruct (levelDims_pos (width this) (height this) (S i0) Hw Hh) as [P1 P2].
  rewrite load_lookup in Eprev, Ecur by lia.
  replace (Z.to_nat (Z.of_nat (S i0) - 1)) with i0 in Eprev by lia.
  rewrite Nat2Z.id in Ecur.
  pose proof (Hsz _ _ Eprev) as Lprev.
  destruct (decide (j = i0)) as [->|Hne].
  - rewrite levelDims_S. unfold halveDims. cbn -[levelDims].
    by rewrite (reduceLevel_odd prev _ _ cur P1 P2 Hodd Lprev).
  - destruct (reduceLevel _ _ _ _ _ _ cur) as [cur'|] eqn:Ered; [|done].
    cbn -[levelDims].
    destruct (store mips (Z.of_nat (S i0)) cur') as [mips1|] eqn:Est; [|done].
    cbn -[levelDims].
    destruct (levelDims_pos (width this) (height this) (S (S i0)) Hw Hh).
    apply reduceLevel_reduced in Ered as [Hlen _]; [|lia..].
    apply store_Some in Est as [Hrange ->].
    replace (Z.of_nat (S i0) + 1) with (Z.of_nat (S (S i0))) by lia.
    apply IH; [done|done|lia| |exists j; split; [lia|done]].
    intros k mip Hk. rewrite Nat2Z.id in Hk.
    destruct (decide (k = S i0)) as [->|Hk'].
    + rewrite list_lookup_insert_eq in Hk by lia. inversion Hk; subst.
      rewrite Hlen. by apply Hsz.
    + rewrite list_lookup_insert_ne in Hk by lia. by apply Hsz.
Qed.

(** The build has no defined result on an object that [SetSize] has
    sized when a level other than the last has an odd width: the reduction
    of that level into the next reads one cell past its end.  With the
    theorem for even widths this makes the condition exact. *)
Theorem BuildDepthHierarchyWork_odd_level this (j : nat) :
  sized this -> (S j < length (mipBuffers this))%nat ->
  Z.odd (levelDims (width this) (height this) (S j)).1 = true ->
  BuildDepthHierarchyWork this = None.
Proof.
  intros (Hw & Hh & Hbuf & Hlen & HL & Hsz) Hj Hodd.
  unfold BuildDepthHierarchyWork.
  destruct (halve_levelDims (width this) (height this) 0 Hw Hh) as [EW EH].
  change (levelDims (width this) (height this) 0) with (width this, height this)
    in EW, EH.
  cbn -[levelDims] in EW, EH. rewrite EW, EH.
  destruct (load (mipBuffers this) 0) as [mip0|] eqn:E0; [|done].
  cbn -[levelDims].
  destruct (reduceLevel _ _ _ _ _ _ mip0) as [mip0'|] eqn:Ered; [|done].
  cbn -[levelDims].
  destruct (store (mipBuffers this) 0 mip0') as [mips|] eqn:Est; [|done].
  cbn -[levelDims].
  destruct (levelDims_pos (width this) (height this) 1 Hw Hh).
  apply reduceLevel_reduced in Ered as [Hlen0 _]; [|lia..].
  apply store_Some in Est as [Hrange ->].
  rewrite load_lookup in E0 by lia. change (Z.to_nat 0) with 0%nat in *.
  change 1 with (Z.of_nat 1).
  rewrite (buildRest_odd this (length (mipBuffers this) - 1) 1); [done..|lia| |].
  - intros k mip Hk.
    destruct (decide (k = 0%nat)) as [->|Hk'].
    + rewrite list_lookup_insert_eq in Hk by lia. inversion Hk; subst.
      rewrite Hlen0. by apply Hsz.
    + rewrite list_lookup_insert_ne in Hk by lia. by apply Hsz.
  - exists j. split; [lia|done].
Qed.

End BuildOutside.

(** ** The definitions at concrete inputs *)

Section Examples.
Local Existing Instance ExactFloat.
Local Existing Instance ExactHeader.
Local Existing Instance ExactFrame.

Lemma sized4x4_buffer4x4 : sized4x4 = Some buffer4x4.
Proof. reflexivity. Qed.

(** C4.  On an object sized 4 x 4, [SetSize(3, 4)] succeeds and stores the
    width 3, which is not a power of two: the test of line 57 reads the
    stored width.  After [SetSize(8, 5)] the stored height is odd, and a
    refused call [SetSize(0, 7)] then changes it to 6. *)
Theorem SetSize_tests_stored_width :
  exactIsPowerOfTwo 3 = false /\
  (exists this', SetSize 8 buffer4x4 3 4 = Some (true, this') /\ width this' = 3) /\
  (exists this1 this2,
     SetSize 8 buffer4x4 8 5 = Some (true, this1) /\ height this1 = 5 /\
     SetSize 8 this1 0 7 = Some (false, this2) /\ height this2 = 6).
Proof.
  split; [reflexivity|]. split.
  - eexists. split; [reflexivity|reflexivity].
  - eexists. eexists. split; [reflexivity|].
    split; [reflexivity|]. split; [reflexivity|reflexivity].
Qed.

(** C7.  On an object sized 4 x 4, [SetSize(8, 5)] succeeds and the stored
    height is 5, not 6: lines 46-47 round the stored height, not the
    requested one. *)
Theorem SetSize_stores_odd_height :
  exists this', SetSize 8 buffer4x4 8 5 = Some (true, this') /\ height this' = 5.
Proof. eexists. split; [reflexivity|reflexivity]. Qed.

Lemma SetSize_slices_witness :
  0 < OCCLUSION_BUFFER_SLICES /\
  length (rasterizeTrianglesTasks buffer4x4) = Z.to_nat OCCLUSION_BUFFER_SLICES /\
  sameSize (forceEvenHeight buffer4x4) 8 13 = false /\
  SetSize 8 buffer4x4 8 13 = Some (true, buffer8x13) /\
  slicesTile buffer8x13 13.
Proof.
  assert (Hs : SetSize 8 buffer4x4 8 13 = Some (true, buffer8x13))
    by (reflexivity).
  split; [reflexivity|]. split; [reflexivity|]. split; [reflexivity|].
  split; [exact Hs|].
  apply (SetSize_slices 8 buffer4x4 8 13 buffer8x13);
    [reflexivity|reflexivity|reflexivity|exact Hs].
Defined.

(** C5 as stated fails on the object that [SetSize(8, 13)] leaves, with
    eight slice tasks: the slices are 2 rows high, not
    [ceil(13 / 8) + 1 = 3], and slices 0 and 1 are [[0, 2)] and [[2, 4)],
    with no row in common. *)
Lemma SetSize_slices_counterexample :
  SetSize 8 buffer4x4 8 13 = Some (true, buffer8x13) /\
  activeSlices buffer8x13 = 7 /\
  load (rasterizeTrianglesTasks buffer8x13) 0 = Some (mkRasterTask 0 2) /\
  load (rasterizeTrianglesTasks buffer8x13) 1 = Some (mkRasterTask 2 4) /\
  ~ sliceHeightsAsClaimed buffer8x13 13 /\
  ~ slicesOverlapByOne buffer8x13.
Proof.
  split; [reflexivity|]. split; [reflexivity|].
  split; [reflexivity|]. split; [reflexivity|]. split.
  - intros Hc. specialize (Hc 0 (mkRasterTask 0 2) ltac:(done) eq_refl).
    vm_compute in Hc. discriminate.
  - intros Hc.
    specialize (Hc 0 (mkRasterTask 0 2) (mkRasterTask 2 4) ltac:(done)
                  ltac:(done) eq_refl eq_refl).
    vm_compute in Hc. discriminate.
Qed.

Lemma SetSize_mip_chain_witness :
  sameSize (forceEvenHeight buffer4x4) 8 13 = false /\
  SetSize 8 buffer4x4 8 13 = Some (true, buffer8x13) /\
  mipChainHalved buffer8x13 8 13.
Proof.
  assert (Hs : SetSize 8 buffer4x4 8 13 = Some (true, buffer8x13))
    by (reflexivity).
  split; [reflexivity|]. split; [exact Hs|].
  apply (SetSize_mip_chain 8 buffer4x4 8 13 buffer8x13); [reflexivity|exact Hs].
Defined.

(** C8 as stated fails for [SetSize(2, 2)] with [OCCLUSION_MIN_SIZE = 8]
    (and for every minimum size of at least 2): no halving is needed for
    2 x 2 to fit, yet the chain has one level, of 1 x 1 cells. *)
Lemma SetSize_mip_chain_counterexample :
  SetSize 8 buffer4x4 2 2 = Some (true, buffer2x2) /\
  halvingsNeeded 2 2 0 /\
  length (mipBuffers buffer2x2) = 1%nat /\
  ~ mipChainAsClaimed buffer2x2 2 2.
Proof.
  split; [reflexivity|]. split; [split; [reflexivity|lia]|].
  split; [reflexivity|].
  intros [[_ Hmin] _]. specialize (Hmin 0%nat ltac:(simpl; lia)).
  vm_compute in Hmin. discriminate.
Qed.

Lemma IsVisible_near_plane_witness :
  crossesNearPlane frame4x4 boxBehind = true /\
  IsVisible 0 frame4x4 boxBehind = Some true /\
  forall pixels mips,
    IsVisible 0 (withDepthData frame4x4 pixels mips) boxBehind = Some true.
Proof.
  split; [reflexivity|].
  apply (IsVisible_near_plane 0 frame4x4 boxBehind). reflexivity.
Defined.

Lemma IsVisible_empty_witness :
  (buffer freshBuffer = None \/
   numTriangleBatches freshBuffer = 0) /\
  IsVisible 0 freshBuffer boxBehind = Some true /\
  forall pixels mips,
    IsVisible 0 (withDepthData freshBuffer pixels mips) boxBehind
    = Some true.
Proof.
  split; [left; reflexivity|].
  apply (IsVisible_empty 0 freshBuffer boxBehind).
  left. reflexivity.
Defined.

(** The pass against [x = w] over the crossing triangle, which has one
    vertex behind the plane: two triangles. *)
Lemma ClipVertices_outputs_witness :
  0 <= numClipTriangles clipStart /\
  2 * numClipTriangles clipStart <= Z.of_nat (length (clipTriangles clipStart)) /\
  3 * Z.of_nat (length (clipTriangles clipStart))
  <= Z.of_nat (length (clipVerts clipStart)) /\
  slotHolds clipStart 0 crossing /\
  behindCount planeXPos crossing = 1%nat /\
  appendedBelow planeXPos clipStart (Z.to_nat (numClipTriangles clipStart)) = 1 /\
  exists st',
    ClipVertices planeXPos clipStart = Some st' /\
    numClipTriangles st'
    = numClipTriangles clipStart
      + appendedBelow planeXPos clipStart (Z.to_nat (numClipTriangles clipStart)) /\
    (forall i t, 0 <= i < numClipTriangles clipStart -> slotHolds clipStart i t ->
       candidateOutputs planeXPos clipStart st' i t /\
       length (clipOutputs planeXPos t) = outputCount (behindCount planeXPos t) /\
       Forall (fun u => keepsWinding u (clipPolygon planeXPos t))
         (clipOutputs planeXPos t) /\
       (behindCount planeXPos t = 0%nat -> slotHolds st' i t)) /\
    (forall i, 0 <= i < numClipTriangles clipStart ->
       load (clipTriangles clipStart) i = Some false ->
       load (clipTriangles st') i = Some false) /\
    (forall j, numClipTriangles st' <= j ->
       load (clipTriangles st') j = load (clipTriangles clipStart) j /\
       triangleAt (clipVerts st') j = triangleAt (clipVerts clipStart) j).
Proof.
  assert (H1 : 0 <= numClipTriangles clipStart) by (apply Z.leb_le; reflexivity).
  assert (H2 : 2 * numClipTriangles clipStart
               <= Z.of_nat (length (clipTriangles clipStart)))
    by (apply Z.leb_le; reflexivity).
  assert (H3 : 3 * Z.of_nat (length (clipTriangles clipStart))
               <= Z.of_nat (length (clipVerts clipStart)))
    by (apply Z.leb_le; reflexivity).
  split; [exact H1|]. split; [exact H2|]. split; [exact H3|].
  split; [split; reflexivity|]. split; [reflexivity|]. split; [reflexivity|].
  exact (ClipVertices_outputs planeXPos clipStart H1 H2 H3).
Defined.

Lemma BuildDepthHierarchyWork_conservative_witness :
  (0 < width ramp4x4 /\ 0 < height ramp4x4 /\
   BuildDepthHierarchyWork ramp4x4 = Some built4x4 /\
   mipBuffers built4x4
   = [[mkDepthValue 5 10; mkDepthValue 7 12;
       mkDepthValue 13 18; mkDepthValue 15 20]] /\
   conservative ramp4x4 built4x4) /\
  (SetSize 8 buffer4x4 32 2 = Some (true, buffer32x2) /\
   0 < width ramp32x2 /\ 0 < height ramp32x2 /\
   BuildDepthHierarchyWork ramp32x2 = Some built32x2 /\
   length (mipBuffers built32x2) = 2%nat /\
   mipBuffers built32x2 !! 1%nat
   = Some [mkDepthValue 33 68; mkDepthValue 37 72; mkDepthValue 41 76;
           mkDepthValue 45 80; mkDepthValue 49 84; mkDepthValue 53 88;
           mkDepthValue 57 92; mkDepthValue 61 96] /\
   conservative ramp32x2 built32x2).
Proof.
  assert (Hb : BuildDepthHierarchyWork ramp4x4 = Some built4x4) by reflexivity.
  assert (Hc : BuildDepthHierarchyWork ramp32x2 = Some built32x2) by reflexivity.
  split.
  - split; [reflexivity|]. split; [reflexivity|]. split; [exact Hb|].
    split; [reflexivity|].
    apply (BuildDepthHierarchyWork_conservative ramp4x4 built4x4);
      [reflexivity|reflexivity|exact Hb].
  - split; [reflexivity|]. split; [reflexivity|]. split; [reflexivity|].
    split; [exact Hc|]. split; [reflexivity|]. split; [reflexivity|].
    apply (BuildDepthHierarchyWork_conservative ramp32x2 built32x2);
      [reflexivity|reflexivity|exact Hc].
Defined.



Lemma sized_ramp4x4 : sized ramp4x4.
Proof.
  split; [reflexivity|]. split; [reflexivity|]. split; [reflexivity|].
  split; [reflexivity|]. split; [apply Nat.le_refl|].
  intros [|i] mip Hmip; [|discriminate Hmip].
  injection Hmip as <-. reflexivity.
Qed.

Lemma sized_ramp32x2 : sized ramp32x2.
Proof.
  split; [reflexivity|]. split; [reflexivity|]. split; [reflexivity|].
  split; [reflexivity|]. split; [apply Nat.leb_le; reflexivity|].
  intros [|[|i]] mip Hmip; [| |discriminate Hmip].
  - injection Hmip as <-. reflexivity.
  - injection Hmip as <-. reflexivity.
Qed.

Lemma evenLevels_ramp32x2 : evenLevels ramp32x2.
Proof.
  intros [|i] Hi.
  - reflexivity.
  - change (length (mipBuffers ramp32x2)) with 2%nat in Hi. lia.
Qed.

Lemma BuildDepthHierarchyWork_completes_witness :
  (sized ramp4x4 /\ evenLevels ramp4x4 /\
   is_Some (BuildDepthHierarchyWork ramp4x4)) /\
  (sized ramp32x2 /\ evenLevels ramp32x2 /\ length (mipBuffers ramp32x2) = 2%nat /\
   is_Some (BuildDepthHierarchyWork ramp32x2)).
Proof.
  assert (He : evenLevels ramp4x4).
  { intros i Hi. change (length (mipBuffers ramp4x4)) with 1%nat in Hi. lia. }
  split.
  - split; [exact sized_ramp4x4|]. split; [exact He|].
    exact (BuildDepthHierarchyWork_completes ramp4x4 sized_ramp4x4 He).
  - split; [exact sized_ramp32x2|]. split; [exact evenLevels_ramp32x2|].
    split; [reflexivity|].
    exact (BuildDepthHierarchyWork_completes ramp32x2 sized_ramp32x2
             evenLevels_ramp32x2).
Defined.
Lemma sized_built4x4 : sized built4x4.
Proof.
  split; [reflexivity|]. split; [reflexivity|]. split; [reflexivity|].
  split; [reflexivity|]. split; [apply Nat.le_refl|].
  intros [|i] mip Hmip; [|discriminate Hmip].
  injection Hmip as <-. reflexivity.
Qed.

Lemma IsVisible_search_witness :
  sized built4x4 /\ width built4x4 = 2 ^ Z.of_nat 2 /\
  numReadyMipBuffers built4x4 = 1 /\ numTriangleBatches built4x4 = 1 /\
  crossesNearPlane built4x4 boxFront = false /\
  IsVisible 5 built4x4 boxFront = Some false /\
  IsVisible 5 built4x4 boxNear = Some true /\
  exists e levels pixels,
    projectCorners built4x4 (clipCorners built4x4 boxFront) = Next e /\
    coveredLevels built4x4 (queryRect built4x4 e)
      (Z.to_nat (numReadyMipBuffers built4x4)) = Some levels /\
    coveredPixels built4x4 (queryRect built4x4 e) = Some pixels /\
    IsVisible 5 built4x4 boxFront
    = Some (searchLevels (queryDepth built4x4 e) levels pixels).
Proof.
  split; [exact sized_built4x4|]. split; [reflexivity|].
  split; [reflexivity|]. split; [reflexivity|]. split; [reflexivity|].
  split; [reflexivity|]. split; [reflexivity|].
  apply (IsVisible_search 5 built4x4 boxFront 2).
  - exact sized_built4x4.
  - reflexivity.
  - split; [apply Z.leb_le; reflexivity|apply Z.leb_le; reflexivity].
  - apply Z.leb_le; reflexivity.
  - discriminate.
  - reflexivity.
  - reflexivity.
Defined.

(** C1.  The object is sized 1 x 16 by [SetSize] (1 is a power of two), a
    frame leaves every pixel at depth 100 and the hierarchy is built: one
    level of 1 x 8 cells, each with [min = max = 100].  The box is in front
    of the near plane and projects to the whole buffer at depth 16777215,
    behind every cell, so that the search of the specification answers [false] at
    the level.  [IsVisible] computes the level's stride as [width >> 1 = 0]
    (line 258) where [SetSize] and [BuildDepthHierarchyWork] gave the level
    the width [(1 + 1) / 2 = 1]: [row += mipWidth] never reaches [endRow]
    and the query returns nothing, with any fuel. *)
Theorem IsVisible_narrow_no_result :
  SetSize 8 buffer4x4 1 16 = Some (true, narrow1x16) /\
  BuildDepthHierarchyWork narrowFrame = Some narrowBuilt /\
  numTriangleBatches narrowBuilt = 1 /\
  numReadyMipBuffers narrowBuilt = 1 /\
  crossesNearPlane narrowBuilt boxFront = false /\
  (exists e,
     projectCorners narrowBuilt (clipCorners narrowBuilt boxFront) = Next e /\
     queryRect narrowBuilt e = IntRect.make 0 0 0 15 /\
     queryDepth narrowBuilt e = 16777215 /\
     coveredLevels narrowBuilt (queryRect narrowBuilt e) 1
     = Some [replicate 8 (mkDepthValue 100 100)] /\
     coveredPixels narrowBuilt (queryRect narrowBuilt e)
     = Some (replicate 16 100) /\
     searchLevels (queryDepth narrowBuilt e) [replicate 8 (mkDepthValue 100 100)]
       (replicate 16 100) = false) /\
  forall fuel, IsVisible fuel narrowBuilt boxFront = None.
Proof.
  split; [reflexivity|]. split; [reflexivity|]. split; [reflexivity|].
  split; [reflexivity|]. split; [reflexivity|].
  assert (Hq : match projectCorners narrowBuilt (clipCorners narrowBuilt boxFront)
               with
               | Next e => Some (queryRect narrowBuilt e, queryDepth narrowBuilt e)
               | Return _ => None
               end = Some (IntRect.make 0 0 0 15, 16777215)) by reflexivity.
  destruct (projectCorners narrowBuilt (clipCorners narrowBuilt boxFront))
    as [b|e] eqn:He; [discriminate Hq|].
  assert (Hrect : queryRect narrowBuilt e = IntRect.make 0 0 0 15) by congruence.
  assert (Hz : queryDepth narrowBuilt e = 16777215) by congruence.
  clear Hq.
  split.
  - exists e. rewrite Hrect, Hz. repeat (split; [reflexivity|]). reflexivity.
  - intros fuel. unfold IsVisible.
    change (bool_decide (buffer narrowBuilt = None)
            || (numTriangleBatches narrowBuilt =? 0)) with false.
    cbv iota. rewrite He, Hrect, Hz. unfold searchDepth.
    change (Z.to_nat (numReadyMipBuffers narrowBuilt)) with 1%nat.
    cbn [scanLevels].
    by rewrite (scanLevel_stuck fuel narrowBuilt _ 16777215 0
                  (replicate 8 (mkDepthValue 100 100)) true).
Qed.

Lemma ClipVertices_doubles_witness :
  0 <= numClipTriangles clipStart /\
  2 * numClipTriangles clipStart <= Z.of_nat (length (clipTriangles clipStart)) /\
  3 * Z.of_nat (length (clipTriangles clipStart))
  <= Z.of_nat (length (clipVerts clipStart)) /\
  numClipTriangles <$> ClipVertices planeXPos clipStart = Some 2 /\
  exists st',
    ClipVertices planeXPos clipStart = Some st' /\
    length (clipTriangles st') = length (clipTriangles clipStart) /\
    length (clipVerts st') = length (clipVerts clipStart) /\
    numClipTriangles clipStart <= numClipTriangles st'
    <= 2 * numClipTriangles clipStart.
Proof.
  assert (H1 : 0 <= numClipTriangles clipStart) by (apply Z.leb_le; reflexivity).
  assert (H2 : 2 * numClipTriangles clipStart
               <= Z.of_nat (length (clipTriangles clipStart)))
    by (apply Z.leb_le; reflexivity).
  assert (H3 : 3 * Z.of_nat (length (clipTriangles clipStart))
               <= Z.of_nat (length (clipVerts clipStart)))
    by (apply Z.leb_le; reflexivity).
  split; [exact H1|]. split; [exact H2|]. split; [exact H3|].
  split; [reflexivity|].
  exact (ClipVertices_doubles planeXPos clipStart H1 H2 H3).
Defined.

Lemma AddTriangle_in_bounds_witness :
  length crossingTriangle = 192%nat /\
  0 <= activeSlices buffer8x13 <= Z.of_nat (length (triangleIndices emptyTask)) /\
  is_Some (AddTriangle buffer8x13 emptyTask crossingTriangle).
Proof.
  assert (Hn : 0 <= activeSlices buffer8x13
               <= Z.of_nat (length (triangleIndices emptyTask)))
    by (split; apply Z.leb_le; reflexivity).
  split; [reflexivity|]. split; [exact Hn|].
  exact (AddTriangle_in_bounds buffer8x13 emptyTask crossingTriangle eq_refl Hn).
Defined.

Lemma indicesValid_emptyTask : indicesValid emptyTask.
Proof. repeat constructor. Qed.

Lemma AddTriangle_keeps_indices_witness :
  length crossingTriangle = 192%nat /\
  0 <= activeSlices buffer8x13 <= Z.of_nat (length (triangleIndices emptyTask)) /\
  indicesValid emptyTask /\
  exists task',
    AddTriangle buffer8x13 emptyTask crossingTriangle = Some task' /\
    triangleIndices task' = [[0; 1]; [0; 1]; []; []; []; []; []; []] /\
    indicesValid task' /\
    triangles emptyTask `prefix_of` triangles task' /\
    (length (triangles task') <= length (triangles emptyTask) + 64)%nat /\
    length (triangleIndices task') = length (triangleIndices emptyTask).
Proof.
  assert (Hn : 0 <= activeSlices buffer8x13
               <= Z.of_nat (length (triangleIndices emptyTask)))
    by (split; apply Z.leb_le; reflexivity).
  split; [reflexivity|]. split; [exact Hn|].
  split; [exact indicesValid_emptyTask|].
  assert (E : AddTriangle buffer8x13 emptyTask crossingTriangle = Some clippedTask)
    by reflexivity.
  exists clippedTask. split; [exact E|]. split; [reflexivity|].
  exact (AddTriangle_keeps_indices buffer8x13 emptyTask crossingTriangle
           clippedTask eq_refl Hn indicesValid_emptyTask E).
Defined.

Lemma AddTriangle_rejects_outside_witness :
  load outsideTriangle 0 = Some (qv4 2 0 (1 # 2) 1) /\
  load outsideTriangle 1 = Some (qv4 3 0 (1 # 2) 1) /\
  load outsideTriangle 2 = Some (qv4 2 1 (1 # 2) 1) /\
  outside 0 (qv4 2 0 (1 # 2) 1) = true /\
  outside 0 (qv4 3 0 (1 # 2) 1) = true /\
  outside 0 (qv4 2 1 (1 # 2) 1) = true /\
  AddTriangle buffer8x13 emptyTask outsideTriangle = Some emptyTask.
Proof.
  repeat (split; [reflexivity|]).
  exact (AddTriangle_rejects_outside buffer8x13 emptyTask outsideTriangle
           (qv4 2 0 (1 # 2) 1) (qv4 3 0 (1 # 2) 1) (qv4 2 1 (1 # 2) 1) 0
           eq_refl eq_refl eq_refl eq_refl eq_refl eq_refl).
Defined.

Lemma SetSize_sized_witness :
  sameSize (forceEvenHeight buffer4x4) 8 13 = false /\
  SetSize 8 buffer4x4 8 13 = Some (true, buffer8x13) /\
  sized buffer8x13 /\ width buffer8x13 = 8 /\ height buffer8x13 = 13 /\
  numTriangleBatches buffer8x13 = numTriangleBatches buffer4x4 /\
  numReadyMipBuffers buffer8x13 = numReadyMipBuffers buffer4x4 /\
  viewProj buffer8x13 = viewProj buffer4x4.
Proof.
  split; [reflexivity|]. split; [reflexivity|].
  exact (SetSize_sized 8 buffer4x4 8 13 buffer8x13 eq_refl eq_refl).
Defined.

Lemma SetSize_pow2_chain_witness :
  1 <= OCCLUSION_MIN_SIZE /\ (1 <= 3)%nat /\
  13 <= OCCLUSION_MIN_SIZE * 2 ^ Z.of_nat 3 /\
  sameSize (forceEvenHeight buffer4x4) (2 ^ Z.of_nat 3) 13 = false /\
  SetSize 8 buffer4x4 (2 ^ Z.of_nat 3) 13 = Some (true, buffer8x13) /\
  (length (mipBuffers buffer8x13) <= 3)%nat /\ evenLevels buffer8x13.
Proof.
  assert (H1 : 1 <= OCCLUSION_MIN_SIZE) by (apply Z.leb_le; reflexivity).
  assert (H2 : (1 <= 3)%nat) by (apply Nat.leb_le; reflexivity).
  assert (H3 : 13 <= OCCLUSION_MIN_SIZE * 2 ^ Z.of_nat 3)
    by (apply Z.leb_le; reflexivity).
  split; [exact H1|]. split; [exact H2|]. split; [exact H3|].
  split; [reflexivity|]. split; [reflexivity|].
  exact (SetSize_pow2_chain 8 buffer4x4 3 13 buffer8x13 H1 H2 H3 eq_refl eq_refl).
Defined.

Lemma frame_query_witness :
  1 <= OCCLUSION_MIN_SIZE /\ (1 <= 3)%nat /\
  13 <= OCCLUSION_MIN_SIZE * 2 ^ Z.of_nat 3 /\
  sameSize (forceEvenHeight buffer4x4) (2 ^ Z.of_nat 3) 13 = false /\
  SetSize 8 buffer4x4 (2 ^ Z.of_nat 3) 13 = Some (true, buffer8x13) /\
  1 <> 0 /\ length (seqZ 0 122) = length (fullBuffer buffer8x13) /\
  BuildDepthHierarchyWork (withFrame buffer8x13 1 (seqZ 0 122)) = Some built8x13 /\
  13 < Z.of_nat 14 /\
  projectCorners built8x13 (clipCorners built8x13 boxFront) = Next extentsFront /\
  proper (queryRect built8x13 extentsFront) /\
  IsVisible 14 built8x13 boxFront = Some false /\
  IsVisible 14 built8x13 boxNear = Some true /\
  exists covered,
    coveredCells (fun i => load (seqZ 0 122) (2 ^ Z.of_nat 3 + 1 + i))
      (2 ^ Z.of_nat 3)
      (IntRect.top (queryRect built8x13 extentsFront))
      (IntRect.bottom (queryRect built8x13 extentsFront))
      (IntRect.left (queryRect built8x13 extentsFront))
      (IntRect.right (queryRect built8x13 extentsFront)) = Some covered /\
    IsVisible 14 built8x13 boxFront
    = Some (anyPixelBehind (queryDepth built8x13 extentsFront) covered).
Proof.
  assert (H1 : 1 <= OCCLUSION_MIN_SIZE) by (apply Z.leb_le; reflexivity).
  assert (H2 : (1 <= 3)%nat) by (apply Nat.leb_le; reflexivity).
  assert (H3 : 13 <= OCCLUSION_MIN_SIZE * 2 ^ Z.of_nat 3)
    by (apply Z.leb_le; reflexivity).
  assert (H4 : (1 : Z) <> 0) by discriminate.
  assert (H5 : 13 < Z.of_nat 14) by (apply Z.ltb_lt; reflexivity).
  assert (H6 : proper (queryRect built8x13 extentsFront))
    by (split; apply Z.leb_le; reflexivity).
  split; [exact H1|]. split; [exact H2|]. split; [exact H3|].
  split; [reflexivity|]. split; [reflexivity|]. split; [exact H4|].
  split; [reflexivity|]. split; [reflexivity|]. split; [exact H5|].
  split; [reflexivity|]. split; [exact H6|].
  split; [reflexivity|]. split; [reflexivity|].
  exact (frame_query 8 14 buffer4x4 3 13 1 (seqZ 0 122) buffer8x13 built8x13
           boxFront extentsFront H1 H2 H3 eq_refl eq_refl H4 eq_refl eq_refl H5
           eq_refl H6).
Defined.

Lemma hierarchyOk_built4x4 : hierarchyOk built4x4.
Proof.
  intros [|N] mip Hn Hmip; [|discriminate Hmip].
  injection Hmip as <-. intros x y Hx Hy.
  change (levelDims (width built4x4) (height built4x4) 1).1 with 2 in *.
  change (levelDims (width built4x4) (height built4x4) 1).2 with 2 in Hy.
  change (width built4x4) with 4. change (height built4x4) with 4.
  assert (Hxy : (x = 0 \/ x = 1) /\ (y = 0 \/ y = 1)) by lia.
  destruct Hxy as [[-> | ->] [-> | ->]]; (eexists; split; [reflexivity|]);
    intros px py d Hpx Hpy Ex Ey Hd;
    change (Z.of_nat 1) with 1 in Ex, Ey;
    rewrite (Z.shiftr_div_pow2 px 1) in Ex by lia;
    rewrite (Z.shiftr_div_pow2 py 1) in Ey by lia;
    change (2 ^ 1) with 2 in Ex, Ey;
    assert (Hp : (px = 0 \/ px = 1 \/ px = 2 \/ px = 3)
                 /\ (py = 0 \/ py = 1 \/ py = 2 \/ py = 3)) by lia;
    destruct Hp as [[-> | [-> | [-> | ->]]] [-> | [-> | [-> | ->]]]];
    try discriminate Ex; try discriminate Ey;
    vm_compute in Hd; injection Hd as <-; vm_compute; split; discriminate.
Qed.

Lemma IsVisible_flat_witness :
  sized built4x4 /\ width built4x4 = 2 ^ Z.of_nat 2 /\
  numReadyMipBuffers built4x4 = 1 /\ numTriangleBatches built4x4 = 1 /\
  hierarchyOk built4x4 /\
  projectCorners built4x4 (clipCorners built4x4 boxNear) = Next extentsNear /\
  proper (queryRect built4x4 extentsNear) /\
  queryDepth built4x4 extentsNear = 12 /\
  IsVisible 5 built4x4 boxNear = Some true /\
  exists pixels,
    coveredPixels built4x4 (queryRect built4x4 extentsNear) = Some pixels /\
    IsVisible 5 built4x4 boxNear
    = Some (anyPixelBehind (queryDepth built4x4 extentsNear) pixels).
Proof.
  assert (H1 : 0 <= numReadyMipBuffers built4x4
               <= Z.of_nat (length (mipBuffers built4x4)))
    by (split; apply Z.leb_le; reflexivity).
  assert (H2 : numReadyMipBuffers built4x4 <= Z.of_nat 2)
    by (apply Z.leb_le; reflexivity).
  assert (H3 : numTriangleBatches built4x4 <> 0) by discriminate.
  assert (H4 : height built4x4 < Z.of_nat 5) by (apply Z.ltb_lt; reflexivity).
  assert (H5 : proper (queryRect built4x4 extentsNear))
    by (split; apply Z.leb_le; reflexivity).
  split; [exact sized_built4x4|]. split; [reflexivity|]. split; [reflexivity|].
  split; [reflexivity|]. split; [exact hierarchyOk_built4x4|].
  split; [reflexivity|]. split; [exact H5|]. split; [reflexivity|].
  split; [reflexivity|].
  exact (IsVisible_flat 5 built4x4 boxNear 2 extentsNear sized_built4x4 eq_refl
           H1 H2 H3 hierarchyOk_built4x4 H4 eq_refl H5).
Defined.

Lemma SetSize_again_witness :
  Z.land 12 1 = 0 /\
  SetSize 8 buffer4x4 8 12 = Some (true, buffer8x12) /\
  SetSize 0 buffer8x12 8 12 = Some (true, buffer8x12).
Proof.
  split; [reflexivity|]. split; [reflexivity|].
  exact (SetSize_again 8 0 buffer4x4 8 12 buffer8x12 eq_refl eq_refl).
Defined.

Lemma AddTriangle_ignores_scratch_witness :
  length crossingTriangle = length crossingLeftovers /\
  take 3 crossingTriangle = take 3 crossingLeftovers /\
  AddTriangle buffer8x13 emptyTask crossingTriangle
  = AddTriangle buffer8x13 emptyTask crossingLeftovers.
Proof.
  split; [reflexivity|]. split; [reflexivity|].
  exact (AddTriangle_ignores_scratch buffer8x13 emptyTask crossingTriangle
           crossingLeftovers eq_refl eq_refl).
Defined.

Lemma sized_buffer8x13 : sized buffer8x13.
Proof.
  apply (resize_sized 8 (forceEvenHeight buffer4x4) 8 13);
    [apply Z.ltb_lt; reflexivity|apply Z.ltb_lt; reflexivity|reflexivity].
Qed.

Lemma Qltb_asym (a b : Q) : Qltb a b = true -> Qltb b a = false.
Proof.
  unfold Qltb. rewrite negb_true_iff, negb_false_iff. intros Hba.
  apply Qle_bool_iff. apply Qlt_le_weak, Qnot_le_lt.
  intros Hle. apply Qle_bool_iff in Hle. congruence.
Qed.

Lemma Qltb_lt (a b : Q) : Qltb a b = true <-> (a < b)%Q.
Proof.
  unfold Qltb. rewrite negb_true_iff. split.
  - intros Hba. apply Qnot_le_lt. intros Hle. apply Qle_bool_iff in Hle. congruence.
  - intros Hlt. destruct (Qle_bool b a) eqn:E; [|done].
    apply Qle_bool_iff in E. exfalso. by apply (Qlt_not_le a b).
Qed.

Lemma Qltb_trans (a b c : Q) : Qltb a b = true -> Qltb b c = true -> Qltb a c = true.
Proof. rewrite !Qltb_lt. apply Qlt_trans. Qed.

Lemma sortVertices_sorted_witness :
  (forall a b : Q, Qltb a b = true -> Qltb b a = false) /\
  (forall a b c : Q, Qltb a b = true -> Qltb b c = true -> Qltb a c = true) /\
  sortVertices 3%Q 1%Q 2%Q = mkOrder 1 2 0 true /\
  [top (sortVertices 3%Q 1%Q 2%Q); middle (sortVertices 3%Q 1%Q 2%Q);
   bottom (sortVertices 3%Q 1%Q 2%Q)] ≡ₚ [0; 1; 2] /\
  f_lt (heightAt 3%Q 1%Q 2%Q (middle (sortVertices 3%Q 1%Q 2%Q)))
    (heightAt 3%Q 1%Q 2%Q (top (sortVertices 3%Q 1%Q 2%Q))) = false /\
  f_lt (heightAt 3%Q 1%Q 2%Q (bottom (sortVertices 3%Q 1%Q 2%Q)))
    (heightAt 3%Q 1%Q 2%Q (middle (sortVertices 3%Q 1%Q 2%Q))) = false /\
  f_lt (heightAt 3%Q 1%Q 2%Q (bottom (sortVertices 3%Q 1%Q 2%Q)))
    (heightAt 3%Q 1%Q 2%Q (top (sortVertices 3%Q 1%Q 2%Q))) = false.
Proof.
  split; [exact Qltb_asym|]. split; [exact Qltb_trans|]. split; [reflexivity|].
  exact (sortVertices_sorted 3%Q 1%Q 2%Q Qltb_asym Qltb_trans).
Defined.

Lemma RasterizeTrianglesWork_clears_witness :
  sized (occl frame0) /\
  load (rasterizeTrianglesTasks (occl frame0)) 0 = Some (mkRasterTask 0 2) /\
  0 <= 0 <= 2 /\ 2 <= height (occl frame0) /\
  exists this',
    RasterizeTrianglesWork frame0 0 = Some (rasterizeDone (setOccl frame0 this')) /\
    clearedBetween (width (occl frame0) * 0) (width (occl frame0) * 2)
      (occl frame0) this'.
Proof.
  assert (H1 : 0 <= startY (mkRasterTask 0 2) <= endY (mkRasterTask 0 2))
    by (split; apply Z.leb_le; reflexivity).
  assert (H2 : endY (mkRasterTask 0 2) <= height (occl frame0))
    by (apply Z.leb_le; reflexivity).
  assert (H3 : forall i, 0 <= i < numTriangleBatches (occl frame0) ->
            exists bt, load (generateTrianglesTasks frame0) i = Some bt /\
              load (triangleIndices (work bt)) 0 = Some []).
  { intros i Hi. change (numTriangleBatches (occl frame0)) with 0 in Hi. lia. }
  split; [exact sized_buffer8x13|]. split; [reflexivity|]. split; [exact H1|].
  split; [exact H2|].
  exact (RasterizeTrianglesWork_clears frame0 0 (mkRasterTask 0 2)
           sized_buffer8x13 eq_refl H1 H2 H3).
Defined.

Lemma batchesOk_frame0 : batchesOk frame0.
Proof.
  split; [split; apply Z.leb_le; reflexivity|].
  split; [split; apply Z.leb_le; reflexivity|]. constructor.
Qed.

Lemma AddTriangles_batch_witness :
  batchesOk frame0 /\
  AddTriangles blankBatch frame0 tt modelTriangle 12 0 3 = Some frame1 /\
  (exists p' bt,
     AddTriangles blankBatch frame0 tt modelTriangle 12 0 3 = Some p' /\
     batchesOk p' /\ batchAdded frame0 p' bt /\
     worldTransform (batch bt) = tt /\
     vertexData (batch bt) = drop (Z.to_nat 0) modelTriangle /\
     indexData (batch bt) = None /\ drawCount (batch bt) = 3) /\
  (exists p' bt,
     AddTrianglesIndexed blankBatch frame0 tt modelTriangle 12 [0; 1; 2] 2 0 3
     = Some p' /\
     batchesOk p' /\ batchAdded frame0 p' bt /\
     worldTransform (batch bt) = tt /\ vertexData (batch bt) = modelTriangle /\
     indexData (batch bt) = Some (drop (Z.to_nat 0) [0; 1; 2]) /\
     indexSize (batch bt) = 2 /\ drawCount (batch bt) = 3).
Proof.
  split; [exact batchesOk_frame0|]. split; [reflexivity|].
  exact (AddTriangles_batch blankBatch frame0 tt modelTriangle 12 0 3
           [0; 1; 2] 2 0 3 batchesOk_frame0).
Defined.

Lemma Reset_spec_witness :
  Reset (fun p => p) 1 frame1 = Some frameReset /\
  numTriangleBatches (occl frame1) = 1 /\
  numTriangleBatches (occl frameReset) = 0 /\
  numReadyMipBuffers (occl frameReset) = 0 /\
  numPendingGenerateTasks frameReset = 0 /\
  numPendingRasterizeTasks frameReset = 0 /\
  IsCompleted frameReset = true /\
  (forall fuel' box, IsVisible fuel' (occl frameReset) box = Some true) /\
  (numPendingRasterizeTasks frame1 <= 0 ->
   fullBuffer (occl frameReset) = fullBuffer (occl frame1) /\
   buffer (occl frameReset) = buffer (occl frame1) /\
   width (occl frameReset) = width (occl frame1) /\
   height (occl frameReset) = height (occl frame1) /\
   mipBuffers (occl frameReset) = mipBuffers (occl frame1) /\
   generateTrianglesTasks frameReset = generateTrianglesTasks frame1 /\
   queued frameReset = queued frame1).
Proof.
  split; [reflexivity|]. split; [reflexivity|].
  exact (Reset_spec (fun p => p) 1 frame1 frameReset eq_refl).
Defined.

Lemma frame_countdown_witness :
  buffer (occl frame1) <> None /\ IsCompleted frame1 = true /\
  0 < numTriangleBatches (occl frame1) /\ 0 < activeSlices (occl frame1) /\
  DrawTriangles frame1 = Some frameDrawn /\
  GenerateTrianglesWork 2 frameDrawn 0 scratch192 = Some frame2 /\
  queued frame2 = [QueueGenerate 1; QueueRasterize 7] /\
  occl frameDrawn = occl frame1 /\
  queued frameDrawn
  = queued frame1 ++ [QueueGenerate (numTriangleBatches (occl frame1))] /\
  IsCompleted frameDrawn = false /\ DrawTriangles frameDrawn = Some frameDrawn /\
  forall fuel vs tasks p2,
    runGenerate fuel vs tasks frameDrawn = Some p2 ->
    Z.of_nat (length tasks) <= numTriangleBatches (occl frame1) ->
    (Z.of_nat (length tasks) < numTriangleBatches (occl frame1) ->
     IsCompleted p2 = false /\ queued p2 = queued frameDrawn) /\
    (Z.of_nat (length tasks) = numTriangleBatches (occl frame1) ->
     queued p2
     = queued frameDrawn ++ [QueueRasterize (activeSlices (occl frame1))] /\
     forall slices p3,
       runRasterize slices p2 = Some p3 ->
       Z.of_nat (length slices) <= activeSlices (occl frame1) ->
       (Z.of_nat (length slices) < activeSlices (occl frame1) ->
        IsCompleted p3 = false /\ queued p3 = queued p2) /\
       (Z.of_nat (length slices) = activeSlices (occl frame1) ->
        IsCompleted p3 = true /\
        queued p3 = queued p2 ++ [QueueDepthHierarchy])).
Proof.
  assert (H1 : buffer (occl frame1) <> None) by discriminate.
  assert (H2 : 0 < numTriangleBatches (occl frame1))
    by (apply Z.ltb_lt; reflexivity).
  assert (H3 : 0 < activeSlices (occl frame1)) by (apply Z.ltb_lt; reflexivity).
  split; [exact H1|]. split; [reflexivity|]. split; [exact H2|].
  split; [exact H3|]. split; [reflexivity|]. split; [reflexivity|].
  split; [reflexivity|].
  exact (frame_countdown frame1 frameDrawn H1 eq_refl H2 H3 eq_refl).
Defined.

Lemma generateTriangles_spec_witness :
  length scratch192 = 192%nat /\
  Z.max 0 (ceilDiv (drawCount (batch batch1)) 3) < Z.of_nat 2 /\
  batchTriangles (batch batch1)
  = Some [(qv3 0 (11 # 13) (1 # 2), qv3 (3 # 2) (9 # 13) (1 # 2),
           qv3 (-1 # 2) (9 # 13) (1 # 2))] /\
  triangleIndices <$> generateTriangles 2 buffer8x13 batch1 scratch192
  = Some [[0; 1]; [0; 1]; []; []; []; []; []; []] /\
  generateTriangles 2 buffer8x13 batch1 scratch192
  = (ts ← batchTriangles (batch batch1);
     addAll buffer8x13
       (mulTransform (viewProj buffer8x13) (worldTransform (batch batch1))) ts
       (work batch1)).
Proof.
  assert (H1 : Z.max 0 (ceilDiv (drawCount (batch batch1)) 3) < Z.of_nat 2)
    by (apply Z.ltb_lt; reflexivity).
  split; [reflexivity|]. split; [exact H1|]. split; [reflexivity|].
  split; [reflexivity|].
  exact (generateTriangles_spec 2 buffer8x13 batch1 scratch192 eq_refl H1).
Defined.

Lemma generateTriangles_ragged_indices_witness :
  length scratch192 = 192%nat /\
  Z.max 0 (ceilDiv (drawCount (batch raggedBatch)) 3) < Z.of_nat 3 /\
  indexData (batch raggedBatch) = Some [0; 1; 2; 0] /\
  Z.of_nat (length [0; 1; 2; 0]) = drawCount (batch raggedBatch) /\
  drawCount (batch raggedBatch) mod 3 <> 0 /\
  generateTriangles 3 buffer8x13 raggedBatch scratch192 = None.
Proof.
  assert (H1 : Z.max 0 (ceilDiv (drawCount (batch raggedBatch)) 3) < Z.of_nat 3)
    by (apply Z.ltb_lt; reflexivity).
  assert (H2 : drawCount (batch raggedBatch) mod 3 <> 0) by discriminate.
  split; [reflexivity|]. split; [exact H1|]. split; [reflexivity|].
  split; [reflexivity|]. split; [exact H2|].
  exact (generateTriangles_ragged_indices 3 buffer8x13 raggedBatch [0; 1; 2; 0]
           scratch192 eq_refl H1 eq_refl eq_refl H2).
Defined.

Lemma GenerateTrianglesWork_indices_witness :
  length scratch192 = 192%nat /\
  Z.max 0 (ceilDiv (drawCount (batch batch1)) 3) < Z.of_nat 2 /\
  0 <= activeSlices (occl frameDrawn)
  <= Z.of_nat (length (triangleIndices (work batch1))) /\
  load (generateTrianglesTasks frameDrawn) 0 = Some batch1 /\
  triangles (work batch1) = [] /\
  GenerateTrianglesWork 2 frameDrawn 0 scratch192 = Some frame2 /\
  occl frame2 = occl frameDrawn /\
  exists bt',
    load (generateTrianglesTasks frame2) 0 = Some bt' /\
    batch bt' = batch batch1 /\
    activeValid (activeSlices (occl frameDrawn)) (work bt') /\
    forall j, j <> 0 ->
      load (generateTrianglesTasks frame2) j
      = load (generateTrianglesTasks frameDrawn) j.
Proof.
  assert (H1 : Z.max 0 (ceilDiv (drawCount (batch batch1)) 3) < Z.of_nat 2)
    by (apply Z.ltb_lt; reflexivity).
  assert (H2 : 0 <= activeSlices (occl frameDrawn)
               <= Z.of_nat (length (triangleIndices (work batch1))))
    by (split; apply Z.leb_le; reflexivity).
  assert (H3 : forall j, 0 <= j < activeSlices (occl frameDrawn) ->
            load (triangleIndices (work batch1)) j = Some []).
  { intros j Hj. change (activeSlices (occl frameDrawn)) with 7 in Hj.
    assert (Hc : j = 0 \/ j = 1 \/ j = 2 \/ j = 3 \/ j = 4 \/ j = 5 \/ j = 6) by lia.
    destruct Hc as [-> | [-> | [-> | [-> | [-> | [-> | ->]]]]]]; reflexivity. }
  split; [reflexivity|]. split; [exact H1|]. split; [exact H2|].
  split; [reflexivity|]. split; [reflexivity|]. split; [reflexivity|].
  exact (GenerateTrianglesWork_indices 2 frameDrawn 0 batch1 scratch192 frame2
           eq_refl H1 H2 eq_refl eq_refl H3 eq_refl).
Defined.

(** The second build at the 4 x 4 object. *)
Lemma BuildDepthHierarchyWork_again_witness :
  0 < width built4x4 /\ 0 < height built4x4 /\ buffer built4x4 <> None /\
  numTriangleBatches built4x4 <> 0 /\ 0 < numReadyMipBuffers built4x4 /\
  BuildDepthHierarchyWork built4x4 = Some rebuilt4x4 /\
  projectCorners rebuilt4x4 (clipCorners rebuilt4x4 boxNear) = Next extentsNear /\
  Z.of_nat (length (mipBuffers rebuilt4x4)) < numReadyMipBuffers rebuilt4x4 /\
  IsVisible 5 rebuilt4x4 boxNear = None.
Proof.
  assert (H1 : 0 < width built4x4) by (apply Z.ltb_lt; reflexivity).
  assert (H2 : 0 < height built4x4) by (apply Z.ltb_lt; reflexivity).
  assert (H3 : buffer built4x4 <> None) by discriminate.
  assert (H4 : numTriangleBatches built4x4 <> 0) by discriminate.
  assert (H5 : 0 < numReadyMipBuffers built4x4) by (apply Z.ltb_lt; reflexivity).
  assert (H6 : BuildDepthHierarchyWork built4x4 = Some rebuilt4x4) by reflexivity.
  assert (H7 : projectCorners rebuilt4x4 (clipCorners rebuilt4x4 boxNear)
               = Next extentsNear) by reflexivity.
  split; [exact H1|]. split; [exact H2|]. split; [exact H3|]. split; [exact H4|].
  split; [exact H5|]. split; [exact H6|]. split; [exact H7|].
  exact (BuildDepthHierarchyWork_again 5 built4x4 rebuilt4x4 boxNear extentsNear
           H1 H2 H3 H4 H5 H6 H7).
Defined.

Lemma sized_buffer72x8 : sized buffer72x8.
Proof.
  apply (resize_sized 8 (forceEvenHeight buffer4x4) 72 8);
    [apply Z.ltb_lt; reflexivity|apply Z.ltb_lt; reflexivity|reflexivity].
Qed.

(** The 72 x 8 object: its third level is 9 cells wide. *)
Lemma BuildDepthHierarchyWork_odd_level_witness :
  SetSize 8 buffer4x4 72 8 = Some (true, buffer72x8) /\
  sized buffer72x8 /\ (S 2 < length (mipBuffers buffer72x8))%nat /\
  Z.odd (levelDims (width buffer72x8) (height buffer72x8) (S 2)).1 = true /\
  BuildDepthHierarchyWork buffer72x8 = None.
Proof.
  assert (H1 : (S 2 < length (mipBuffers buffer72x8))%nat)
    by (apply Nat.ltb_lt; reflexivity).
  split; [reflexivity|]. split; [exact sized_buffer72x8|]. split; [exact H1|].
  split; [reflexivity|].
  exact (BuildDepthHierarchyWork_odd_level buffer72x8 2 sized_buffer72x8 H1 eq_refl).
Defined.

End Examples.
